(** * Sales-order converter: a shallow embedding of [src/converter.py]

    The development follows the Python module top to bottom: the text
    primitives the module relies on ([str.strip], [str.upper], [float],
    the [.2f] format, [re.sub] on whitespace), the dictionaries it reads
    and builds, the salesperson directory with its process-wide cache,
    the delimiter detector and finally [convert_rows] with its two loops.

    Texts are sequences of Unicode code points.  Everything the module
    does on ASCII is written out; the two places where Python consults
    the Unicode database outside ASCII (the full upper-case mapping and
    the decimal-digit value of a character) are parameters of the
    development. *)

From Stdlib Require Import List String Ascii Bool Arith NArith ZArith Lia.
From Stdlib Require DecimalPos.
Import ListNotations.

Set Implicit Arguments.

Open Scope string_scope.
Open Scope list_scope.

(* ================================================================== *)
(** * Texts *)
(* ================================================================== *)

Module Text.

Local Open Scope N_scope.

(** A Python [str]: a sequence of code points. *)
Definition text := list N.

(** [cp "abc"] is the text of an ASCII literal. *)
Definition cp (s : string) : text :=
  map N_of_ascii (list_ascii_of_string s).

Fixpoint eqb (a b : text) : bool :=
  match a, b with
  | [], [] => true
  | x :: a', y :: b' => N.eqb x y && eqb a' b'
  | _, _ => false
  end.

(** Python truthiness of a string: [if s] holds for the non-empty ones. *)
Definition truthy (s : text) : bool :=
  match s with [] => false | _ :: _ => true end.

(** [x in keys] for a list of strings. *)
Definition mem (x : text) (l : list text) : bool := existsb (eqb x) l.

(** The code points on which [str.isspace] holds; [str.strip] without
    argument and the regular expression class [\s] both use this set. *)
Definition is_space (c : N) : bool :=
  ((9 <=? c) && (c <=? 13)) || ((28 <=? c) && (c <=? 32))
  || (c =? 133) || (c =? 160) || (c =? 5760)
  || ((8192 <=? c) && (c <=? 8202))
  || (c =? 8232) || (c =? 8233) || (c =? 8239) || (c =? 8287)
  || (c =? 12288).

Fixpoint lstrip (s : text) : text :=
  match s with
  | c :: s' => if is_space c then lstrip s' else s
  | [] => []
  end.

Definition rstrip (s : text) : text := rev (lstrip (rev s)).

(** [s.strip()] *)
Definition strip (s : text) : text := rstrip (lstrip s).

(** [re.sub(r'\s+', '', s)]: every maximal run of whitespace is deleted,
    which leaves exactly the characters that are not whitespace. *)
Definition remove_whitespace (s : text) : text :=
  filter (fun c => negb (is_space c)) s.

(** [s.replace(',', '')] *)
Definition remove_commas (s : text) : text :=
  filter (fun c => negb (c =? 44)) s.

(** [s.count(ch)] for a one-character needle. *)
Definition count (ch : N) (s : text) : nat :=
  List.length (filter (N.eqb ch) s).

Section Unicode.

(** The full upper-case mapping of a code point outside ASCII, as the
    Unicode database of the interpreter gives it (one code point may
    map to several, as U+00DF does). *)
Variable unicode_upper : N -> list N.

Definition upper_char (c : N) : list N :=
  if c <? 128 then
    (if (97 <=? c) && (c <=? 122) then [c - 32] else [c])
  else unicode_upper c.

(** [s.upper()]: the mapping is applied character by character. *)
Definition upper (s : text) : text := flat_map upper_char s.

End Unicode.

End Text.

Import Text.

(* ================================================================== *)
(** * Exceptions *)
(* ================================================================== *)

(** The exceptions the modelled code can meet.  All of them are
    subclasses of Python's [Exception], so [except Exception] catches
    each one.  [CsvError] is the [Error] of the [csv] module, raised on
    a field beyond the field limit; [OSError] stands for the failures
    of opening or reading a file that exists. *)
Inductive exn : Type :=
| ValueError
| KeyError
| IndexError
| FileNotFoundError
| OSError
| CsvError.

(** A computation that returns a value or raises. *)
Inductive result (A : Type) : Type :=
| Ok (a : A)
| Raise (e : exn).

Arguments Ok {A} a.
Arguments Raise {A} e.

Definition bind {A B} (m : result A) (k : A -> result B) : result B :=
  match m with
  | Ok a => k a
  | Raise e => Raise e
  end.

Notation "x <- m ;; k" := (bind m (fun x => k))
  (at level 61, m at next level, right associativity).

(** [try: m  except Exception: h] *)
Definition try_except {A} (m : result A) (h : A) : A :=
  match m with
  | Ok a => a
  | Raise _ => h
  end.

(* ================================================================== *)
(** * Python floats: [float(text)] and the [.2f] format *)
(* ================================================================== *)

Module PyFloat.

Local Open Scope Z_scope.

(** A binary64 value.  [Finite neg m e] is [(-1)^neg * m * 2^e] with
    [0 <= m < 2^53] and [-1074 <= e <= 971]; zero keeps its sign. *)
Inductive pyfloat : Type :=
| Finite (neg : bool) (m : Z) (e : Z)
| Infinity (neg : bool)
| NaN.

(** The literal [0.0]. *)
Definition zero : pyfloat := Finite false 0 0.

(** Quotient of [n / d] (with [0 < d]) rounded to the nearest integer,
    ties to the even one. *)
Definition div_half_even (n d : Z) : Z :=
  let q := n / d in
  let r := n mod d in
  if (d <? 2 * r) || ((d =? 2 * r) && Z.odd q) then q + 1 else q.

(** Correct rounding of the decimal [m * 10^e10] to binary64, as the
    interpreter's [strtod] performs it: nearest value, ties to even,
    gradual underflow to a signed zero, overflow to an infinity. *)
Definition round_decimal (neg : bool) (m e10 : Z) : pyfloat :=
  if m =? 0 then Finite neg 0 0 else
  let num := if 0 <=? e10 then m * 10 ^ e10 else m in
  let den := if 0 <=? e10 then 1 else 10 ^ (- e10) in
  let k0 := Z.log2 num - Z.log2 den - 52 in
  let scaled k := if 0 <=? k then num / (den * 2 ^ k)
                  else (num * 2 ^ (- k)) / den in
  let q0 := scaled k0 in
  let k1 := if q0 <? 2 ^ 52 then k0 - 1
            else if 2 ^ 53 <=? q0 then k0 + 1 else k0 in
  let k := Z.max k1 (-1074) in
  let q := if 0 <=? k then div_half_even num (den * 2 ^ k)
           else div_half_even (num * 2 ^ (- k)) den in
  let '(q', k') := if q =? 2 ^ 53 then (2 ^ 52, k + 1) else (q, k) in
  if 971 <? k' then Infinity neg else Finite neg q' k'.

Local Open Scope N_scope.

Definition is_digit (c : N) : bool := (48 <=? c) && (c <=? 57).

(** The longest prefix of decimal digits (as digit values) and the rest. *)
Fixpoint span_digits (s : text) : list N * text :=
  match s with
  | c :: s' =>
      if is_digit c then
        let '(ds, rest) := span_digits s' in (c - 48 :: ds, rest)
      else ([], s)
  | [] => ([], [])
  end.

Definition digits_value (ds : list N) : Z :=
  fold_left (fun a d => (10 * a + Z.of_N d)%Z) ds 0%Z.

Definition parse_sign (s : text) : bool * text :=
  match s with
  | 45 :: r => (true, r)
  | 43 :: r => (false, r)
  | _ => (false, s)
  end.

(** An exponent part [e] or [E], optional sign, at least one digit.
    When the digits are missing nothing is consumed. *)
Definition parse_exponent (s : text) : Z * text :=
  match s with
  | c :: r =>
      if (c =? 101) || (c =? 69) then
        let '(eneg, r1) := parse_sign r in
        let '(ds, r2) := span_digits r1 in
        match ds with
        | [] => (0%Z, s)
        | _ :: _ =>
            ((if eneg then - digits_value ds else digits_value ds)%Z, r2)
        end
      else (0%Z, s)
  | [] => (0%Z, s)
  end.

(** The decimal parser: sign, digits, optional point and digits, at
    least one digit in all, optional exponent.  [None] when no number
    starts the text; otherwise the value and the unread rest. *)
Definition strtod (s : text) : option (pyfloat * text) :=
  let '(neg, r0) := parse_sign s in
  let '(ip, r1) := span_digits r0 in
  let '(fp, r2) := match r1 with
                   | 46 :: r => span_digits r
                   | _ => ([], r1)
                   end in
  match ip ++ fp with
  | [] => None
  | _ :: _ =>
      let '(ex, r3) := parse_exponent r2 in
      Some (round_decimal neg (digits_value (ip ++ fp))
                          (ex - Z.of_nat (List.length fp)), r3)
  end.

Definition to_lower_ascii (c : N) : N :=
  if (65 <=? c) && (c <=? 90) then c + 32 else c.

(** [s] starts with the lower-case word [w], letter case ignored;
    returns what follows. *)
Fixpoint match_word (w s : text) : option text :=
  match w with
  | [] => Some s
  | x :: w' =>
      match s with
      | c :: s' => if to_lower_ascii c =? x then match_word w' s' else None
      | [] => None
      end
  end.

(** The words [inf], [infinity] and [nan] with an optional sign. *)
Definition parse_inf_or_nan (s : text) : option (pyfloat * text) :=
  let '(neg, r) := parse_sign s in
  match match_word (cp "inf") r with
  | Some r1 =>
      match match_word (cp "inity") r1 with
      | Some r2 => Some (Infinity neg, r2)
      | None => Some (Infinity neg, r1)
      end
  | None =>
      match match_word (cp "nan") r with
      | Some r1 => Some (NaN, r1)
      | None => None
      end
  end.

(** White space in the C sense, which the number parser strips. *)
Definition is_c_space (c : N) : bool :=
  ((9 <=? c) && (c <=? 13)) || (c =? 32).

Fixpoint c_lstrip (s : text) : text :=
  match s with
  | c :: s' => if is_c_space c then c_lstrip s' else s
  | [] => []
  end.

Definition c_strip (s : text) : text := rev (c_lstrip (rev (c_lstrip s))).

(** Underscores are legal only between two digits; they are dropped.
    [prev] is the character before the current one. *)
Fixpoint drop_underscores (prev : N) (s : text) : option text :=
  match s with
  | [] => if prev =? 95 then None else Some []
  | c :: s' =>
      if c =? 95 then
        if is_digit prev then drop_underscores c s' else None
      else if (prev =? 95) && negb (is_digit c) then None
      else option_map (cons c) (drop_underscores c s')
  end.

Section Unicode.

(** The decimal-digit value of a code point outside ASCII, if it is a
    decimal digit of some script. *)
Variable unicode_decimal : N -> option N.

(** Before parsing, a text with a character outside ASCII has its
    white space turned into blanks and its decimal digits into ASCII
    ones; at the first other character a question mark ends it. *)
Fixpoint transform (s : text) : text :=
  match s with
  | [] => []
  | c :: s' =>
      if c <? 127 then c :: transform s'
      else if is_space c then 32 :: transform s'
      else match unicode_decimal c with
           | Some d => 48 + d :: transform s'
           | None => [63]
           end
  end.

Definition to_ascii (s : text) : text :=
  if forallb (fun c => c <? 128) s then s else transform s.

(** [float(s)] on a string. *)
Definition float (s : text) : result pyfloat :=
  let a := to_ascii s in
  match (if existsb (N.eqb 95) a then drop_underscores 0 a else Some a) with
  | None => Raise ValueError
  | Some b =>
      let t := c_strip b in
      match (match strtod t with
             | Some r => Some r
             | None => parse_inf_or_nan t
             end) with
      | Some (x, []) => Ok x
      | _ => Raise ValueError
      end
  end.

End Unicode.

(** Decimal digits of a natural number. *)
Fixpoint uint_digits (u : Decimal.uint) : text :=
  match u with
  | Decimal.Nil => []
  | Decimal.D0 u' => 48 :: uint_digits u'
  | Decimal.D1 u' => 49 :: uint_digits u'
  | Decimal.D2 u' => 50 :: uint_digits u'
  | Decimal.D3 u' => 51 :: uint_digits u'
  | Decimal.D4 u' => 52 :: uint_digits u'
  | Decimal.D5 u' => 53 :: uint_digits u'
  | Decimal.D6 u' => 54 :: uint_digits u'
  | Decimal.D7 u' => 55 :: uint_digits u'
  | Decimal.D8 u' => 56 :: uint_digits u'
  | Decimal.D9 u' => 57 :: uint_digits u'
  end.

Definition decimal_of_N (n : N) : text := uint_digits (N.to_uint n).

(** [f"{x:.2f}"]: the exact value of [x] rounded to hundredths, ties to
    even; infinities and NaN print as words. *)
Definition format_2f (x : pyfloat) : text :=
  match x with
  | NaN => cp "nan"
  | Infinity neg => (if neg then cp "-" else []) ++ cp "inf"
  | Finite neg m e =>
      let h := (if (0 <=? e)%Z then m * 2 ^ e * 100
                else div_half_even (m * 100) (2 ^ (- e)))%Z in
      let n := Z.to_N h in
      (if neg then cp "-" else [])
        ++ decimal_of_N (n / 100)
        ++ [46; 48 + (n mod 100) / 10; 48 + (n mod 10)]
  end.

End PyFloat.

Import PyFloat.

(* ================================================================== *)
(** * Dictionaries *)
(* ================================================================== *)

Module Dict.

(** A Python [dict] with string keys: the items in insertion order.
    Order matters because [convert_rows] walks the keys of the first
    row in order. *)
Definition dict (V : Type) := list (text * V).

Section Ops.
Variable V : Type.

(** [d.get(k)]: [None] when the key is absent. *)
Fixpoint get (k : text) (d : dict V) : option V :=
  match d with
  | [] => None
  | (k', v) :: d' => if Text.eqb k k' then Some v else get k d'
  end.

(** [k in d] *)
Definition contains (k : text) (d : dict V) : bool :=
  match get k d with Some _ => true | None => false end.

(** [d[k]] *)
Definition getitem (k : text) (d : dict V) : result V :=
  match get k d with Some v => Ok v | None => Raise KeyError end.

(** [d[k] = v]: replaces the value in place or appends a new item. *)
Fixpoint set (k : text) (v : V) (d : dict V) : dict V :=
  match d with
  | [] => [(k, v)]
  | (k', v') :: d' =>
      if Text.eqb k k' then (k, v) :: d' else (k', v') :: set k v d'
  end.

(** [d.update({...})] *)
Definition update (d : dict V) (items : list (text * V)) : dict V :=
  fold_left (fun acc kv => set (fst kv) (snd kv) acc) items d.

(** [list(d.keys())] *)
Definition keys (d : dict V) : list text := map fst d.

End Ops.

End Dict.

(** An input row: column name to text, [None] where the reader had no
    field for the column. *)
Definition Row := Dict.dict (option text).

(** An output row of the template. *)
Definition TemplateRow := Dict.dict text.

(** [str(v)] for a value that is a string or [None]. *)
Definition py_str (v : option text) : text :=
  match v with Some s => s | None => cp "None" end.

(** [v or d] where [v] is a string or [None]. *)
Definition py_or (v : option text) (d : text) : text :=
  match v with
  | Some (c :: s) => c :: s
  | _ => d
  end.

(** [next((k for k in header_keys if k in aliases), None)] *)
Definition first_header_key (header_keys aliases : list text) : option text :=
  find (fun k => Text.mem k aliases) header_keys.

(** [rows[0]] *)
Definition index0 {A} (l : list A) : result A :=
  match l with
  | x :: _ => Ok x
  | [] => Raise IndexError
  end.

(** [datetime.now()], as far as the module reads it. *)
Record DateTime : Type := {
  month : nat;
  day : nat;
  hour : nat;
  minute : nat
}.

Definition pad2 (n : nat) : text :=
  [(48 + N.of_nat (n / 10 mod 10))%N; (48 + N.of_nat (n mod 10))%N].

(** [now.strftime('%m%d%H%M')] *)
Definition strftime_mdHM (t : DateTime) : text :=
  pad2 (month t) ++ pad2 (day t) ++ pad2 (hour t) ++ pad2 (minute t).

(** What reading a text file gives under each codec.  [utf8_text] is
    [None] when the UTF-8 decoder raises [UnicodeDecodeError]; Latin-1
    decodes every byte sequence. *)
Record TextFile : Type := {
  utf8_text : option text;
  latin1_text : text
}.

(** How a pass of [csv.DictReader] over the salesperson list ends: by
    exhaustion, with the [UnicodeDecodeError] that
    [_load_salesperson_map] catches, or with an exception that nothing
    catches ([CsvError] on a field beyond the field limit, [OSError]
    when the file cannot be opened or read). *)
Inductive PassEnd : Type :=
| Exhausted
| DecodeError
| Uncaught (e : exn).

(** The salesperson list as [csv.DictReader] yields it under each codec:
    the rows read as UTF-8 and how that pass ends; the rows read as
    Latin-1, which decodes every byte sequence, and the exception that
    ends that pass, if any. *)
Record DirectoryFile : Type := {
  utf8_rows : list Row;
  utf8_end : PassEnd;
  latin1_rows : list Row;
  latin1_end : option exn
}.

(** The template columns, in order. *)
Definition TEMPLATE_HEADERS : list text :=
  [cp "name"; cp "partner_id"; cp "user_id"; cp "Cust #"; cp "Salesperson";
   cp "activity_ids"; cp "order_line/name"; cp "order_line/product_uom_qty";
   cp "order_line/price_unit"; cp "order_line/product_id";
   cp "order_line/product_template_id/name";
   cp "order_line/product_template_id"].

(* ================================================================== *)
(** * The converter *)
(* ================================================================== *)

Module Converter.

Section WithUnicode.

Variable unicode_upper : N -> list N.
Variable unicode_decimal : N -> option N.

Local Abbreviation upper := (Text.upper unicode_upper).
Local Abbreviation float := (PyFloat.float unicode_decimal).

(** ** The salesperson directory *)

(** The body of the two reading loops of [_load_salesperson_map]. *)
Definition load_row (mapping : Dict.dict text) (row : Row) : Dict.dict text :=
  let field k := match Dict.get (cp k) row with
                 | Some v => py_or v []
                 | None => []
                 end in
  let code := upper (strip (field "Code")) in
  let name := strip (field "Name") in
  if truthy code && truthy name then Dict.set code name mapping
  else mapping.

(** [file] is [None] when [os.path.exists] fails.  A decoding error in
    the UTF-8 pass keeps what was stored so far and reads the file
    again as Latin-1.  Only that error is caught: any other exception
    of either pass leaves the function, and the mapping is lost. *)
Definition _load_salesperson_map (file : option DirectoryFile)
  : result (Dict.dict text) :=
  match file with
  | None => Ok []
  | Some f =>
      let mapping := fold_left load_row (utf8_rows f) [] in
      match utf8_end f with
      | Exhausted => Ok mapping
      | DecodeError =>
          let mapping := fold_left load_row (latin1_rows f) mapping in
          match latin1_end f with
          | None => Ok mapping
          | Some e => Raise e
          end
      | Uncaught e => Raise e
      end
  end.

(** The module-level cache [_SALESPERSON_MAP] is threaded as state:
    the function returns the directory and the new cache.  When the
    load raises, the assignment does not take place and the cache
    stays unset. *)
Definition _get_salesperson_map (file : option DirectoryFile)
           (_SALESPERSON_MAP : option (Dict.dict text))
  : result (Dict.dict text) * option (Dict.dict text) :=
  match _SALESPERSON_MAP with
  | None =>
      match _load_salesperson_map file with
      | Ok m => (Ok m, Some m)
      | Raise e => (Raise e, None)
      end
  | Some m => (Ok m, Some m)
  end.

(** ** Delimiter detection *)

(** [f.readline()] on a file opened with [newline='']: the line ends
    at the first LF, CR or CR LF, which stays in the result. *)
Fixpoint readline (s : text) : text :=
  match s with
  | [] => []
  | c :: s' =>
      if (c =? 10)%N then [c]
      else if (c =? 13)%N then
        match s' with
        | c' :: _ => if (c' =? 10)%N then [c; c'] else [c]
        | [] => [c]
        end
      else c :: readline s'
  end.

(** [file] is [None] when the path cannot be opened. *)
Definition detect_delimiter (file : option TextFile) : result text :=
  match file with
  | None => Raise FileNotFoundError
  | Some f =>
      match utf8_text f with
      | Some t =>
          let first := readline t in
          Ok (if Nat.ltb (Text.count 44 first) (Text.count 59 first)
              then cp ";" else cp ",")
      | None =>
          let first := readline (latin1_text f) in
          Ok (if Nat.ltb (Text.count 44 first) (Text.count 59 first)
              then cp ";" else cp ",")
      end
  end.

(** ** Row conversion *)

Fixpoint get_val (row : Row) (keys : list text) : result text :=
  match keys with
  | [] => Ok []
  | k :: keys' =>
      if Dict.contains k row then
        v <- Dict.getitem k row ;;
        match v with
        | Some _ =>
            Ok (strip (py_str (match Dict.get k row with
                               | Some v' => v'
                               | None => Some []
                               end)))
        | None => get_val row keys'
        end
      else get_val row keys'
  end.

Definition doc_keys : list text :=
  [cp "Doc #"; cp "DOC #"; cp "Doc#"; cp "DOC#"; cp "Doc No"; cp "DOC NO";
   cp "Doc"].
Definition customer_keys : list text :=
  [cp "Customer Name"; cp "CUSTOMER NAME"; cp "Customer"; cp "CLIENTE";
   cp "Cust #"].
Definition sku_keys : list text :=
  [cp "SKU"; cp "Sku"; cp "sku"; cp "Item"; cp "ITEM"].
Definition desc_keys : list text :=
  [cp "Description"; cp "DESCRIPTION"; cp "description"; cp "DESCRIPCION";
   cp "DESCRIPCI" ++ [195; 8220]%N ++ cp "N"].
Definition qty_keys : list text := [cp "Qty"; cp "QTY"; cp "Quantity"].
Definition price_keys : list text :=
  [cp "Price"; cp "PRICE"; cp "Unit Price"; cp "UnitPrice"].
Definition salesperson_keys : list text :=
  [cp "Salesperson"; cp "SALESPERSON"; cp "Sales Person"; cp "Sales_Person";
   cp "Salesperson"].
Definition cust_keys : list text := [cp "Cust #"].

Definition default_partner : text := cp "Default User".
Definition default_salesperson : text := cp "Jabes Omar De La Cruz".

(** [float(t.replace(',', '')) if t else 0.0] under
    [try ... except Exception: 0.0]. *)
Definition parse_number (t : text) : pyfloat :=
  try_except (if truthy t then float (remove_commas t) else Ok zero) zero.

(** The dictionary literal every output row starts from. *)
Definition empty_header : TemplateRow :=
  [(cp "name", []); (cp "partner_id", []); (cp "user_id", []);
   (cp "Cust #", []); (cp "Salesperson", []); (cp "activity_ids", [])].

(** The [row_out.update({...})] that closes both loop bodies. *)
Definition with_order_line (row_out : TemplateRow)
           (sku description : text) (quantity unit_price : pyfloat)
  : TemplateRow :=
  let product_template_id := cp "[" ++ sku ++ cp "] " ++ description in
  Dict.update row_out
    [(cp "order_line/name", product_template_id);
     (cp "order_line/product_uom_qty", format_2f quantity);
     (cp "order_line/price_unit", format_2f unit_price);
     (cp "order_line/product_id", product_template_id);
     (cp "order_line/product_template_id/name", description);
     (cp "order_line/product_template_id", product_template_id)].

(** [get_val(row, [key]) if key else ''] *)
Definition get_val_opt (row : Row) (key : option text) : result text :=
  match key with
  | Some (c :: k) => get_val row [c :: k]
  | _ => Ok []
  end.

(** [doc_number != current_doc], where [current_doc] starts as [None]. *)
Definition differs (doc_number : text) (current_doc : option text) : bool :=
  match current_doc with
  | None => true
  | Some d => negb (Text.eqb doc_number d)
  end.

(** The loop of the document-number branch; [current_doc] and
    [template_rows] are the loop's variables. *)
Fixpoint doc_loop (sp_map : Dict.dict text)
         (doc_key : text) (customer_key cust_key : option text)
         (rows : list Row) (current_doc : option text)
         (template_rows : list TemplateRow) : result (list TemplateRow) :=
  match rows with
  | [] => Ok template_rows
  | row :: rows' =>
      sku <- get_val row sku_keys ;;
      if negb (truthy sku) then
        doc_loop sp_map doc_key customer_key cust_key rows' current_doc
                 template_rows
      else
        description <- get_val row desc_keys ;;
        qty <- get_val row qty_keys ;;
        price <- get_val row price_keys ;;
        doc_number <- get_val row [doc_key] ;;
        customer_name <- get_val_opt row customer_key ;;
        code <- get_val row salesperson_keys ;;
        let salesperson_code := upper code in
        let salesperson_name :=
          if truthy salesperson_code then Dict.get salesperson_code sp_map
          else Some [] in
        cust_value <- get_val_opt row cust_key ;;
        let quantity := parse_number qty in
        let unit_price := parse_number price in
        let row_out := empty_header in
        let opens := truthy doc_number && differs doc_number current_doc
                     && negb (Text.eqb doc_number (cp "0")) in
        let current_doc' := if opens then Some doc_number else current_doc in
        let row_out :=
          if opens then
            let order_name := cp "O" ++ remove_whitespace doc_number in
            let row_out := Dict.set (cp "name") order_name row_out in
            let row_out :=
              Dict.set (cp "partner_id")
                       (py_or (Some customer_name) default_partner) row_out in
            let row_out :=
              Dict.set (cp "user_id")
                       (py_or salesperson_name default_salesperson) row_out in
            let row_out :=
              Dict.set (cp "Cust #")
                       (py_or (Some cust_value)
                              (py_or (Some customer_name) default_partner))
                       row_out in
            Dict.set (cp "Salesperson")
                     (py_or salesperson_name default_salesperson) row_out
          else row_out in
        let row_out :=
          with_order_line row_out sku description quantity unit_price in
        doc_loop sp_map doc_key customer_key cust_key rows' current_doc'
                 (template_rows ++ [row_out])
  end.

(** The loop of the single-order fallback. *)
Fixpoint single_loop (quotation_number : text) (rows : list Row)
         (first : bool) (template_rows : list TemplateRow)
  : result (list TemplateRow) :=
  match rows with
  | [] => Ok template_rows
  | row :: rows' =>
      sku <- get_val row sku_keys ;;
      if negb (truthy sku) then
        single_loop quotation_number rows' first template_rows
      else
        description <- get_val row desc_keys ;;
        qty <- get_val row qty_keys ;;
        price <- get_val row price_keys ;;
        let quantity := parse_number qty in
        let unit_price := parse_number price in
        let row_out := empty_header in
        let row_out :=
          if first then
            let row_out := Dict.set (cp "name") quotation_number row_out in
            let row_out :=
              Dict.set (cp "partner_id") default_partner row_out in
            let row_out :=
              Dict.set (cp "user_id") default_salesperson row_out in
            let row_out := Dict.set (cp "Cust #") default_partner row_out in
            Dict.set (cp "Salesperson") default_salesperson row_out
          else row_out in
        let row_out :=
          with_order_line row_out sku description quantity unit_price in
        single_loop quotation_number rows' false (template_rows ++ [row_out])
  end.

(** The surroundings of one call: the salesperson list on disk and the
    clock. *)
Record Env : Type := {
  directory_file : option DirectoryFile;
  now : DateTime
}.

(** [convert_rows(epicor_rows)].  The second component is the
    salesperson cache after the call. *)
Definition convert_rows (env : Env) (cache : option (Dict.dict text))
           (epicor_rows : list Row)
  : result (list TemplateRow) * option (Dict.dict text) :=
  let header_keys :=
    match epicor_rows with
    | _ :: _ => r <- index0 epicor_rows ;; Ok (Dict.keys r)
    | [] => Ok []
    end in
  match header_keys with
  | Raise e => (Raise e, cache)
  | Ok header_keys =>
      let doc_key := first_header_key header_keys doc_keys in
      let customer_key := first_header_key header_keys customer_keys in
      let cust_key := first_header_key header_keys cust_keys in
      match _get_salesperson_map (directory_file env) cache with
      | (Raise e, cache') => (Raise e, cache')
      | (Ok sp_map, cache') =>
          (match doc_key with
           | Some (c :: k) =>
               doc_loop sp_map (c :: k) customer_key cust_key epicor_rows
                        None []
           | _ =>
               let quotation_number := cp "QO" ++ strftime_mdHM (now env) in
               single_loop quotation_number epicor_rows true []
           end,
           cache')
      end
  end.

End WithUnicode.

End Converter.

Import Converter.

(* ================================================================== *)
(** * What the loops compute

    The definitions below describe the values the code above returns;
    each is tied to the code by a lemma ([get_val_value],
    [doc_loop_value], [single_loop_value], [convert_rows_value]). *)
(* ================================================================== *)

(** An output row written column by column, in template order. *)
Definition template_row
           (name partner user cust sales line qty price desc : text)
  : TemplateRow :=
  [(cp "name", name); (cp "partner_id", partner); (cp "user_id", user);
   (cp "Cust #", cust); (cp "Salesperson", sales); (cp "activity_ids", []);
   (cp "order_line/name", line); (cp "order_line/product_uom_qty", qty);
   (cp "order_line/price_unit", price); (cp "order_line/product_id", line);
   (cp "order_line/product_template_id/name", desc);
   (cp "order_line/product_template_id", line)].

(** The value [get_val row keys] returns: the stripped value of the
    first key of [keys], in list order, that [row] maps to a string. *)
Fixpoint field_value (row : Row) (keys : list text) : text :=
  match keys with
  | [] => []
  | k :: keys' =>
      match Dict.get k row with
      | Some (Some s) => strip s
      | _ => field_value row keys'
      end
  end.

(** The value of [get_val(row, [key]) if key else '']. *)
Definition field_value_opt (row : Row) (key : option text) : text :=
  match key with
  | Some (c :: k) => field_value row [c :: k]
  | _ => []
  end.

(** The rows the loops do not skip. *)
Definition survives (row : Row) : bool := truthy (field_value row sku_keys).
Definition survivors (rows : list Row) : list Row := filter survives rows.

(** The test that opens a new order group. *)
Definition opens_group (doc_number : text) (current_doc : option text) : bool :=
  truthy doc_number && differs doc_number current_doc
  && negb (Text.eqb doc_number (cp "0")).

Module Value.

Section WithUnicode.

Variable unicode_upper : N -> list N.
Variable unicode_decimal : N -> option N.

Local Abbreviation upper := (Text.upper unicode_upper).
Local Abbreviation parse_number := (Converter.parse_number unicode_decimal).

Definition line_name (row : Row) : text :=
  cp "[" ++ field_value row sku_keys ++ cp "] " ++ field_value row desc_keys.

Definition qty_cell (row : Row) : text :=
  format_2f (parse_number (field_value row qty_keys)).

Definition price_cell (row : Row) : text :=
  format_2f (parse_number (field_value row price_keys)).

(** The directory's answer for a row: [sp_map.get(code) if code else '']
    followed by [or default]. *)
Definition salesperson_of (sp_map : Dict.dict text) (row : Row) : text :=
  let code := upper (field_value row salesperson_keys) in
  py_or (if truthy code then Dict.get code sp_map else Some [])
        default_salesperson.

(** The output row of a surviving input row without header. *)
Definition line_row (row : Row) : TemplateRow :=
  template_row [] [] [] [] [] (line_name row) (qty_cell row) (price_cell row)
               (field_value row desc_keys).

(** The output row that opens a group in the document-number branch. *)
Definition doc_header_row (sp_map : Dict.dict text) (doc_key : text)
           (customer_key cust_key : option text) (row : Row) : TemplateRow :=
  let customer_name := field_value_opt row customer_key in
  template_row
    (cp "O" ++ remove_whitespace (field_value row [doc_key]))
    (py_or (Some customer_name) default_partner)
    (salesperson_of sp_map row)
    (py_or (Some (field_value_opt row cust_key))
           (py_or (Some customer_name) default_partner))
    (salesperson_of sp_map row)
    (line_name row) (qty_cell row) (price_cell row)
    (field_value row desc_keys).

(** The output row that opens the single order of the fallback. *)
Definition single_header_row (quotation_number : text) (row : Row)
  : TemplateRow :=
  template_row quotation_number default_partner default_salesperson
               default_partner default_salesperson
               (line_name row) (qty_cell row) (price_cell row)
               (field_value row desc_keys).

(** Output of the document-number loop over the surviving rows. *)
Fixpoint doc_out (sp_map : Dict.dict text) (doc_key : text)
         (customer_key cust_key : option text)
         (rows : list Row) (current_doc : option text) : list TemplateRow :=
  match rows with
  | [] => []
  | row :: rows' =>
      let d := field_value row [doc_key] in
      if opens_group d current_doc then
        doc_header_row sp_map doc_key customer_key cust_key row
          :: doc_out sp_map doc_key customer_key cust_key rows' (Some d)
      else
        line_row row
          :: doc_out sp_map doc_key customer_key cust_key rows' current_doc
  end.

(** Output of the fallback loop over the surviving rows. *)
Definition single_out (quotation_number : text) (rows : list Row)
           (first : bool) : list TemplateRow :=
  match rows with
  | [] => []
  | row :: rows' =>
      (if first then single_header_row quotation_number row
       else line_row row) :: map line_row rows'
  end.

(** The keys [convert_rows] resolves the columns against. *)
Definition header_keys_of (rows : list Row) : list text :=
  match rows with
  | r :: _ => Dict.keys r
  | [] => []
  end.

(** The directory a call works with: the cached one, or else the one
    it loads. *)
Definition directory_of (env : Env) (cache : option (Dict.dict text))
  : Dict.dict text :=
  match fst (_get_salesperson_map unicode_upper (directory_file env) cache)
  with
  | Ok sp_map => sp_map
  | Raise _ => []
  end.

(** The call gets a directory: one is cached, or the list loads. *)
Definition directory_available (env : Env) (cache : option (Dict.dict text))
  : Prop :=
  fst (_get_salesperson_map unicode_upper (directory_file env) cache)
  = Ok (directory_of env cache).

(** The rows a call returns. *)
Definition convert_out (env : Env) (cache : option (Dict.dict text))
           (rows : list Row) : list TemplateRow :=
  let hk := header_keys_of rows in
  match first_header_key hk doc_keys with
  | Some dk =>
      doc_out (directory_of env cache) dk
              (first_header_key hk customer_keys)
              (first_header_key hk cust_keys) (survivors rows) None
  | None =>
      single_out (cp "QO" ++ strftime_mdHM (now env)) (survivors rows) true
  end.

(** A cache is either unset or holds a directory loaded earlier. *)
Definition cache_ok (cache : option (Dict.dict text)) : Prop :=
  cache = None
  \/ exists file sp_map,
      _load_salesperson_map unicode_upper file = Ok sp_map
      /\ cache = Some sp_map.

(** The header-bearing output row of a surviving row, in whichever
    branch the call takes. *)
Definition header_row_of (env : Env) (cache : option (Dict.dict text))
           (rows : list Row) (row : Row) : TemplateRow :=
  let hk := header_keys_of rows in
  match first_header_key hk doc_keys with
  | Some dk =>
      doc_header_row (directory_of env cache) dk
                     (first_header_key hk customer_keys)
                     (first_header_key hk cust_keys) row
  | None => single_header_row (cp "QO" ++ strftime_mdHM (now env)) row
  end.

(** The output row [r] carries the order-line cells of the input [row]. *)
Definition order_line_of (row : Row) (r : TemplateRow) : Prop :=
  Dict.get (cp "order_line/name") r = Some (line_name row)
  /\ Dict.get (cp "order_line/product_uom_qty") r = Some (qty_cell row)
  /\ Dict.get (cp "order_line/price_unit") r = Some (price_cell row)
  /\ Dict.get (cp "order_line/product_id") r = Some (line_name row)
  /\ Dict.get (cp "order_line/product_template_id/name") r
     = Some (field_value row desc_keys)
  /\ Dict.get (cp "order_line/product_template_id") r = Some (line_name row).

End WithUnicode.

End Value.

Import Value.

(* ================================================================== *)
(** * Observations on rows and groups *)
(* ================================================================== *)

(** The five header columns of the template. *)
Definition header_columns : list text :=
  [cp "name"; cp "partner_id"; cp "user_id"; cp "Cust #"; cp "Salesperson"].

(** The six order-line columns of the template. *)
Definition order_line_columns : list text :=
  [cp "order_line/name"; cp "order_line/product_uom_qty";
   cp "order_line/price_unit"; cp "order_line/product_id";
   cp "order_line/product_template_id/name";
   cp "order_line/product_template_id"].

(** Every header column is present and non-empty. *)
Definition has_header (r : TemplateRow) : bool :=
  forallb (fun c => match Dict.get c r with
                    | Some (_ :: _) => true
                    | _ => false
                    end) header_columns.

(** Every header column is present and is the empty string. *)
Definition blank_header (r : TemplateRow) : bool :=
  forallb (fun c => match Dict.get c r with
                    | Some [] => true
                    | _ => false
                    end) header_columns.

(** A document number that can name an order: not empty, not ["0"]. *)
Definition valid_doc (d : text) : bool :=
  truthy d && negb (Text.eqb d (cp "0")).

(** The document number of the order group that is open after the rows
    whose document numbers are [before]: the last valid one, if any. *)
Definition tracked_doc (before : list text) : option text :=
  match rev (filter valid_doc before) with
  | d :: _ => Some d
  | [] => None
  end.

(** A row with document number [d] begins an order group when [d] is
    valid and is not the number of the group already open. *)
Definition begins_group (before : list text) (d : text) : bool :=
  valid_doc d &&
  match tracked_doc before with
  | Some p => negb (Text.eqb d p)
  | None => true
  end.

(** Whether the [i]-th surviving row of [rows] begins an order group:
    by document number when a document-number column resolves, else
    only the first surviving row does. *)
Definition begins_group_at (rows : list Row) (i : nat) : bool :=
  match first_header_key (header_keys_of rows) doc_keys with
  | Some dk =>
      match nth_error (survivors rows) i with
      | Some row =>
          begins_group (map (fun r => field_value r [dk])
                            (firstn i (survivors rows)))
                       (field_value row [dk])
      | None => false
      end
  | None => Nat.eqb i 0
  end.

(** An entry of the directory has a non-empty code and a non-empty name. *)
Definition entry_ok (kv : text * text) : Prop := fst kv <> [] /\ snd kv <> [].

(** The text [detect_delimiter] reads its first line from: the UTF-8
    reading, or the Latin-1 one after a decoding error. *)
Definition decoded (f : TextFile) : text :=
  match utf8_text f with
  | Some t => t
  | None => latin1_text f
  end.

(** A character that ends a line. *)
Definition is_newline (c : N) : bool := (c =? 10)%N || (c =? 13)%N.

(** A number printed with exactly two decimal places: an optional
    minus sign, at least one digit, a point, two digits. *)
Definition is_two_decimals (t : text) : bool :=
  let t' := match t with
            | c :: r => if (c =? 45)%N then r else t
            | [] => t
            end in
  let '(ds, rest) := span_digits t' in
  match ds, rest with
  | _ :: _, [p; a; b] => (p =? 46)%N && is_digit a && is_digit b
  | _, _ => false
  end.

(** The resolver as the specification words it: the alias list is
    scanned in priority order and the first alias found among the
    header keys is taken. *)
Definition spec_resolve (aliases header_keys : list text) : option text :=
  find (fun a => Text.mem a header_keys) aliases.

(** The value a row has under the column [k]: its string, trimmed, and
    the empty string when the row has no such column or no string
    there. *)
Definition cell (row : Row) (k : text) : text :=
  match Dict.get k row with
  | Some (Some s) => strip s
  | _ => []
  end.

(** The value under a resolved column; an absent field reads empty. *)
Definition cell_opt (row : Row) (k : option text) : text :=
  match k with
  | Some k => cell row k
  | None => []
  end.

(** A field read as the specification words it: the value under the
    alias the priority-order scan finds among the keys of the row. *)
Definition spec_read (row : Row) (aliases : list text) : text :=
  cell_opt row (spec_resolve aliases (Dict.keys row)).

(** [k] resolves a field against the header keys the way the code does:
    it is the first of the keys, in their own order, that belongs to
    the alias list, and no key at all when none belongs to it. *)
Definition resolves (header_keys aliases : list text) (k : option text)
  : Prop :=
  match k with
  | Some k =>
      exists pre post,
        header_keys = pre ++ k :: post
        /\ In k aliases
        /\ forall x, In x pre -> ~ In x aliases
  | None => forall x, In x header_keys -> ~ In x aliases
  end.

(** The row maps the column [a] to a string. *)
Definition holds_string (row : Row) (a : text) : Prop :=
  exists s, Dict.get a row = Some (Some s).

(** [v] is a field read from a row the way the code does: the value
    under the first alias, in priority order, that the row maps to a
    string, and the empty string when it maps none of them to a
    string. *)
Definition reads (row : Row) (aliases : list text) (v : text) : Prop :=
  (exists pre a post,
      aliases = pre ++ a :: post
      /\ holds_string row a
      /\ (forall x, In x pre -> ~ holds_string row x)
      /\ v = cell row a)
  \/ ((forall a, In a aliases -> ~ holds_string row a) /\ v = []).

(** At most one of the aliases occurs among the keys. *)
Definition one_alias_at_most (keys aliases : list text) : Prop :=
  forall k k',
    In k keys -> In k aliases -> In k' keys -> In k' aliases -> k = k'.

(* ================================================================== *)
(** * Concrete inputs *)
(* ================================================================== *)

Module Examples.

(** A Unicode database cut down to ASCII: outside ASCII no character
    changes case and none is a decimal digit.  It serves the inputs
    below, which are ASCII throughout. *)
Definition ascii_upper : N -> list N := fun c => [c].
Definition ascii_decimal : N -> option N := fun _ => None.

(** A row from column names and cell texts. *)
Definition row_of (cells : list (string * string)) : Row :=
  map (fun kv => (cp (fst kv), Some (cp (snd kv)))) cells.

(** March 7th, 14:05, and no salesperson list on disk. *)
Definition env0 : Env :=
  {| directory_file := None;
     now := {| month := 3; day := 7; hour := 14; minute := 5 |} |}.

(** A salesperson list with one entry, written in lower case and with
    blanks around code and name. *)
Definition directory1 : DirectoryFile :=
  {| utf8_rows := [row_of [("Code", " jd "); ("Name", " John Doe ")]];
     utf8_end := Exhausted;
     latin1_rows := [];
     latin1_end := None |}.

Definition env1 : Env :=
  {| directory_file := Some directory1;
     now := {| month := 3; day := 7; hour := 14; minute := 5 |} |}.

(** A salesperson list whose second line has a cell beyond the field
    limit of the [csv] module: the reader yields the first entry and
    then raises. *)
Definition oversized_list : DirectoryFile :=
  {| utf8_rows := [row_of [("Code", "JD"); ("Name", "John Doe")]];
     utf8_end := Uncaught CsvError;
     latin1_rows := [];
     latin1_end := None |}.

Definition env_oversized : Env :=
  {| directory_file := Some oversized_list;
     now := {| month := 3; day := 7; hour := 14; minute := 5 |} |}.

(** Six product lines of the documents 1, 1, 2, 2, 0 and 3. *)
Definition six_rows : list Row :=
  map (fun d => row_of [("Doc #", d); ("SKU", "X1"); ("Qty", "1")])
      ["1"; "1"; "2"; "2"; "0"; "3"].

(** Three lines without any document-number column, the second one a
    note without SKU. *)
Definition no_doc_rows : list Row :=
  [row_of [("SKU", "X1"); ("Description", "Widget"); ("Qty", "2")];
   row_of [("SKU", ""); ("Description", "a note")];
   row_of [("SKU", "X2"); ("Description", "Gadget"); ("Qty", "1")]].

(** One order entered by the salesperson "jd". *)
Definition jd_rows : list Row :=
  [row_of [("Doc #", "1001"); ("SKU", "X1"); ("Salesperson", "jd")]].

(** One order of a file that has a customer code but no customer name. *)
Definition cust_rows : list Row :=
  [row_of [("Doc #", "1001"); ("Cust #", "C042"); ("SKU", "X1")]].

(** A file with two document-number columns, the lower-priority alias
    first. *)
Definition two_doc_rows : list Row :=
  [row_of [("Doc", "7"); ("Doc #", "9"); ("SKU", "X1")]].

End Examples.

(* ================================================================== *)
(** * CSV files: [parse_rows] and [write_template_csv]

    Both functions go through Python's [csv] module with its default
    dialect: the double quote as quote character, doubled inside a
    quoted field, no escape character,
    line terminator CR LF, minimal quoting, not strict.  The reader
    below is the parser of that module for this dialect; its states
    keep the module's names. *)
(* ================================================================== *)

Module Csv.

(** What ends a computation of this layer early. *)
Inductive failure : Type :=
| Builtin (e : exn)
| FieldLimitError
| NewlineError
| UnicodeDecodeError
| UnicodeEncodeError
| DelimiterError.

Inductive outcome (A : Type) : Type :=
| Returned (a : A)
| Failed (f : failure).

Arguments Returned {A} a.
Arguments Failed {A} f.

(** An iteration: the items it yields, and the exception that ends it
    if it does not end by exhaustion. *)
Definition stream (A : Type) : Type := (list A * option failure)%type.

(** ** Lines of a text file *)

(** Iterating over a file opened with [newline=''] yields its lines,
    each with its terminator (LF, CR or CR LF).  The reader takes the
    characters of each line and then an end-of-line mark; [events]
    gives that sequence for a whole text, [None] being the mark.
    [pending] tells that the current line already has characters. *)
Fixpoint events (pending : bool) (s : text) : list (option N) :=
  match s with
  | [] => if pending then [None] else []
  | c :: s' =>
      if (c =? 10)%N then Some c :: None :: events false s'
      else if (c =? 13)%N then
        match s' with
        | c' :: _ =>
            if (c' =? 10)%N then Some c :: events true s'
            else Some c :: None :: events false s'
        | [] => [Some c; None]
        end
      else Some c :: events true s'
  end.

(** ** The reader *)

Inductive ParserState : Type :=
| START_RECORD
| START_FIELD
| IN_FIELD
| IN_QUOTED_FIELD
| QUOTE_IN_QUOTED_FIELD
| EAT_CRNL.

Record ReaderObj : Type := {
  state : ParserState;
  field : text;
  fields : list text
}.

(** [csv.field_size_limit()] *)
Definition field_limit : N := 131072.

Definition quotechar : N := 34.

Definition parse_reset : ReaderObj :=
  {| state := START_RECORD; field := []; fields := [] |}.

Definition set_state (r : ReaderObj) (s : ParserState) : ReaderObj :=
  {| state := s; field := field r; fields := fields r |}.

Definition parse_save_field (r : ReaderObj) : ReaderObj :=
  {| state := state r; field := []; fields := fields r ++ [field r] |}.

(** Raises "field larger than field limit" on a full field. *)
Definition parse_add_char (r : ReaderObj) (c : N) : outcome ReaderObj :=
  if (field_limit <=? N.of_nat (List.length (field r)))%N
  then Failed FieldLimitError
  else Returned {| state := state r; field := field r ++ [c];
                   fields := fields r |}.

Definition is_nl (c : option N) : bool :=
  match c with
  | Some x => (x =? 10)%N || (x =? 13)%N
  | None => false
  end.

(** The case [START_FIELD] of the parser, which [START_RECORD] falls
    into on an ordinary character. *)
Definition start_field (delimiter : N) (r : ReaderObj) (c : option N)
  : outcome ReaderObj :=
  match c with
  | None => Returned (set_state (parse_save_field r) START_RECORD)
  | Some x =>
      if is_nl c then Returned (set_state (parse_save_field r) EAT_CRNL)
      else if (x =? quotechar)%N then Returned (set_state r IN_QUOTED_FIELD)
      else if (x =? delimiter)%N then Returned (parse_save_field r)
      else
        match parse_add_char r x with
        | Returned r' => Returned (set_state r' IN_FIELD)
        | Failed f => Failed f
        end
  end.

(** [parse_process_char]: one character, or the end-of-line mark.  In
    [EAT_CRNL] any character but a line break raises "new-line
    character seen in unquoted field". *)
Definition parse_process_char (delimiter : N) (r : ReaderObj) (c : option N)
  : outcome ReaderObj :=
  match state r with
  | START_RECORD =>
      match c with
      | None => Returned r
      | Some _ =>
          if is_nl c then Returned (set_state r EAT_CRNL)
          else start_field delimiter (set_state r START_FIELD) c
      end
  | START_FIELD => start_field delimiter r c
  | IN_FIELD =>
      match c with
      | None => Returned (set_state (parse_save_field r) START_RECORD)
      | Some x =>
          if is_nl c then Returned (set_state (parse_save_field r) EAT_CRNL)
          else if (x =? delimiter)%N
               then Returned (set_state (parse_save_field r) START_FIELD)
               else parse_add_char r x
      end
  | IN_QUOTED_FIELD =>
      match c with
      | None => Returned r
      | Some x =>
          if (x =? quotechar)%N
          then Returned (set_state r QUOTE_IN_QUOTED_FIELD)
          else parse_add_char r x
      end
  | QUOTE_IN_QUOTED_FIELD =>
      match c with
      | None => Returned (set_state (parse_save_field r) START_RECORD)
      | Some x =>
          if (x =? quotechar)%N then
            match parse_add_char r x with
            | Returned r' => Returned (set_state r' IN_QUOTED_FIELD)
            | Failed f => Failed f
            end
          else if (x =? delimiter)%N
               then Returned (set_state (parse_save_field r) START_FIELD)
               else if is_nl c
                    then Returned (set_state (parse_save_field r) EAT_CRNL)
                    else
                      match parse_add_char r x with
                      | Returned r' => Returned (set_state r' IN_FIELD)
                      | Failed f => Failed f
                      end
      end
  | EAT_CRNL =>
      match c with
      | None => Returned (set_state r START_RECORD)
      | Some _ => if is_nl c then Returned r else Failed NewlineError
      end
  end.

(** The test [field_len != 0 || state == IN_QUOTED_FIELD] the reader
    makes when its lines run out. *)
Definition unfinished (r : ReaderObj) : bool :=
  match field r, state r with
  | _ :: _, _ => true
  | [], IN_QUOTED_FIELD => true
  | [], _ => false
  end.

(** The records the reader yields from a sequence of characters and
    end-of-line marks.  A record is complete when an end-of-line mark
    leaves the parser in [START_RECORD].  When the lines run out,
    [ending] tells how: by exhaustion ([None]; an unfinished record is
    then yielded as it stands) or with an exception of the file
    iterator. *)
Fixpoint read_records (delimiter : N) (ending : option failure)
         (r : ReaderObj) (evs : list (option N)) : stream (list text) :=
  match evs with
  | [] =>
      match ending with
      | Some f => ([], Some f)
      | None =>
          if unfinished r then ([fields (parse_save_field r)], None)
          else ([], None)
      end
  | c :: evs' =>
      match parse_process_char delimiter r c with
      | Failed f => ([], Some f)
      | Returned r' =>
          match c, state r' with
          | None, START_RECORD =>
              let '(rows, e) :=
                read_records delimiter ending parse_reset evs' in
              (fields r' :: rows, e)
          | _, _ => read_records delimiter ending r' evs'
          end
      end
  end.

(** An iteration that ends as its lines do or on an over-long field,
    and as its lines do whenever [bounded] holds. *)
Definition ends_well (ending : option failure) (bounded : Prop)
           (o : option failure) : Prop :=
  (o = ending \/ o = Some FieldLimitError) /\ (bounded -> o = ending).

(** [csv.reader(f, delimiter=d)] iterated to its end over a text. *)
Definition reader (delimiter : N) (ending : option failure) (s : text)
  : stream (list text) :=
  read_records delimiter ending parse_reset (events false s).

(** ** [csv.DictReader] *)

(** A row of [DictReader]: the cells under the field names, and the
    list the reader stores under the key [None] when the line has more
    fields than the header.  [convert_rows] looks rows up by column
    names only, so it works on [cells]. *)
Record ParsedRow : Type := {
  cells : Row;
  overflow : option (list text)
}.

(** [dict(zip(fieldnames, row))], completed as [DictReader.__next__]
    does: surplus fields go under [None], missing ones are [None]. *)
Definition to_dict (fieldnames row : list text) : ParsedRow :=
  let d := Dict.update [] (combine fieldnames (map Some row)) in
  let lf := List.length fieldnames in
  let lr := List.length row in
  if Nat.ltb lf lr then {| cells := d; overflow := Some (skipn lf row) |}
  else {| cells := fold_left (fun acc key => Dict.set key None acc)
                             (skipn lr fieldnames) d;
          overflow := None |}.

(** The keys of [dict(zip(fieldnames, row))] when the row is long
    enough: the field names, each at its first occurrence. *)
Definition distinct (names : list text) : list text :=
  fold_left (fun acc k => if Text.mem k acc then acc else acc ++ [k])
            names [].

(** The keys of the [dict] that a row of [DictReader] is: the names
    of its cells and, after them, the key [None] when the row has
    surplus cells. *)
Definition row_keys (r : ParsedRow) : list (option text) :=
  map Some (Dict.keys (cells r))
    ++ match overflow r with
       | Some _ => [None]
       | None => []
       end.

Definition is_blank (row : list text) : bool :=
  match row with [] => true | _ :: _ => false end.

(** The first record gives the field names; blank records after it are
    skipped. *)
Definition dict_reader (records : stream (list text)) : stream ParsedRow :=
  match fst records with
  | [] => ([], snd records)
  | fieldnames :: rest =>
      (map (to_dict fieldnames) (filter (fun r => negb (is_blank r)) rest),
       snd records)
  end.

(** ** [parse_rows] *)

(** An input file as [parse_rows] meets it: what [detect_delimiter]
    reads; the text of the lines the UTF-8 iteration delivers, and
    whether that iteration ends by exhaustion or with a decoding error;
    and the whole file read as Latin-1. *)
Record CsvFile : Type := {
  first_read : TextFile;
  utf8_lines : text;
  utf8_exhausted : bool;
  latin1_lines : text
}.

(** A text that ends where a line ends, whatever [rest] follows it:
    what a line-by-line reading has delivered when it stops between
    two lines. *)
Definition whole_lines (s rest : text) : Prop :=
  s = []
  \/ (exists a, s = a ++ [10%N])
  \/ (exists a, s = a ++ [13%N] /\ hd_error rest <> Some 10%N).

(** [file] is [None] when the path cannot be opened.  The list [rows]
    is created once: what the UTF-8 pass appended before a decoding
    error stays in it when the Latin-1 pass appends in its turn. *)
Definition parse_rows (file : option CsvFile) : outcome (list ParsedRow) :=
  match file with
  | None => Failed (Builtin FileNotFoundError)
  | Some f =>
      match detect_delimiter (Some (first_read f)) with
      | Raise e => Failed (Builtin e)
      | Ok [delim] =>
          let '(rows, e) :=
            dict_reader
              (reader delim
                      (if utf8_exhausted f then None
                       else Some UnicodeDecodeError)
                      (utf8_lines f)) in
          match e with
          | None => Returned rows
          | Some UnicodeDecodeError =>
              let '(rows', e') :=
                dict_reader (reader delim None (latin1_lines f)) in
              match e' with
              | None => Returned (rows ++ rows')
              | Some x => Failed x
              end
          | Some x => Failed x
          end
      | Ok _ => Failed DelimiterError
      end
  end.

(** ** The writer *)

(** A field is quoted when it holds the delimiter, the quote character
    or a character of the line terminator. *)
Definition needs_quotes (delimiter : N) (f : text) : bool :=
  existsb (fun c => (c =? delimiter)%N || (c =? quotechar)%N
                    || (c =? 13)%N || (c =? 10)%N) f.

(** Inside quotes the quote character is doubled. *)
Definition escape_quote (c : N) : text :=
  if (c =? quotechar)%N then [c; c] else [c].

Definition quoted (f : text) : text :=
  quotechar :: flat_map escape_quote f ++ [quotechar].

Definition write_field (delimiter : N) (f : text) : text :=
  if needs_quotes delimiter f then quoted f else f.

Fixpoint join (delimiter : N) (fs : list text) : text :=
  match fs with
  | [] => []
  | f :: fs' =>
      match fs' with
      | [] => f
      | _ :: _ => f ++ delimiter :: join delimiter fs'
      end
  end.

(** [writer.writerow(row)]: the text appended to the file.  A record of
    one empty field is written as two quote characters. *)
Definition writerow (delimiter : N) (row : list text) : text :=
  match row with
  | [[]] => [quotechar; quotechar]
  | _ => join delimiter (map (write_field delimiter) row)
  end ++ [13; 10]%N.

(** A field the reader accepts: not longer than the field limit. *)
Definition fits (f : text) : Prop :=
  (N.of_nat (List.length f) <= field_limit)%N.

(** ** [csv.DictWriter] *)

(** [DictWriter._dict_to_list]: a key outside the field names raises
    [ValueError]; a field name the row lacks gives the empty string. *)
Definition dict_to_list (fieldnames : list text) (rowdict : TemplateRow)
  : outcome (list text) :=
  if existsb (fun k => negb (Text.mem k fieldnames)) (Dict.keys rowdict)
  then Failed (Builtin ValueError)
  else Returned (map (fun k => match Dict.get k rowdict with
                               | Some v => v
                               | None => []
                               end) fieldnames).

(** The file is opened with [encoding='utf-8']: a text with a
    surrogate code point cannot be written. *)
Definition is_surrogate (c : N) : bool :=
  (55296 <=? c)%N && (c <=? 57343)%N.

Definition encodable (t : text) : bool :=
  forallb (fun c => negb (is_surrogate c)) t.

(** [DictWriter.writerows]: rows are written one by one, so what
    precedes a failing row is in the file already.  Each line is
    encoded as it is written. *)
Fixpoint writerows (fieldnames : list text) (rows : list TemplateRow)
  : text * option failure :=
  match rows with
  | [] => ([], None)
  | row :: rows' =>
      match dict_to_list fieldnames row with
      | Failed f => ([], Some f)
      | Returned l =>
          if encodable (writerow 44 l) then
            let '(t, e) := writerows fieldnames rows' in
            (writerow 44 l ++ t, e)
          else ([], Some UnicodeEncodeError)
      end
  end.

(** [write_template_csv(rows, output_path)]: the text the output file
    holds afterwards, and the exception raised, if any. *)
Definition write_template_csv (rows : list TemplateRow)
  : text * option failure :=
  let '(t, e) := writerows TEMPLATE_HEADERS rows in
  (writerow 44 TEMPLATE_HEADERS ++ t, e).

(** The input row a template row reads back as: the same cells, each
    one present. *)
Definition as_parsed (r : TemplateRow) : ParsedRow :=
  {| cells := map (fun kv => (fst kv, Some (snd kv))) r; overflow := None |}.

(** A file holding the text [t], which has been encoded as UTF-8, as a
    later reader meets it; [latin1] is the same file read as Latin-1. *)
Definition written_file (t latin1 : text) : CsvFile :=
  {| first_read := {| utf8_text := Some t; latin1_text := latin1 |};
     utf8_lines := t;
     utf8_exhausted := true;
     latin1_lines := latin1 |}.

End Csv.

(** ** The command line: [process_one] *)

Module Cli.

Import Csv.

Section WithUnicode.

Variable unicode_upper : N -> list N.
Variable unicode_decimal : N -> option N.

(** [process_one(path)] without its path arithmetic: the rows are
    parsed, converted and written.  The result is the text of the
    output file ([None] when the file was not opened), the exception
    that ended the call, if any, and the salesperson cache. *)
Definition process_one (env : Env) (cache : option (Dict.dict text))
           (file : option CsvFile)
  : option text * option failure * option (Dict.dict text) :=
  match parse_rows file with
  | Failed f => (None, Some f, cache)
  | Returned rows =>
      match convert_rows unicode_upper unicode_decimal env cache
                         (map cells rows) with
      | (Raise e, cache') => (None, Some (Builtin e), cache')
      | (Ok out_rows, cache') =>
          let '(t, e) := write_template_csv out_rows in
          (Some t, e, cache')
      end
  end.

(** ** The command line: [main] *)

(** [str.lower], a function of the whole string (the lower case of a
    capital sigma depends on what surrounds it). *)
Variable str_lower : text -> text.

(** [s.endswith(suffix)] *)
Definition endswith (s suffix : text) : bool :=
  Nat.leb (List.length suffix) (List.length s)
  && Text.eqb (skipn (List.length s - List.length suffix) s) suffix.

(** A name [os.listdir] gives, with the world as it is when the loop
    reaches it: the clock and the salesperson list, and the file of
    that name ([None] when it cannot be opened). *)
Record DirEntry : Type := {
  entry_name : text;
  entry_env : Env;
  entry_file : option CsvFile
}.

Definition is_csv_name (e : DirEntry) : bool :=
  endswith (str_lower (entry_name e)) (cp ".csv").

(** Two entries that differ at most in the salesperson list that is on
    disk when the loop reaches them. *)
Definition same_but_list (e e' : DirEntry) : Prop :=
  entry_name e = entry_name e'
  /\ now (entry_env e) = now (entry_env e')
  /\ entry_file e = entry_file e'.

(** The loop of [main] over a folder.  Nothing catches an exception of
    [process_one]: it ends the loop and the program.  The result lists
    the output files written, in order. *)
Fixpoint process_each (cache : option (Dict.dict text))
         (entries : list DirEntry)
  : list text * option failure * option (Dict.dict text) :=
  match entries with
  | [] => ([], None, cache)
  | e :: rest =>
      if is_csv_name e then
        let '(out, err, cache') :=
          process_one (entry_env e) cache (entry_file e) in
        let written := match out with Some t => [t] | None => [] end in
        match err with
        | Some f => (written, Some f, cache')
        | None =>
            let '(outs, err', cache'') := process_each cache' rest in
            (written ++ outs, err', cache'')
        end
      else process_each cache rest
  end.

(** What [main] is given: a folder, or the path of one file. *)
Inductive Input : Type :=
| Folder (entries : list DirEntry)
| OneFile (env : Env) (file : option CsvFile).

(** [main()], from a process that has not loaded the salesperson list
    yet. *)
Definition main (input : Input)
  : list text * option failure * option (Dict.dict text) :=
  match input with
  | Folder entries => process_each None entries
  | OneFile env file =>
      let '(out, err, cache') := process_one env None file in
      (match out with Some t => [t] | None => [] end, err, cache')
  end.

End WithUnicode.

End Cli.

(** ** Reading the salesperson list *)

Module Directory.

Section WithUnicode.

Variable unicode_upper : N -> list N.

(** The rows [_load_salesperson_map] stores, in order: those of the
    UTF-8 pass, then, after a decoding error, those of the Latin-1
    pass. *)
Definition rows_read (f : DirectoryFile) : list Row :=
  utf8_rows f
    ++ match utf8_end f with
       | DecodeError => latin1_rows f
       | _ => []
       end.

(** The name a row of the list gives to the code [k], if the row is
    about [k] at all. *)
Definition entry_for (k : text) (row : Row) : option text :=
  Dict.get k (load_row unicode_upper [] row).

Definition is_entry_for (k : text) (row : Row) : bool :=
  match entry_for k row with Some _ => true | None => false end.

End WithUnicode.

End Directory.

(** ** More inputs *)

Module MoreExamples.

Import Csv. Import Examples.

Definition crlf : text := [13%N; 10%N].

(** An order of two lines; customer, description and price hold a
    comma. *)
Definition comma_rows : list Row :=
  [row_of [("Doc #", "7"); ("Customer", "Acme, Inc."); ("SKU", "X1");
           ("Description", "Widget, large"); ("Qty", "2");
           ("Price", "1,250")];
   row_of [("Doc #", "7"); ("Customer", "Acme, Inc."); ("SKU", "X2");
           ("Qty", "1")]].

(** Its conversion. *)
Definition comma_out : list TemplateRow :=
  Value.convert_out ascii_upper ascii_decimal env0 None comma_rows.

(** The file [write_template_csv] makes of it. *)
Definition comma_text : text := fst (write_template_csv comma_out).

(** A file with a line one cell short and a line one cell long. *)
Definition ragged_text : text :=
  cp "SKU,Qty" ++ crlf ++ cp "X1" ++ crlf ++ cp "X2,1,extra" ++ crlf.

Definition ragged_file : CsvFile := written_file ragged_text ragged_text.

Definition ragged_rows : list ParsedRow :=
  [{| cells := [(cp "SKU", Some (cp "X1")); (cp "Qty", None)];
      overflow := None |};
   {| cells := [(cp "SKU", Some (cp "X2")); (cp "Qty", Some (cp "1"))];
      overflow := Some [cp "extra"] |}].

(** A file of a header, 1200 lines "X1,tea" and a last line whose
    cell "caf\xe9" is Latin-1: the byte 0xE9 followed by CR is no UTF-8.
    The first 8192 bytes of the file hold the header and 1021 whole
    lines; the UTF-8 reading delivers these and meets the decoding
    error when it reads on.  Read as Latin-1 the file has 179 lines
    "X1,tea" and the last line after them. *)
Definition tea_record : list text := [cp "X1"; cp "tea"].

Definition interrupted_head : text :=
  flat_map (writerow 44)
           ([cp "SKU"; cp "Description"] :: repeat tea_record 1021).

Definition interrupted_rest : text :=
  flat_map (writerow 44) (repeat tea_record 179)
    ++ cp "X2,caf" ++ [233%N] ++ crlf.

Definition interrupted_file : CsvFile :=
  {| first_read := {| utf8_text := Some interrupted_head;
                      latin1_text := interrupted_head ++ interrupted_rest |};
     utf8_lines := interrupted_head;
     utf8_exhausted := false;
     latin1_lines := interrupted_head ++ interrupted_rest |}.

Definition tea_row : ParsedRow :=
  {| cells := [(cp "SKU", Some (cp "X1"));
               (cp "Description", Some (cp "tea"))];
     overflow := None |}.

Definition cafe_row : ParsedRow :=
  {| cells := [(cp "SKU", Some (cp "X2"));
               (cp "Description", Some (cp "caf" ++ [233%N]))];
     overflow := None |}.

Definition parsed_of (cells : list (string * string)) : ParsedRow :=
  {| cells := row_of cells; overflow := None |}.

(** Nine months later, with the one-entry salesperson list on disk. *)
Definition env_later : Env :=
  {| directory_file := Some directory1;
     now := {| month := 12; day := 24; hour := 9; minute := 30 |} |}.

(** A salesperson list that names the code "JD" twice.  Its UTF-8
    reading yields the first entry and meets a byte sequence that is
    no UTF-8; the Latin-1 reading yields both entries. *)
Definition relisted : DirectoryFile :=
  {| utf8_rows := [row_of [("Code", " jd "); ("Name", "John Doe")]];
     utf8_end := DecodeError;
     latin1_rows := [row_of [("Code", " jd "); ("Name", "John Doe")];
                     row_of [("Code", "JD"); ("Name", " Jane Roe ")]];
     latin1_end := None |}.

(** One document, "SO 7", of two product lines and a note. *)
Definition one_doc_rows : list Row :=
  [row_of [("Doc #", "SO 7"); ("SKU", "X1"); ("Qty", "2")];
   row_of [("Doc #", "SO 7"); ("SKU", ""); ("Description", "a note")];
   row_of [("Doc #", "SO 7"); ("SKU", "X2"); ("Qty", "1")]].

(** A template row whose order name is a lone high surrogate, as a
    caller might hand it over. *)
Definition surrogate_row : TemplateRow :=
  template_row [55357%N] (cp "Default User") [] [] [] (cp "[X9] ")
               (cp "1.00") (cp "0.00") [].

(** [str.lower] on ASCII text. *)
Definition ascii_lower (s : text) : text :=
  map (fun c => if (65 <=? c)%N && (c <=? 90)%N then (c + 32)%N else c) s.

(** The entries of a folder. *)
Definition orders_entry : Cli.DirEntry :=
  {| Cli.entry_name := cp "ORDERS.CSV"; Cli.entry_env := env0;
     Cli.entry_file := Some ragged_file |}.

Definition notes_entry : Cli.DirEntry :=
  {| Cli.entry_name := cp "notes.txt"; Cli.entry_env := env0;
     Cli.entry_file := Some ragged_file |}.

Definition gone_entry : Cli.DirEntry :=
  {| Cli.entry_name := cp "gone.csv"; Cli.entry_env := env0;
     Cli.entry_file := None |}.

Definition later_entry : Cli.DirEntry :=
  {| Cli.entry_name := cp "later.csv"; Cli.entry_env := env0;
     Cli.entry_file := Some ragged_file |}.

(** A file with one line of the document 7, sold by "jd", in a folder
    under two names.  When the loop reaches the second name, the
    salesperson list is as before, or has become unreadable. *)
Definition signed_text : text :=
  cp "Doc #,SKU,Salesperson" ++ crlf ++ cp "7,X1,jd" ++ crlf.

Definition signed_file : CsvFile := written_file signed_text signed_text.

Definition signed_entry : Cli.DirEntry :=
  {| Cli.entry_name := cp "a.csv"; Cli.entry_env := env1;
     Cli.entry_file := Some signed_file |}.

Definition signed_again_entry : Cli.DirEntry :=
  {| Cli.entry_name := cp "b.csv"; Cli.entry_env := env1;
     Cli.entry_file := Some signed_file |}.

Definition signed_unreadable_entry : Cli.DirEntry :=
  {| Cli.entry_name := cp "b.csv"; Cli.entry_env := env_oversized;
     Cli.entry_file := Some signed_file |}.

(** The output file for [signed_file] with "John Doe" in the
    directory. *)
Definition signed_converted : text :=
  flat_map (writerow 44)
    [TEMPLATE_HEADERS;
     [cp "O7"; cp "Default User"; cp "John Doe"; cp "Default User";
      cp "John Doe"; []; cp "[X1] "; cp "0.00"; cp "0.00"; cp "[X1] "; [];
      cp "[X1] "]].

(** The output file for [ragged_file]. *)
Definition ragged_converted : text :=
  flat_map (writerow 44)
    [TEMPLATE_HEADERS;
     [cp "QO03071405"; cp "Default User"; cp "Jabes Omar De La Cruz";
      cp "Default User"; cp "Jabes Omar De La Cruz"; []; cp "[X1] ";
      cp "0.00"; cp "0.00"; cp "[X1] "; []; cp "[X1] "];
     [[]; []; []; []; []; []; cp "[X2] "; cp "1.00"; cp "0.00";
      cp "[X2] "; []; cp "[X2] "]].

End MoreExamples.


(* ================================================================== *)
(** * Basic facts *)
(* ================================================================== *)

Lemma text_eqb_eq (a b : text) : Text.eqb a b = true <-> a = b.
Proof.
  revert b; induction a as [|x a IH]; intros [|y b]; simpl;
    try (split; [discriminate | discriminate]); try tauto.
  rewrite andb_true_iff, N.eqb_eq, IH.
  split; [intros [-> ->]; reflexivity | intros H; inversion H; auto].
Qed.

Lemma text_eqb_refl (a : text) : Text.eqb a a = true.
Proof. apply text_eqb_eq; reflexivity. Qed.

Lemma text_eqb_neq (a b : text) : Text.eqb a b = false <-> a <> b.
Proof.
  rewrite <- text_eqb_eq. destruct (Text.eqb a b); split; congruence.
Qed.

Lemma text_mem_In (x : text) (l : list text) : Text.mem x l = true <-> In x l.
Proof.
  unfold Text.mem. rewrite existsb_exists. split.
  - intros [y [Hy He]]. apply text_eqb_eq in He. subst; assumption.
  - intros H. exists x. split; [assumption | apply text_eqb_refl].
Qed.

Lemma truthy_true (s : text) : truthy s = true <-> s <> [].
Proof. destruct s; simpl; split; congruence. Qed.

Lemma py_or_nonempty (v : option text) (d : text) : d <> [] -> py_or v d <> [].
Proof. destruct v as [[|c s]|]; simpl; congruence. Qed.

Lemma py_or_some (s d : text) : s <> [] -> py_or (Some s) d = s.
Proof. destruct s; simpl; congruence. Qed.

(** [get_val] never raises: the membership test guards the index. *)
Lemma get_val_value (row : Row) (keys : list text) :
  get_val row keys = Ok (field_value row keys).
Proof.
  induction keys as [|k keys IH]; simpl; [reflexivity|].
  unfold Dict.contains, Dict.getitem.
  destruct (Dict.get k row) as [[s|]|]; simpl; auto.
Qed.

Lemma get_val_opt_value (row : Row) (key : option text) :
  get_val_opt row key = Ok (field_value_opt row key).
Proof.
  destruct key as [[|c k]|]; try reflexivity.
  exact (get_val_value row [c :: k]).
Qed.

(* ================================================================== *)
(** * The loops and their values *)
(* ================================================================== *)

Section Properties.

Variable unicode_upper : N -> list N.
Variable unicode_decimal : N -> option N.

Local Abbreviation doc_loop :=
  (Converter.doc_loop unicode_upper unicode_decimal).
Local Abbreviation doc_out := (Value.doc_out unicode_upper unicode_decimal).
Local Abbreviation single_loop := (Converter.single_loop unicode_decimal).
Local Abbreviation single_out := (Value.single_out unicode_decimal).
Local Abbreviation convert_rows :=
  (Converter.convert_rows unicode_upper unicode_decimal).
Local Abbreviation convert_out :=
  (Value.convert_out unicode_upper unicode_decimal).
Local Abbreviation directory_of := (Value.directory_of unicode_upper).
Local Abbreviation header_row_of :=
  (Value.header_row_of unicode_upper unicode_decimal).
Local Abbreviation cache_ok := (Value.cache_ok unicode_upper).
Local Abbreviation directory_available :=
  (Value.directory_available unicode_upper).

Lemma survivors_cons (row : Row) (rows : list Row) :
  survivors (row :: rows)
  = if survives row then row :: survivors rows else survivors rows.
Proof. reflexivity. Qed.

Lemma doc_loop_value sp_map doc_key customer_key cust_key rows :
  forall current_doc template_rows,
    doc_loop sp_map doc_key customer_key cust_key rows current_doc
             template_rows
    = Ok (template_rows
            ++ doc_out sp_map doc_key customer_key cust_key
                       (survivors rows) current_doc).
Proof.
  induction rows as [|row rows IH]; intros current_doc template_rows.
  - simpl. rewrite app_nil_r. reflexivity.
  - cbn [Converter.doc_loop]. rewrite survivors_cons. unfold survives.
    rewrite !get_val_value, !get_val_opt_value. cbn [bind].
    destruct (truthy (field_value row sku_keys)); cbn [negb].
    + rewrite IH. cbn [Value.doc_out].
      fold (opens_group (field_value row [doc_key]) current_doc).
      destruct (opens_group (field_value row [doc_key]) current_doc);
        rewrite <- app_assoc; reflexivity.
    + apply IH.
Qed.

Lemma single_out_false quotation_number rows :
  single_out quotation_number rows false = map (line_row unicode_decimal) rows.
Proof. destruct rows; reflexivity. Qed.

Lemma single_loop_value quotation_number rows :
  forall first template_rows,
    single_loop quotation_number rows first template_rows
    = Ok (template_rows ++ single_out quotation_number (survivors rows) first).
Proof.
  induction rows as [|row rows IH]; intros first template_rows.
  - simpl. rewrite app_nil_r. reflexivity.
  - cbn [Converter.single_loop]. rewrite survivors_cons. unfold survives.
    rewrite !get_val_value. cbn [bind].
    destruct (truthy (field_value row sku_keys)); cbn [negb].
    + rewrite IH, single_out_false. cbn [Value.single_out].
      destruct first; rewrite <- app_assoc; reflexivity.
    + apply IH.
Qed.

Lemma first_header_key_In header_keys aliases k :
  first_header_key header_keys aliases = Some k ->
  In k header_keys /\ In k aliases.
Proof.
  unfold first_header_key. intros H. apply find_some in H.
  rewrite text_mem_In in H. exact H.
Qed.

Lemma doc_keys_nonempty k : In k doc_keys -> k <> [].
Proof.
  unfold doc_keys. simpl. intros H.
  repeat (destruct H as [H|H]; [subst k; discriminate|]). contradiction.
Qed.

(** A cached directory is available, whatever is on disk. *)
Lemma cached_directory_available env sp_map :
  directory_available env (Some sp_map).
Proof. reflexivity. Qed.

(** Without cache, the directory is available when the list loads. *)
Lemma loaded_directory_available env sp_map :
  _load_salesperson_map unicode_upper (directory_file env) = Ok sp_map ->
  directory_available env None /\ directory_of env None = sp_map.
Proof.
  unfold Value.directory_available, Value.directory_of, _get_salesperson_map.
  intros ->. split; reflexivity.
Qed.

Lemma absent_directory_available (t : DateTime) cache :
  directory_available {| directory_file := None; now := t |} cache.
Proof. destruct cache; reflexivity. Qed.

(** What [_get_salesperson_map] returns when a directory is
    available. *)
Lemma get_salesperson_map_available env cache :
  directory_available env cache ->
  _get_salesperson_map unicode_upper (directory_file env) cache
  = (Ok (directory_of env cache), Some (directory_of env cache)).
Proof.
  unfold Value.directory_available, Value.directory_of, _get_salesperson_map.
  destruct cache as [m|]; [reflexivity|].
  destruct (_load_salesperson_map unicode_upper (directory_file env));
    cbn [fst]; [reflexivity | discriminate].
Qed.

(** And when the load raises. *)
Lemma get_salesperson_map_raises env cache e :
  fst (_get_salesperson_map unicode_upper (directory_file env) cache)
  = Raise e ->
  cache = None
  /\ _load_salesperson_map unicode_upper (directory_file env) = Raise e
  /\ _get_salesperson_map unicode_upper (directory_file env) cache
     = (Raise e, None).
Proof.
  unfold _get_salesperson_map. destruct cache as [m|]; [discriminate|].
  destruct (_load_salesperson_map unicode_upper (directory_file env));
    cbn [fst]; [discriminate|].
  intros H. injection H as ->. repeat split.
Qed.

Lemma convert_rows_value env cache rows :
  directory_available env cache ->
  fst (convert_rows env cache rows) = Ok (convert_out env cache rows).
Proof.
  intros Hav.
  unfold Converter.convert_rows, Value.convert_out.
  replace (match rows with
           | [] => Ok []
           | _ :: _ => r <- index0 rows;; Ok (Dict.keys r)
           end) with (Ok (header_keys_of rows)) by (destruct rows; reflexivity).
  rewrite (get_salesperson_map_available Hav).
  cbn [fst].
  destruct (first_header_key (header_keys_of rows) doc_keys) as [k|] eqn:Hk.
  - apply first_header_key_In in Hk. destruct Hk as [_ Hk].
    apply doc_keys_nonempty in Hk. destruct k as [|c k]; [congruence|].
    rewrite doc_loop_value. reflexivity.
  - rewrite single_loop_value. reflexivity.
Qed.

(** A call that gets a directory returns, and leaves it cached. *)
Lemma convert_rows_pair env cache rows :
  directory_available env cache ->
  convert_rows env cache rows
  = (Ok (convert_out env cache rows), Some (directory_of env cache)).
Proof.
  intros Hav.
  rewrite (surjective_pairing (convert_rows env cache rows)).
  rewrite (convert_rows_value rows Hav). f_equal.
  unfold Converter.convert_rows.
  rewrite (get_salesperson_map_available Hav).
  destruct rows; reflexivity.
Qed.

(** A call whose load raises does so before it converts a row, and
    leaves the cache unset. *)
Lemma convert_rows_raises env rows e :
  _load_salesperson_map unicode_upper (directory_file env) = Raise e ->
  convert_rows env None rows = (Raise e, None).
Proof.
  intros H. unfold Converter.convert_rows, _get_salesperson_map.
  rewrite H. destruct rows; reflexivity.
Qed.

(** Either a call gets a directory, or nothing is cached and the load
    raises. *)
Lemma directory_available_or_not env cache :
  directory_available env cache
  \/ exists e,
      cache = None
      /\ _load_salesperson_map unicode_upper (directory_file env) = Raise e.
Proof.
  destruct cache as [m|]; [left; reflexivity|].
  destruct (_load_salesperson_map unicode_upper (directory_file env))
    as [m|e] eqn:E.
  - left. exact (proj1 (loaded_directory_available env E)).
  - right. exists e. split; reflexivity.
Qed.

(** ** Cells of an output row *)

Lemma has_header_template_row n p u c s l q pr d :
  has_header (template_row n p u c s l q pr d)
  = truthy n && truthy p && truthy u && truthy c && truthy s.
Proof. destruct n, p, u, c, s; reflexivity. Qed.

Lemma blank_header_template_row n p u c s l q pr d :
  blank_header (template_row n p u c s l q pr d)
  = negb (truthy n) && negb (truthy p) && negb (truthy u)
    && negb (truthy c) && negb (truthy s).
Proof. destruct n, p, u, c, s; reflexivity. Qed.

Lemma keys_template_row n p u c s l q pr d :
  Dict.keys (template_row n p u c s l q pr d) = TEMPLATE_HEADERS.
Proof. reflexivity. Qed.

Lemma line_row_blank row :
  blank_header (line_row unicode_decimal row) = true
  /\ has_header (line_row unicode_decimal row) = false.
Proof. split; reflexivity. Qed.

Lemma salesperson_of_nonempty sp_map row :
  salesperson_of unicode_upper sp_map row <> [].
Proof. apply py_or_nonempty. discriminate. Qed.

Lemma doc_header_row_has_header sp_map dk ck cuk row :
  has_header (doc_header_row unicode_upper unicode_decimal sp_map dk ck cuk row)
  = true
  /\ blank_header
       (doc_header_row unicode_upper unicode_decimal sp_map dk ck cuk row)
     = false.
Proof.
  unfold doc_header_row.
  rewrite has_header_template_row, blank_header_template_row.
  assert (Hs := salesperson_of_nonempty sp_map row).
  assert (Hp : py_or (Some (field_value_opt row ck)) default_partner <> [])
    by (apply py_or_nonempty; discriminate).
  assert (Hc : py_or (Some (field_value_opt row cuk))
                     (py_or (Some (field_value_opt row ck)) default_partner)
               <> []) by (apply py_or_nonempty; exact Hp).
  apply truthy_true in Hs, Hp, Hc. rewrite Hs, Hp, Hc. split; reflexivity.
Qed.

Lemma single_header_row_has_header qn row :
  qn <> [] ->
  has_header (single_header_row unicode_decimal qn row) = true
  /\ blank_header (single_header_row unicode_decimal qn row) = false.
Proof.
  intros H. unfold single_header_row.
  rewrite has_header_template_row, blank_header_template_row.
  apply truthy_true in H. rewrite H. split; reflexivity.
Qed.

(** ** The tracked document number *)

Lemma tracked_doc_snoc pre d :
  tracked_doc (pre ++ [d]) = if valid_doc d then Some d else tracked_doc pre.
Proof.
  unfold tracked_doc. rewrite filter_app, rev_app_distr. simpl.
  destruct (valid_doc d); reflexivity.
Qed.

Lemma opens_group_begins pre d :
  opens_group d (tracked_doc pre) = begins_group pre d.
Proof.
  unfold opens_group, begins_group, valid_doc, differs.
  destruct (tracked_doc pre) as [p|];
    destruct (truthy d), (Text.eqb d (cp "0")); simpl;
    try destruct (Text.eqb d p); reflexivity.
Qed.

Lemma tracked_doc_step pre d :
  (if opens_group d (tracked_doc pre) then Some d else tracked_doc pre)
  = tracked_doc (pre ++ [d]).
Proof.
  rewrite tracked_doc_snoc, opens_group_begins.
  unfold begins_group. destruct (valid_doc d); simpl; [|reflexivity].
  destruct (tracked_doc pre) as [p|]; [|reflexivity].
  destruct (Text.eqb d p) eqn:E; simpl; [|reflexivity].
  apply text_eqb_eq in E. subst. reflexivity.
Qed.

(** The [i]-th output row of the document-number loop, read off the
    [i]-th surviving row and the document numbers before it. *)
Lemma doc_out_nth sp_map dk ck cuk rows :
  forall pre i,
    nth_error (doc_out sp_map dk ck cuk rows (tracked_doc pre)) i
    = match nth_error rows i with
      | Some row =>
          Some (if begins_group
                     (pre ++ map (fun r => field_value r [dk]) (firstn i rows))
                     (field_value row [dk])
                then doc_header_row unicode_upper unicode_decimal
                                    sp_map dk ck cuk row
                else line_row unicode_decimal row)
      | None => None
      end.
Proof.
  induction rows as [|row rows IH]; intros pre i.
  - destruct i; reflexivity.
  - cbn [Value.doc_out].
    destruct i as [|i].
    + cbn [nth_error firstn map]. rewrite app_nil_r, opens_group_begins.
      destruct (begins_group pre (field_value row [dk])); reflexivity.
    + assert (Hstep := tracked_doc_step pre (field_value row [dk])).
      destruct (opens_group (field_value row [dk]) (tracked_doc pre));
        cbn [nth_error firstn map]; rewrite Hstep, IH, <- app_assoc;
        reflexivity.
Qed.

Lemma doc_out_length sp_map dk ck cuk rows :
  forall cur,
    List.length (doc_out sp_map dk ck cuk rows cur) = List.length rows.
Proof.
  induction rows as [|row rows IH]; intros cur; [reflexivity|].
  cbn [Value.doc_out].
  destruct (opens_group (field_value row [dk]) cur); simpl; rewrite IH;
    reflexivity.
Qed.

Lemma single_out_length qn rows first :
  List.length (single_out qn rows first) = List.length rows.
Proof. destruct rows; simpl; [|rewrite length_map]; reflexivity. Qed.

Lemma convert_out_length env cache rows :
  List.length (convert_out env cache rows) = List.length (survivors rows).
Proof.
  unfold Value.convert_out.
  destruct (first_header_key (header_keys_of rows) doc_keys).
  - apply doc_out_length.
  - apply single_out_length.
Qed.

Lemma line_name_cell_doc_out sp_map dk ck cuk rows :
  forall cur,
    map (Dict.get (cp "order_line/name")) (doc_out sp_map dk ck cuk rows cur)
    = map (fun r => Some (line_name r)) rows.
Proof.
  induction rows as [|row rows IH]; intros cur; [reflexivity|].
  cbn [Value.doc_out].
  destruct (opens_group (field_value row [dk]) cur); cbn [map]; rewrite IH;
    reflexivity.
Qed.

Lemma line_name_cell_single_out qn rows first :
  map (Dict.get (cp "order_line/name")) (single_out qn rows first)
  = map (fun r => Some (line_name r)) rows.
Proof.
  destruct rows as [|row rows]; [reflexivity|].
  cbn [Value.single_out map]. rewrite map_map.
  destruct first; reflexivity.
Qed.

Lemma line_name_cell_convert_out env cache rows :
  map (Dict.get (cp "order_line/name")) (convert_out env cache rows)
  = map (fun r => Some (line_name r)) (survivors rows).
Proof.
  unfold Value.convert_out.
  destruct (first_header_key (header_keys_of rows) doc_keys).
  - apply line_name_cell_doc_out.
  - apply line_name_cell_single_out.
Qed.

Lemma survivors_drop pre row post :
  field_value row sku_keys = [] ->
  survivors (pre ++ row :: post) = survivors (pre ++ post).
Proof.
  intros H. unfold survivors. rewrite !filter_app. cbn [filter].
  unfold survives. rewrite H. reflexivity.
Qed.

Lemma survivors_none rows :
  Forall (fun r => field_value r sku_keys = []) rows -> survivors rows = [].
Proof.
  induction 1 as [|row rows H _ IH]; [reflexivity|].
  rewrite survivors_cons. unfold survives. rewrite H. exact IH.
Qed.

Lemma tracked_doc_nil : tracked_doc [] = None.
Proof. reflexivity. Qed.

(** The [i]-th output row of a call, read off the [i]-th surviving row. *)
Lemma convert_out_nth env cache rows i :
  nth_error (convert_out env cache rows) i
  = match nth_error (survivors rows) i with
    | Some row =>
        Some (if begins_group_at rows i
              then header_row_of env cache rows row
              else line_row unicode_decimal row)
    | None => None
    end.
Proof.
  unfold Value.convert_out, Value.header_row_of, begins_group_at.
  destruct (first_header_key (header_keys_of rows) doc_keys) as [dk|].
  - rewrite <- tracked_doc_nil, doc_out_nth. cbn [app].
    destruct (nth_error (survivors rows) i); reflexivity.
  - destruct (survivors rows) as [|row rest]; [destruct i; reflexivity|].
    destruct i as [|i]; [reflexivity|].
    cbn [Value.single_out nth_error Nat.eqb].
    rewrite nth_error_map. destruct (nth_error rest i); reflexivity.
Qed.

Lemma order_line_of_line_row row :
  order_line_of unicode_decimal row (line_row unicode_decimal row).
Proof. repeat split. Qed.

Lemma order_line_of_header_row env cache rows row :
  order_line_of unicode_decimal row
                (header_row_of env cache rows row).
Proof.
  unfold Value.header_row_of.
  destruct (first_header_key (header_keys_of rows) doc_keys); repeat split.
Qed.

Lemma quotation_number_nonempty env :
  cp "QO" ++ strftime_mdHM (now env) <> [].
Proof. discriminate. Qed.

Lemma header_row_of_has_header env cache rows row :
  has_header (header_row_of env cache rows row) = true
  /\ blank_header (header_row_of env cache rows row) = false.
Proof.
  unfold Value.header_row_of.
  destruct (first_header_key (header_keys_of rows) doc_keys).
  - apply doc_header_row_has_header.
  - apply single_header_row_has_header, quotation_number_nonempty.
Qed.

Lemma keys_header_row_of env cache rows row :
  Dict.keys (header_row_of env cache rows row) = TEMPLATE_HEADERS.
Proof.
  unfold Value.header_row_of.
  destruct (first_header_key (header_keys_of rows) doc_keys); reflexivity.
Qed.

(** ** The salesperson directory *)

Lemma dict_get_In (V : Type) (k : text) (v : V) (d : Dict.dict V) :
  Dict.get k d = Some v -> In (k, v) d.
Proof.
  induction d as [|[k' v'] d IH]; simpl; [discriminate|].
  destruct (Text.eqb k k') eqn:E.
  - apply text_eqb_eq in E. intros H. injection H as ->. subst. now left.
  - intros H. right. exact (IH H).
Qed.

Lemma dict_set_Forall (V : Type) (P : text * V -> Prop) k v (d : Dict.dict V) :
  P (k, v) -> Forall P d -> Forall P (Dict.set k v d).
Proof.
  intros Hkv. induction 1 as [|[k' v'] d Hx Hd IH]; simpl.
  - constructor; [assumption | constructor].
  - destruct (Text.eqb k k'); constructor; assumption.
Qed.

Lemma dict_get_set_same (V : Type) k (v : V) (d : Dict.dict V) :
  Dict.get k (Dict.set k v d) = Some v.
Proof.
  induction d as [|[k' v'] d IH]; simpl.
  - rewrite text_eqb_refl. reflexivity.
  - destruct (Text.eqb k k') eqn:E; simpl; rewrite ?text_eqb_refl, ?E; auto.
Qed.

Lemma load_row_entries mapping row :
  Forall entry_ok mapping ->
  Forall entry_ok (load_row unicode_upper mapping row).
Proof.
  intros H. unfold load_row.
  match goal with
  | |- context [truthy ?c && truthy ?n] =>
      destruct (truthy c) eqn:Hc; destruct (truthy n) eqn:Hn;
        cbn [andb]; try assumption
  end.
  apply dict_set_Forall; [|assumption].
  split; cbn [fst snd]; apply truthy_true; assumption.
Qed.

Lemma fold_load_row_entries rows :
  forall mapping,
    Forall entry_ok mapping ->
    Forall entry_ok (fold_left (load_row unicode_upper) rows mapping).
Proof.
  induction rows as [|row rows IH]; intros mapping H; simpl; [assumption|].
  apply IH, load_row_entries, H.
Qed.

Lemma load_salesperson_map_entries file sp_map :
  _load_salesperson_map unicode_upper file = Ok sp_map ->
  Forall entry_ok sp_map.
Proof.
  destruct file as [f|]; cbn [_load_salesperson_map].
  - destruct (utf8_end f); [| |discriminate].
    + intros H. injection H as <-.
      apply fold_load_row_entries; constructor.
    + destruct (latin1_end f); [discriminate|].
      intros H. injection H as <-.
      repeat apply fold_load_row_entries; constructor.
  - intros H. injection H as <-. constructor.
Qed.

Lemma directory_of_entries env cache :
  cache_ok cache -> Forall entry_ok (directory_of env cache).
Proof.
  unfold Value.directory_of, _get_salesperson_map.
  intros [->|[file [sp_map [Hload ->]]]]; cbn [fst].
  - destruct (_load_salesperson_map unicode_upper (directory_file env))
      as [m|e] eqn:E; cbn [fst]; [|constructor].
    exact (load_salesperson_map_entries _ E).
  - exact (load_salesperson_map_entries _ Hload).
Qed.

Lemma salesperson_of_loaded sp_map row :
  Forall entry_ok sp_map ->
  salesperson_of unicode_upper sp_map row
  = match Dict.get (Text.upper unicode_upper
                               (field_value row salesperson_keys)) sp_map with
    | Some name => name
    | None => default_salesperson
    end.
Proof.
  intros Hall. unfold salesperson_of.
  set (code := Text.upper unicode_upper (field_value row salesperson_keys)).
  destruct (Dict.get code sp_map) as [name|] eqn:Hget.
  - apply dict_get_In in Hget.
    rewrite Forall_forall in Hall. destruct (Hall _ Hget) as [Hk Hn].
    cbn [fst snd] in Hk, Hn. apply truthy_true in Hk. rewrite Hk.
    apply py_or_some, Hn.
  - destruct (truthy code); reflexivity.
Qed.

(** ** Column resolution *)

Lemma first_header_key_unique header_keys aliases a :
  In a header_keys ->
  In a aliases ->
  (forall k, In k header_keys -> In k aliases -> k = a) ->
  first_header_key header_keys aliases = Some a.
Proof.
  unfold first_header_key. intros Hin Ha Huniq.
  induction header_keys as [|k hk IH]; [contradiction|].
  simpl. destruct (Text.mem k aliases) eqn:E.
  - apply text_mem_In in E. f_equal. apply Huniq; [now left | assumption].
  - destruct Hin as [->|Hin].
    + apply text_mem_In in Ha. congruence.
    + apply IH; [assumption|]. intros k' Hk'. apply Huniq. now right.
Qed.

Lemma first_header_key_none header_keys aliases :
  first_header_key header_keys aliases = None
  <-> forall k, In k header_keys -> ~ In k aliases.
Proof.
  unfold first_header_key. split.
  - intros H k Hk Ha. apply text_mem_In in Ha.
    pose proof (find_none _ _ H k Hk) as Hf. cbv beta in Hf. congruence.
  - intros H. induction header_keys as [|k hk IH]; [reflexivity|].
    simpl. destruct (Text.mem k aliases) eqn:E.
    + apply text_mem_In in E. exfalso. apply (H k); [now left | assumption].
    + apply IH. intros k' Hk'. apply H. now right.
Qed.

Lemma py_or_truthy (s d : text) :
  py_or (Some s) d = if truthy s then s else d.
Proof. destruct s; reflexivity. Qed.

(** A header-bearing output row of the document-number branch. *)
Lemma header_row_in_doc_mode env cache rows dk i row r :
  first_header_key (header_keys_of rows) doc_keys = Some dk ->
  nth_error (survivors rows) i = Some row ->
  nth_error (convert_out env cache rows) i = Some r ->
  has_header r = true ->
  r = doc_header_row unicode_upper unicode_decimal (directory_of env cache) dk
        (first_header_key (header_keys_of rows) customer_keys)
        (first_header_key (header_keys_of rows) cust_keys) row.
Proof.
  intros Hdk Hrow Hr Hh. rewrite convert_out_nth, Hrow in Hr.
  injection Hr as <-. destruct (begins_group_at rows i).
  - unfold Value.header_row_of. rewrite Hdk. reflexivity.
  - rewrite (proj2 (line_row_blank row)) in Hh. discriminate.
Qed.

(* ================================================================== *)
(** * Properties of the converter *)
(* ================================================================== *)

(** C8, as the code has it.  [convert_rows] returns a list of template
    rows, without raising, for every list of input rows whenever the
    call gets a salesperson directory: one cached by an earlier call, or
    the empty one of a missing list, or the one a readable list loads
    into.  On the empty list it returns the empty list; reading a field
    never raises, whatever columns a row has or lacks; and the exception
    of [float] on malformed numeric text is caught on the spot and
    replaced by zero.  But when nothing is cached and reading the list
    raises, [convert_rows] raises that exception on every input, the
    empty list included, before it converts a row, and the cache stays
    unset; there is no third case. *)
Theorem convert_rows_total env cache rows :
  (directory_available env cache ->
   (exists out,
       convert_rows env cache rows = (Ok out, Some (directory_of env cache)))
   /\ fst (convert_rows env cache []) = Ok [])
  /\ (forall sp_map, directory_available env (Some sp_map))
  /\ (directory_file env = None -> directory_available env cache)
  /\ (forall sp_map,
        _load_salesperson_map unicode_upper (directory_file env) = Ok sp_map ->
        directory_available env cache)
  /\ (forall e,
        _load_salesperson_map unicode_upper (directory_file env) = Raise e ->
        convert_rows env None rows = (Raise e, None))
  /\ (directory_available env cache
      \/ exists e,
          cache = None
          /\ _load_salesperson_map unicode_upper (directory_file env)
             = Raise e)
  /\ (forall row keys, exists v, get_val row keys = Ok v)
  /\ (forall t,
        parse_number unicode_decimal t
        = if truthy t
          then match PyFloat.float unicode_decimal (remove_commas t) with
               | Ok x => x
               | Raise _ => zero
               end
          else zero).
Proof.
  split.
  { intros Hav. split.
    - exists (convert_out env cache rows). apply convert_rows_pair, Hav.
    - rewrite (convert_rows_value _ Hav). reflexivity. }
  split; [intros sp_map; reflexivity|].
  split.
  { intros Hfile. unfold Value.directory_available, Value.directory_of.
    rewrite Hfile. destruct cache; reflexivity. }
  split.
  { intros sp_map Hload. destruct cache as [m|]; [reflexivity|].
    exact (proj1 (loaded_directory_available env Hload)). }
  split; [intros e; apply convert_rows_raises|].
  split; [apply directory_available_or_not|].
  split.
  - intros row keys. exists (field_value row keys). apply get_val_value.
  - intros t. unfold Converter.parse_number, try_except.
    destruct (truthy t); reflexivity.
Qed.

(** C4. A row whose SKU reads empty (no SKU column with a value, or a
    blank one) yields no output row, in the document-number branch and
    in the fallback alike: the output has one row per input row with a
    non-empty SKU, in order, so it is never longer than the number of
    such rows; removing an empty-SKU row after the first row leaves the
    output unchanged; and an input of empty-SKU rows only gives no
    output at all.
    All this is of a call that gets a salesperson directory; a call
    that cannot read the list raises before it looks at a row. *)
Theorem empty_sku_rows_emit_nothing env cache rows :
  directory_available env cache ->
  exists out,
    fst (convert_rows env cache rows) = Ok out
    /\ List.length out = List.length (survivors rows)
    /\ List.length out <= List.length rows
    /\ map (Dict.get (cp "order_line/name")) out
       = map (fun r => Some (line_name r)) (survivors rows)
    /\ (forall r0 pre row post,
          rows = r0 :: pre ++ row :: post ->
          field_value row sku_keys = [] ->
          fst (convert_rows env cache (r0 :: pre ++ post)) = Ok out)
    /\ (Forall (fun r => field_value r sku_keys = []) rows -> out = []).
Proof.
  intros Hav. exists (convert_out env cache rows).
  split; [apply convert_rows_value, Hav|].
  split; [apply convert_out_length|].
  split.
  { rewrite convert_out_length. unfold survivors. apply filter_length_le. }
  split; [apply line_name_cell_convert_out|].
  split.
  - intros r0 pre row post -> Hsku. rewrite (convert_rows_value _ Hav).
    unfold Value.convert_out. cbn [header_keys_of].
    change (r0 :: pre ++ row :: post) with ((r0 :: pre) ++ row :: post).
    rewrite (survivors_drop (r0 :: pre) row post Hsku). reflexivity.
  - intros Hall.
    assert (Hlen := convert_out_length env cache rows).
    rewrite (survivors_none Hall) in Hlen.
    destruct (convert_out env cache rows); [reflexivity | discriminate].
Qed.

(** C3. In every output of [convert_rows] the five header columns are
    non-empty exactly on the row that begins an order group and are the
    empty string on every other row; and every output row, header or
    not, has the twelve template columns with the order-line cells of
    its input row.
    All this is of a call that gets a salesperson directory; a call
    that cannot read the list raises before it looks at a row. *)
Theorem sparse_header_invariant env cache rows :
  directory_available env cache ->
  exists out,
    fst (convert_rows env cache rows) = Ok out
    /\ List.length out = List.length (survivors rows)
    /\ forall i r,
         nth_error out i = Some r ->
         (if begins_group_at rows i
          then has_header r = true /\ blank_header r = false
          else blank_header r = true /\ has_header r = false)
         /\ Dict.keys r = TEMPLATE_HEADERS
         /\ exists row,
              nth_error (survivors rows) i = Some row
              /\ order_line_of unicode_decimal row r.
Proof.
  intros Hav. exists (convert_out env cache rows).
  split; [apply convert_rows_value, Hav|].
  split; [apply convert_out_length|].
  intros i r Hi. rewrite convert_out_nth in Hi.
  destruct (nth_error (survivors rows) i) as [row|]; [|discriminate].
  injection Hi as <-.
  destruct (begins_group_at rows i).
  - split; [apply header_row_of_has_header|].
    split; [apply keys_header_row_of|].
    exists row. split; [reflexivity | apply order_line_of_header_row].
  - split; [apply line_row_blank|].
    split; [reflexivity|].
    exists row. split; [reflexivity | apply order_line_of_line_row].
Qed.

(** C6. When no document-number column resolves, the whole input is
    one order: the first row with a non-empty SKU gives the only header
    row, named "QO" followed by month, day, hour and minute of the clock
    (two digits each), with partner "Default User" and the default
    salesperson in [user_id] and [Salesperson]; every later output row
    has blank header columns; and the output is the same with any
    salesperson directory the call gets, so no lookup takes place.
    All this is of a call that gets a salesperson directory; a call
    that cannot read the list raises before it looks at a row. *)
Theorem single_order_fallback env cache rows :
  directory_available env cache ->
  first_header_key (header_keys_of rows) doc_keys = None ->
  exists out,
    fst (convert_rows env cache rows) = Ok out
    /\ match survivors rows with
       | [] => out = []
       | row :: rest =>
           exists h tl,
             out = h :: tl
             /\ Dict.get (cp "name") h
                = Some (cp "QO" ++ pad2 (month (now env))
                          ++ pad2 (day (now env)) ++ pad2 (hour (now env))
                          ++ pad2 (minute (now env)))
             /\ Dict.get (cp "partner_id") h = Some (cp "Default User")
             /\ Dict.get (cp "user_id") h = Some (cp "Jabes Omar De La Cruz")
             /\ Dict.get (cp "Cust #") h = Some (cp "Default User")
             /\ Dict.get (cp "Salesperson") h
                = Some (cp "Jabes Omar De La Cruz")
             /\ has_header h = true
             /\ order_line_of unicode_decimal row h
             /\ List.length tl = List.length rest
             /\ Forall (fun r => blank_header r = true) tl
       end
    /\ (forall env' cache',
          directory_available env' cache' ->
          now env' = now env ->
          fst (convert_rows env' cache' rows) = Ok out).
Proof.
  intros Hav Hno. exists (convert_out env cache rows).
  split; [apply convert_rows_value, Hav|].
  unfold Value.convert_out. rewrite Hno. split.
  - destruct (survivors rows) as [|row rest]; [reflexivity|].
    cbn [Value.single_out].
    exists (single_header_row unicode_decimal
              (cp "QO" ++ strftime_mdHM (now env)) row),
           (map (line_row unicode_decimal) rest).
    split; [reflexivity|].
    do 5 (split; [reflexivity|]).
    split; [apply single_header_row_has_header, quotation_number_nonempty|].
    split; [repeat split|].
    split; [apply length_map|].
    apply Forall_forall. intros r Hr. apply in_map_iff in Hr.
    destruct Hr as [row' [<- _]]. reflexivity.
  - intros env' cache' Hav' Hnow. rewrite (convert_rows_value _ Hav').
    unfold Value.convert_out. rewrite Hno, Hnow. reflexivity.
Qed.


Lemma py_or_empty_default (v : text) : py_or (Some v) [] = v.
Proof. destruct v; reflexivity. Qed.


Lemma survivors_all rows :
  Forall (fun row => exists sku, get_val row sku_keys = Ok sku /\ sku <> [])
         rows ->
  survivors rows = rows.
Proof.
  induction 1 as [|row rows [sku [Hsku Hne]] _ IH]; [reflexivity|].
  rewrite survivors_cons. unfold survives.
  rewrite get_val_value in Hsku.
  assert (E : field_value row sku_keys = sku) by congruence.
  rewrite E. apply truthy_true in Hne. rewrite Hne, IH. reflexivity.
Qed.

(** C2. Six rows with non-empty SKU and document numbers "1", "1",
    "2", "2", "0" and a sixth number [d6] give six output rows.  The
    first "1" row and the first "2" row bear the header; the second of
    each and the "0" row have blank headers; the sixth row bears a
    header exactly when [d6] opens a group against the tracked number
    "2", which the "0" row left in place.  With [d6] = "3" the header is
    on exactly three rows, named "O1", "O2" and "O3".
    All this is of a call that gets a salesperson directory; a call
    that cannot read the list raises before it looks at a row. *)
Theorem grouping_by_document_number env cache rows dk d6 :
  directory_available env cache ->
  first_header_key (header_keys_of rows) doc_keys = Some dk ->
  Forall2 (fun row d => get_val row [dk] = Ok d) rows
          [cp "1"; cp "1"; cp "2"; cp "2"; cp "0"; d6] ->
  Forall (fun row => exists sku, get_val row sku_keys = Ok sku /\ sku <> [])
         rows ->
  exists out,
    fst (convert_rows env cache rows) = Ok out
    /\ List.length out = 6
    /\ map has_header out
       = [true; false; true; false; false; opens_group d6 (Some (cp "2"))]
    /\ map blank_header out
       = [false; true; false; true; true;
          negb (opens_group d6 (Some (cp "2")))]
    /\ (d6 = cp "3" ->
        map has_header out = [true; false; true; false; false; true]
        /\ map (Dict.get (cp "name")) out
           = [Some (cp "O1"); Some []; Some (cp "O2"); Some []; Some [];
              Some (cp "O3")]).
Proof.
  intros Hav Hdk Hdocs Hsku. exists (convert_out env cache rows).
  split; [apply convert_rows_value, Hav|].
  unfold Value.convert_out. rewrite Hdk, (survivors_all Hsku).
  repeat match goal with
         | H : Forall2 _ _ _ |- _ => inversion H; clear H; subst
         end.
  repeat match goal with
         | H : get_val ?r ?k = Ok ?d |- _ =>
             rewrite get_val_value in H;
             assert (field_value r k = d) by congruence; clear H
         end.
  cbn [Value.doc_out].
  repeat match goal with
         | H : field_value _ [dk] = _ |- _ => rewrite H
         end.
  repeat match goal with
         | |- context [opens_group ?d ?c] =>
             first [ change (opens_group d c) with true
                   | change (opens_group d c) with false ]
         end.
  cbv iota.
  split; [destruct (opens_group _ _); reflexivity|].
  split.
  { destruct (opens_group _ _); cbn [map];
      rewrite ?(proj1 (doc_header_row_has_header _ _ _ _ _));
      reflexivity. }
  split.
  { destruct (opens_group _ _); cbn [map];
      rewrite ?(proj2 (doc_header_row_has_header _ _ _ _ _));
      reflexivity. }
  intros ->. change (opens_group (cp "3") (Some (cp "2"))) with true.
  cbv iota. cbn [map].
  rewrite ?(proj1 (doc_header_row_has_header _ _ _ _ _)).
  split; [reflexivity|].
  unfold doc_header_row, template_row. cbn [Dict.get].
  repeat match goal with
         | H : field_value _ [dk] = _ |- _ => rewrite H
         end.
  reflexivity.
Qed.

End Properties.

(* ================================================================== *)
(** * Delimiter detection *)
(* ================================================================== *)

Lemma readline_line (line rest : text) :
  forallb (fun c => negb (is_newline c)) line = true ->
  readline (line ++ 10%N :: rest) = line ++ [10%N].
Proof.
  induction line as [|c line IH]; intros H; [reflexivity|].
  cbn [forallb] in H. apply andb_true_iff in H. destruct H as [Hc Hl].
  unfold is_newline in Hc. apply negb_true_iff, orb_false_iff in Hc.
  destruct Hc as [H10 H13]. cbn [app readline]. rewrite H10, H13.
  f_equal. exact (IH Hl).
Qed.

Lemma detect_delimiter_value (f : TextFile) :
  detect_delimiter (Some f)
  = Ok (if Nat.ltb (Text.count 44 (readline (decoded f)))
                   (Text.count 59 (readline (decoded f)))
        then cp ";" else cp ",").
Proof.
  unfold detect_delimiter, decoded. destruct (utf8_text f); reflexivity.
Qed.

(** C9. The detector reads the first line only and answers ";" exactly
    when that line has strictly more semicolons than commas, "," in
    every other case, equal counts and no delimiter at all included;
    what follows the first line has no influence. *)
Theorem delimiter_detection :
  (forall f,
      let first := readline (decoded f) in
      (detect_delimiter (Some f) = Ok (cp ";")
       <-> Text.count 44 first < Text.count 59 first)
      /\ (detect_delimiter (Some f) = Ok (cp ",")
          <-> Text.count 59 first <= Text.count 44 first))
  /\ (forall f g,
        readline (decoded f) = readline (decoded g) ->
        detect_delimiter (Some f) = detect_delimiter (Some g))
  /\ (forall line rest,
        forallb (fun c => negb (is_newline c)) line = true ->
        readline (line ++ 10%N :: rest) = line ++ [10%N])
  /\ (forall rest l1,
        detect_delimiter
          (Some {| utf8_text := Some (cp "a;b;c" ++ 10%N :: rest);
                   latin1_text := l1 |}) = Ok (cp ";")
        /\ detect_delimiter
             (Some {| utf8_text := Some (cp "a,b,c" ++ 10%N :: rest);
                      latin1_text := l1 |}) = Ok (cp ",")
        /\ detect_delimiter
             (Some {| utf8_text := Some (cp "abc" ++ 10%N :: rest);
                      latin1_text := l1 |}) = Ok (cp ",")
        /\ detect_delimiter
             (Some {| utf8_text := Some (cp "a;b,c" ++ 10%N :: rest);
                      latin1_text := l1 |}) = Ok (cp ",")
        /\ detect_delimiter
             (Some {| utf8_text := None;
                      latin1_text := cp "a;b;c" ++ 10%N :: rest |})
           = Ok (cp ";")).
Proof.
  split; [|split; [|split]].
  - intros f first. subst first. rewrite detect_delimiter_value.
    destruct (Nat.ltb_spec (Text.count 44 (readline (decoded f)))
                           (Text.count 59 (readline (decoded f))))
      as [Hlt|Hge].
    + split; split; intros H; try reflexivity; try assumption;
        try discriminate; lia.
    + split; split; intros H; try reflexivity; try assumption;
        try discriminate; lia.
  - intros f g H. rewrite !detect_delimiter_value, H. reflexivity.
  - exact readline_line.
  - intros rest l1. repeat split.
Qed.

(* ================================================================== *)
(** * Column resolution *)
(* ================================================================== *)

Lemma first_header_key_some header_keys aliases k :
  first_header_key header_keys aliases = Some k
  <-> exists pre post,
      header_keys = pre ++ k :: post
      /\ In k aliases
      /\ forall x, In x pre -> ~ In x aliases.
Proof.
  unfold first_header_key. split.
  - induction header_keys as [|x hk IH]; simpl; [discriminate|].
    destruct (Text.mem x aliases) eqn:E.
    + intros H. injection H as <-. exists [], hk.
      split; [reflexivity|]. split; [apply text_mem_In, E|]. intros ? [].
    + intros H. destruct (IH H) as [pre [post [-> [Hk Hpre]]]].
      exists (x :: pre), post. split; [reflexivity|]. split; [assumption|].
      intros y [<-|Hy]; [|auto].
      intros Hx. apply text_mem_In in Hx. congruence.
  - intros [pre [post [-> [Hk Hpre]]]].
    induction pre as [|x pre IH]; simpl.
    + apply text_mem_In in Hk. rewrite Hk. reflexivity.
    + destruct (Text.mem x aliases) eqn:E.
      * apply text_mem_In in E. exfalso. apply (Hpre x); [now left|assumption].
      * apply IH. intros y Hy. apply Hpre. now right.
Qed.

Lemma get_val_find (row : Row) (keys : list text) :
  get_val row keys
  = Ok match find (fun k => match Dict.get k row with
                            | Some (Some _) => true
                            | _ => false
                            end) keys with
       | Some k => match Dict.get k row with
                   | Some (Some s) => strip s
                   | _ => []
                   end
       | None => []
       end.
Proof.
  rewrite get_val_value. f_equal.
  induction keys as [|k keys IH]; [reflexivity|].
  cbn [field_value find].
  destruct (Dict.get k row) as [[s|]|] eqn:E; rewrite ?E; auto.
Qed.

Section ColumnResolution.

Variable unicode_upper : N -> list N.
Variable unicode_decimal : N -> option N.

Local Abbreviation convert_rows :=
  (Converter.convert_rows unicode_upper unicode_decimal).
Local Abbreviation convert_out :=
  (Value.convert_out unicode_upper unicode_decimal).
Local Abbreviation directory_of := (Value.directory_of unicode_upper).
Local Abbreviation directory_available :=
  (Value.directory_available unicode_upper).
Local Abbreviation parse_number := (Converter.parse_number unicode_decimal).

Lemma resolves_first_header_key header_keys aliases k :
  resolves header_keys aliases k <-> first_header_key header_keys aliases = k.
Proof.
  destruct k as [k|]; cbn [resolves].
  - symmetry. apply first_header_key_some.
  - symmetry. apply first_header_key_none.
Qed.

Lemma first_header_key_spec_resolve header_keys aliases :
  one_alias_at_most header_keys aliases ->
  first_header_key header_keys aliases = spec_resolve aliases header_keys.
Proof.
  intros Huniq.
  destruct (first_header_key header_keys aliases) as [a|] eqn:E.
  - apply first_header_key_In in E. destruct E as [Hh Ha].
    change (spec_resolve aliases header_keys)
      with (first_header_key aliases header_keys).
    symmetry. apply first_header_key_unique; try assumption.
    intros k Hk Hk'. symmetry. apply Huniq; assumption.
  - change (spec_resolve aliases header_keys)
      with (first_header_key aliases header_keys).
    symmetry. apply first_header_key_none.
    rewrite first_header_key_none in E. intros k Ha Hh. exact (E k Hh Ha).
Qed.

(** [get_val] reads a field as [reads] says. *)
Lemma reads_field_value (row : Row) (aliases : list text) :
  reads row aliases (field_value row aliases).
Proof.
  induction aliases as [|a aliases IH].
  - right. split; [intros a []|reflexivity].
  - cbn [field_value].
    destruct (Dict.get a row) as [[s|]|] eqn:E.
    + left. exists [], a, aliases. split; [reflexivity|].
      split; [exists s; exact E|]. split; [intros x []|].
      unfold cell. rewrite E. reflexivity.
    + destruct IH as [[pre [b [post [-> [Hb [Hpre Hv]]]]]] | [Hnone Hv]].
      * left. exists (a :: pre), b, post. split; [reflexivity|].
        split; [exact Hb|]. split; [|exact Hv].
        intros x [<- | Hx]; [|exact (Hpre x Hx)].
        intros [s' H]. congruence.
      * right. split; [|exact Hv].
        intros x [<- | Hx]; [|exact (Hnone x Hx)].
        intros [s' H]. congruence.
    + destruct IH as [[pre [b [post [-> [Hb [Hpre Hv]]]]]] | [Hnone Hv]].
      * left. exists (a :: pre), b, post. split; [reflexivity|].
        split; [exact Hb|]. split; [|exact Hv].
        intros x [<- | Hx]; [|exact (Hpre x Hx)].
        intros [s' H]. congruence.
      * right. split; [|exact Hv].
        intros x [<- | Hx]; [|exact (Hnone x Hx)].
        intros [s' H]. congruence.
Qed.

(** And [reads] determines the value. *)
Lemma reads_unique (row : Row) (aliases : list text) (v : text) :
  reads row aliases v -> v = field_value row aliases.
Proof.
  induction aliases as [|a aliases IH] in v |- *.
  - intros [[pre [b [post [E _]]]] | [_ ->]]; [|reflexivity].
    destruct pre; discriminate E.
  - cbn [field_value]. intros H.
    destruct (Dict.get a row) as [[s|]|] eqn:E.
    + destruct H as [[pre [b [post [Eq [Hb [Hpre ->]]]]]] | [Hnone _]].
      * destruct pre as [|x pre].
        -- injection Eq as <- _. unfold cell. rewrite E. reflexivity.
        -- injection Eq as <- _. exfalso.
           apply (Hpre a (or_introl eq_refl)). exists s. exact E.
      * exfalso. apply (Hnone a (or_introl eq_refl)). exists s. exact E.
    + apply IH.
      destruct H as [[pre [b [post [Eq [Hb [Hpre ->]]]]]] | [Hnone ->]].
      * destruct pre as [|x pre].
        -- injection Eq as <- _. destruct Hb as [s' Hs']. congruence.
        -- injection Eq as <- ->. left. exists pre, b, post.
           split; [reflexivity|]. split; [exact Hb|].
           split; [|reflexivity]. intros y Hy. apply Hpre. now right.
      * right. split; [|reflexivity]. intros y Hy. apply Hnone. now right.
    + apply IH.
      destruct H as [[pre [b [post [Eq [Hb [Hpre ->]]]]]] | [Hnone ->]].
      * destruct pre as [|x pre].
        -- injection Eq as <- _. destruct Hb as [s' Hs']. congruence.
        -- injection Eq as <- ->. left. exists pre, b, post.
           split; [reflexivity|]. split; [exact Hb|].
           split; [|reflexivity]. intros y Hy. apply Hpre. now right.
      * right. split; [|reflexivity]. intros y Hy. apply Hnone. now right.
Qed.

Lemma dict_get_not_key (V : Type) (k : text) (d : Dict.dict V) :
  ~ In k (Dict.keys d) -> Dict.get k d = None.
Proof.
  induction d as [|[k' v'] d IH]; intros H; [reflexivity|].
  cbn [Dict.get]. destruct (Text.eqb k k') eqn:E.
  - apply text_eqb_eq in E. subst. exfalso. apply H. now left.
  - apply IH. intros Hin. apply H. now right.
Qed.

(** With at most one alias among the keys of the row, the value the
    code reads is the one the priority-order scan of the keys gives. *)
Lemma field_value_spec_read (row : Row) (aliases : list text) :
  one_alias_at_most (Dict.keys row) aliases ->
  field_value row aliases = spec_read row aliases.
Proof.
  intros Huniq. unfold spec_read.
  destruct (spec_resolve aliases (Dict.keys row)) as [a|] eqn:E.
  - change (spec_resolve aliases (Dict.keys row))
      with (first_header_key aliases (Dict.keys row)) in E.
    apply first_header_key_In in E. destruct E as [Ha Hk].
    cbn [cell_opt].
    assert (Hother : forall x, In x aliases -> x <> a ->
                               Dict.get x row = None).
    { intros x Hx Hne. apply dict_get_not_key. intros Hin.
      apply Hne. apply Huniq; assumption. }
    clear Huniq Hk. induction aliases as [|b aliases IH]; [contradiction|].
    cbn [field_value].
    destruct (Text.eqb b a) eqn:Eb.
    + apply text_eqb_eq in Eb. subst b. unfold cell.
      destruct (Dict.get a row) as [[s|]|] eqn:Eg; [reflexivity| |].
      * clear IH Ha. induction aliases as [|c aliases IH]; [reflexivity|].
        cbn [field_value].
        destruct (Text.eqb c a) eqn:Ec.
        -- apply text_eqb_eq in Ec. subst c. rewrite Eg.
           apply IH. intros x Hx. apply Hother. now right.
        -- rewrite (Hother c); [|right; now left|].
           ++ apply IH. intros x Hx. apply Hother.
              destruct Hx as [->|Hx]; [now left|right; now right].
           ++ intros ->. rewrite text_eqb_refl in Ec. discriminate.
      * clear IH Ha. induction aliases as [|c aliases IH]; [reflexivity|].
        cbn [field_value].
        destruct (Text.eqb c a) eqn:Ec.
        -- apply text_eqb_eq in Ec. subst c. rewrite Eg.
           apply IH. intros x Hx. apply Hother. now right.
        -- rewrite (Hother c); [|right; now left|].
           ++ apply IH. intros x Hx. apply Hother.
              destruct Hx as [->|Hx]; [now left|right; now right].
           ++ intros ->. rewrite text_eqb_refl in Ec. discriminate.
    + rewrite (Hother b); [|now left|].
      * apply IH.
        -- destruct Ha as [->|Ha]; [|exact Ha].
           rewrite text_eqb_refl in Eb. discriminate.
        -- intros x Hx. apply Hother. now right.
      * intros ->. rewrite text_eqb_refl in Eb. discriminate.
  - cbn [cell_opt].
    change (spec_resolve aliases (Dict.keys row))
      with (first_header_key aliases (Dict.keys row)) in E.
    rewrite first_header_key_none in E.
    clear Huniq. induction aliases as [|b aliases IH]; [reflexivity|].
    cbn [field_value].
    rewrite (dict_get_not_key b row (E b (or_introl eq_refl))).
    apply IH. intros x Hx. apply E. now right.
Qed.

Lemma field_value_cell (row : Row) (k : text) :
  field_value row [k] = cell row k.
Proof.
  unfold cell. cbn [field_value].
  destruct (Dict.get k row) as [[s|]|]; reflexivity.
Qed.

Lemma field_value_opt_cell (row : Row) (k : option text) (aliases : list text)
      (header_keys : list text) :
  first_header_key header_keys aliases = k ->
  (forall a, In a aliases -> a <> []) ->
  field_value_opt row k = cell_opt row k.
Proof.
  intros Hk Hne. destruct k as [k|]; [|reflexivity].
  apply first_header_key_In in Hk. destruct Hk as [_ Hk].
  specialize (Hne k Hk). destruct k as [|c k]; [congruence|].
  cbn [field_value_opt cell_opt]. apply field_value_cell.
Qed.

Lemma aliases_nonempty :
  (forall a, In a customer_keys -> a <> [])
  /\ (forall a, In a cust_keys -> a <> []).
Proof.
  split; intros a H; cbn in H;
    repeat (destruct H as [<- | H]; [discriminate|]); contradiction.
Qed.

(** C1, as the code has it.  [convert_rows] resolves the
    document-number, customer and customer-code columns once, against
    the keys of the first row: each is the first of those keys, in the
    row's own order, that belongs to the field's alias list, and no key
    at all when none belongs to it; a header row takes its order name,
    partner and customer code from the cells under these keys, an
    absent customer or customer-code field reading as the empty string.
    SKU, description, quantity, price and salesperson are read row by
    row: each value is that of the first alias, in priority order, which
    the row maps to a string, trimmed, and the empty string when there
    is none; the SKU read this way decides whether the row is skipped.
    Both ways of resolving agree with a scan of the alias list in
    priority order whenever at most one alias of the field occurs among
    the keys.
    All this is of a call that gets a salesperson directory; a call
    that cannot read the list raises before it looks at a row. *)
Theorem column_resolution env cache rows :
  directory_available env cache ->
  exists out doc_key customer_key cust_key,
    fst (convert_rows env cache rows) = Ok out
    /\ resolves (header_keys_of rows) doc_keys doc_key
    /\ resolves (header_keys_of rows) customer_keys customer_key
    /\ resolves (header_keys_of rows) cust_keys cust_key
    /\ List.length out = List.length (survivors rows)
    /\ (forall row,
          exists sku,
            reads row sku_keys sku /\ (survives row = true <-> sku <> []))
    /\ (forall i row r,
          nth_error (survivors rows) i = Some row ->
          nth_error out i = Some r ->
          exists sku description qty price salesperson,
            reads row sku_keys sku
            /\ reads row desc_keys description
            /\ reads row qty_keys qty
            /\ reads row price_keys price
            /\ reads row salesperson_keys salesperson
            /\ Dict.get (cp "order_line/name") r
               = Some (cp "[" ++ sku ++ cp "] " ++ description)
            /\ Dict.get (cp "order_line/product_template_id/name") r
               = Some description
            /\ Dict.get (cp "order_line/product_uom_qty") r
               = Some (format_2f (parse_number qty))
            /\ Dict.get (cp "order_line/price_unit") r
               = Some (format_2f (parse_number price))
            /\ (has_header r = true ->
                match doc_key with
                | Some dk =>
                    let customer := cell_opt row customer_key in
                    let code := Text.upper unicode_upper salesperson in
                    Dict.get (cp "name") r
                    = Some (cp "O" ++ remove_whitespace (cell row dk))
                    /\ Dict.get (cp "partner_id") r
                       = Some (py_or (Some customer) (cp "Default User"))
                    /\ Dict.get (cp "Cust #") r
                       = Some (py_or (Some (cell_opt row cust_key))
                                     (py_or (Some customer)
                                            (cp "Default User")))
                    /\ Dict.get (cp "user_id") r
                       = Some (py_or (if truthy code
                                      then Dict.get code
                                                    (directory_of env cache)
                                      else Some [])
                                     (cp "Jabes Omar De La Cruz"))
                | None =>
                    Dict.get (cp "name") r
                    = Some (cp "QO" ++ strftime_mdHM (now env))
                    /\ Dict.get (cp "partner_id") r
                       = Some (cp "Default User")
                end))
    /\ (forall aliases k,
          one_alias_at_most (header_keys_of rows) aliases ->
          (resolves (header_keys_of rows) aliases k
           <-> k = spec_resolve aliases (header_keys_of rows)))
    /\ (forall row aliases v,
          one_alias_at_most (Dict.keys row) aliases ->
          (reads row aliases v <-> v = spec_read row aliases)).
Proof.
  intros Hav.
  exists (convert_out env cache rows),
         (first_header_key (header_keys_of rows) doc_keys),
         (first_header_key (header_keys_of rows) customer_keys),
         (first_header_key (header_keys_of rows) cust_keys).
  split; [apply convert_rows_value, Hav|].
  split; [apply resolves_first_header_key; reflexivity|].
  split; [apply resolves_first_header_key; reflexivity|].
  split; [apply resolves_first_header_key; reflexivity|].
  split; [apply convert_out_length|].
  split.
  { intros row. exists (field_value row sku_keys).
    split; [apply reads_field_value|].
    unfold survives. split.
    - intros H Hempty. rewrite Hempty in H. discriminate H.
    - intros H. apply truthy_true, H. }
  split.
  { intros i row r Hrow Hr.
    exists (field_value row sku_keys), (field_value row desc_keys),
           (field_value row qty_keys), (field_value row price_keys),
           (field_value row salesperson_keys).
    do 5 (split; [apply reads_field_value|]).
    rewrite convert_out_nth, Hrow in Hr. injection Hr as <-.
    destruct (begins_group_at rows i).
    - unfold Value.header_row_of.
      destruct (first_header_key (header_keys_of rows) doc_keys)
        as [dk|] eqn:Hdk.
      + do 4 (split; [reflexivity|]). intros _. cbv zeta.
        unfold doc_header_row, template_row. cbn [Dict.get].
        rewrite (@field_value_opt_cell row _ customer_keys
                   (header_keys_of rows) eq_refl (proj1 aliases_nonempty)).
        rewrite (@field_value_opt_cell row _ cust_keys
                   (header_keys_of rows) eq_refl (proj2 aliases_nonempty)).
        rewrite field_value_cell.
        repeat split; reflexivity.
      + do 4 (split; [reflexivity|]). intros _. split; reflexivity.
    - do 4 (split; [reflexivity|]). intros Hh.
      pose proof (line_row_blank unicode_decimal row) as [_ Hno].
      congruence. }
  split.
  { intros aliases k Huniq. rewrite resolves_first_header_key.
    rewrite (first_header_key_spec_resolve Huniq).
    split; intros H; congruence. }
  intros row aliases v Huniq.
  rewrite <- (@field_value_spec_read row aliases Huniq).
  split.
  - apply reads_unique.
  - intros ->. apply reads_field_value.
Qed.

End ColumnResolution.


(* ================================================================== *)
(** * Number cells *)
(* ================================================================== *)

Section NumberCells.

Variable unicode_upper : N -> list N.
Variable unicode_decimal : N -> option N.

Local Abbreviation parse_number := (Converter.parse_number unicode_decimal).
Local Abbreviation convert_rows :=
  (Converter.convert_rows unicode_upper unicode_decimal).

Lemma uint_digits_all (u : Decimal.uint) :
  forallb is_digit (uint_digits u) = true.
Proof. induction u; simpl; auto. Qed.

Lemma uint_digits_nonempty (u : Decimal.uint) :
  u <> Decimal.Nil -> uint_digits u <> [].
Proof. destruct u; simpl; congruence. Qed.

Lemma decimal_of_N_nonempty (n : N) : decimal_of_N n <> [].
Proof.
  unfold decimal_of_N. apply uint_digits_nonempty.
  destruct n as [|p]; simpl; [discriminate|].
  apply DecimalPos.Unsigned.to_uint_nonnil.
Qed.

Lemma span_digits_point (ds rest : text) :
  forallb is_digit ds = true ->
  span_digits (ds ++ 46%N :: rest)
  = (map (fun c => (c - 48)%N) ds, 46%N :: rest).
Proof.
  induction ds as [|c ds IH]; intros H; [reflexivity|].
  cbn [forallb] in H. apply andb_true_iff in H. destruct H as [Hc Hd].
  cbn [app span_digits map]. rewrite Hc, (IH Hd). reflexivity.
Qed.

Lemma is_two_decimals_shape (neg : bool) (ds : text) (a b : N) :
  ds <> [] ->
  forallb is_digit ds = true ->
  is_digit a = true ->
  is_digit b = true ->
  is_two_decimals ((if neg then cp "-" else []) ++ ds ++ [46%N; a; b]) = true.
Proof.
  intros Hne Hds Ha Hb.
  assert (Hspan := span_digits_point ds [a; b] Hds).
  destruct ds as [|c ds]; [congruence|].
  destruct neg.
  - change (is_two_decimals (45%N :: (c :: ds) ++ [46%N; a; b]) = true).
    unfold is_two_decimals. rewrite N.eqb_refl, Hspan. cbn [map].
    rewrite Ha, Hb. reflexivity.
  - change (is_two_decimals (c :: ds ++ [46%N; a; b]) = true).
    cbn [forallb] in Hds. apply andb_true_iff in Hds.
    destruct Hds as [Hc _].
    assert (Hc45 : (c =? 45)%N = false).
    { unfold is_digit in Hc. apply andb_true_iff in Hc. destruct Hc as [Hc _].
      apply N.leb_le in Hc. apply N.eqb_neq. lia. }
    unfold is_two_decimals. rewrite Hc45.
    change (c :: ds ++ [46%N; a; b]) with ((c :: ds) ++ [46%N; a; b]).
    rewrite Hspan. cbn [map]. rewrite Ha, Hb. reflexivity.
Qed.

Lemma digit_char (k : N) : (k < 10)%N -> is_digit (48 + k) = true.
Proof.
  intros H. unfold is_digit. apply andb_true_iff.
  split; apply N.leb_le; lia.
Qed.

(** A finite value always prints with exactly two decimal places. *)
Lemma format_2f_finite (neg : bool) (m e : Z) :
  is_two_decimals (format_2f (Finite neg m e)) = true.
Proof.
  unfold format_2f.
  apply is_two_decimals_shape.
  - apply decimal_of_N_nonempty.
  - apply uint_digits_all.
  - apply digit_char. apply N.Div0.div_lt_upper_bound.
    apply N.mod_lt. discriminate.
  - apply digit_char. apply N.mod_lt. discriminate.
Qed.

(** C5, the code at the failing input.  The stated examples hold:
    "1,250" prints as "1250.00", "19.5" as "19.50", "abc" and the empty
    text as "0.00", as does every text [float] rejects; and every finite
    value prints with exactly two decimal places.  But [float] accepts
    the words "nan" and "inf" and literals beyond the double range, and
    for those the cell is "nan" or "inf", which is no number with two
    decimal places: a row with quantity "nan" and price "inf" is
    converted, by a call that gets a salesperson directory, to a row
    carrying these two words. *)
Theorem number_cells :
  format_2f (parse_number (cp "1,250")) = cp "1250.00"
  /\ format_2f (parse_number (cp "19.5")) = cp "19.50"
  /\ format_2f (parse_number (cp "abc")) = cp "0.00"
  /\ format_2f (parse_number []) = cp "0.00"
  /\ (forall t e,
        PyFloat.float unicode_decimal (remove_commas t) = Raise e ->
        format_2f (parse_number t) = cp "0.00")
  /\ (forall t,
        match parse_number t with
        | Finite _ _ _ => is_two_decimals (format_2f (parse_number t)) = true
        | Infinity neg =>
            format_2f (parse_number t) = (if neg then cp "-inf" else cp "inf")
        | NaN => format_2f (parse_number t) = cp "nan"
        end)
  /\ format_2f (parse_number (cp "nan")) = cp "nan"
  /\ format_2f (parse_number (cp "inf")) = cp "inf"
  /\ format_2f (parse_number (cp "1e999")) = cp "inf"
  /\ is_two_decimals (cp "nan") = false
  /\ is_two_decimals (cp "inf") = false
  /\ (forall env cache,
        Value.directory_available unicode_upper env cache ->
        exists r,
          fst (convert_rows env cache
                 [[(cp "SKU", Some (cp "X1")); (cp "Qty", Some (cp "nan"));
                   (cp "Price", Some (cp "inf"))]]) = Ok [r]
          /\ Dict.get (cp "order_line/product_uom_qty") r = Some (cp "nan")
          /\ Dict.get (cp "order_line/price_unit") r = Some (cp "inf")).
Proof.
  split; [vm_compute; reflexivity|].
  split; [vm_compute; reflexivity|].
  split; [vm_compute; reflexivity|].
  split; [vm_compute; reflexivity|].
  split.
  { intros t e H. unfold Converter.parse_number.
    destruct (truthy t); [rewrite H|]; reflexivity. }
  split.
  { intros t. destruct (parse_number t) as [neg m e|neg|].
    - apply format_2f_finite.
    - destruct neg; reflexivity.
    - reflexivity. }
  split; [vm_compute; reflexivity|].
  split; [vm_compute; reflexivity|].
  split; [vm_compute; reflexivity|].
  split; [vm_compute; reflexivity|].
  split; [vm_compute; reflexivity|].
  intros env cache Hav. rewrite (convert_rows_value _ _ Hav).
  unfold Value.convert_out.
  eexists. split; [reflexivity|].
  split; vm_compute; reflexivity.
Qed.

End NumberCells.

(* ================================================================== *)
(** * The properties at concrete inputs *)
(* ================================================================== *)

Import Examples.

(** The grouping theorem at six rows of documents 1, 1, 2, 2, 0, 3. *)
Lemma grouping_by_document_number_witness :
  directory_available ascii_upper env0 None
  /\ first_header_key (header_keys_of six_rows) doc_keys = Some (cp "Doc #")
  /\ Forall2 (fun row d => get_val row [cp "Doc #"] = Ok d) six_rows
             [cp "1"; cp "1"; cp "2"; cp "2"; cp "0"; cp "3"]
  /\ Forall (fun row => exists sku, get_val row sku_keys = Ok sku /\ sku <> [])
            six_rows
  /\ exists out,
      fst (convert_rows ascii_upper ascii_decimal env0 None six_rows) = Ok out
      /\ List.length out = 6
      /\ map has_header out = [true; false; true; false; false; true]
      /\ map (Dict.get (cp "name")) out
         = [Some (cp "O1"); Some []; Some (cp "O2"); Some []; Some [];
            Some (cp "O3")].
Proof.
  assert (H0 : directory_available ascii_upper env0 None) by reflexivity.
  assert (H1 : first_header_key (header_keys_of six_rows) doc_keys
               = Some (cp "Doc #")) by reflexivity.
  assert (H2 : Forall2 (fun row d => get_val row [cp "Doc #"] = Ok d) six_rows
                       [cp "1"; cp "1"; cp "2"; cp "2"; cp "0"; cp "3"])
    by (repeat constructor).
  assert (H3 : Forall (fun row => exists sku,
                           get_val row sku_keys = Ok sku /\ sku <> [])
                      six_rows)
    by (repeat (apply Forall_cons;
                [exists (cp "X1"); split; [reflexivity | discriminate]|]);
        apply Forall_nil).
  split; [exact H0|].
  split; [exact H1|]. split; [exact H2|]. split; [exact H3|].
  destruct (@grouping_by_document_number ascii_upper ascii_decimal env0 None
              six_rows (cp "Doc #") (cp "3") H0 H1 H2 H3)
    as [out [Hout [Hlen [_ [_ Hthree]]]]].
  destruct (Hthree eq_refl) as [Hh Hn].
  exists out. repeat split; assumption.
Defined.

(** The fallback theorem at three rows without document number. *)
Lemma single_order_fallback_witness :
  directory_available ascii_upper env0 None
  /\ first_header_key (header_keys_of no_doc_rows) doc_keys = None
  /\ exists out h tl,
      fst (convert_rows ascii_upper ascii_decimal env0 None no_doc_rows)
      = Ok out
      /\ out = h :: tl
      /\ Dict.get (cp "name") h = Some (cp "QO03071405")
      /\ Dict.get (cp "partner_id") h = Some (cp "Default User")
      /\ Dict.get (cp "user_id") h = Some (cp "Jabes Omar De La Cruz")
      /\ List.length tl = 1
      /\ Forall (fun r => blank_header r = true) tl
      /\ fst (convert_rows ascii_upper ascii_decimal env1 None no_doc_rows)
         = Ok out.
Proof.
  assert (H0 : directory_available ascii_upper env0 None) by reflexivity.
  assert (H : first_header_key (header_keys_of no_doc_rows) doc_keys = None)
    by reflexivity.
  split; [exact H0|]. split; [exact H|].
  destruct (@single_order_fallback ascii_upper ascii_decimal env0 None
              no_doc_rows H0 H)
    as [out [Hout [Hshape Hind]]].
  change (survivors no_doc_rows)
    with [row_of [("SKU", "X1"); ("Description", "Widget"); ("Qty", "2")];
          row_of [("SKU", "X2"); ("Description", "Gadget"); ("Qty", "1")]]
    in Hshape.
  destruct Hshape
    as [h [tl [E [Hname [Hp [Hu [_ [_ [_ [_ [Hlen Hblank]]]]]]]]]]].
  exists out, h, tl.
  do 7 (split; [assumption|]).
  apply (Hind env1 None); reflexivity.
Defined.



(** The resolution theorem at the file with the columns [Doc] and
    [Doc #]: the document number is read from [Doc], the first of the
    two in the row. *)
Lemma column_resolution_witness :
  directory_available ascii_upper env0 None
  /\ exists r,
      fst (convert_rows ascii_upper ascii_decimal env0 None two_doc_rows)
      = Ok [r]
      /\ resolves (header_keys_of two_doc_rows) doc_keys (Some (cp "Doc"))
      /\ Dict.get (cp "name") r = Some (cp "O7")
      /\ Dict.get (cp "order_line/name") r = Some (cp "[X1] ").
Proof.
  assert (H0 : directory_available ascii_upper env0 None) by reflexivity.
  split; [exact H0|].
  destruct (@column_resolution ascii_upper ascii_decimal env0 None
              two_doc_rows H0)
    as [out [dk [ck [cuk [Hout [Hdk [_ [_ [_ [_ [Hcells _]]]]]]]]]]].
  assert (E : out = convert_out ascii_upper ascii_decimal env0 None
                                two_doc_rows)
    by (rewrite (convert_rows_value _ _ H0) in Hout; congruence).
  assert (Ek : dk = Some (cp "Doc"))
    by (apply resolves_first_header_key in Hdk; rewrite <- Hdk; reflexivity).
  subst out dk.
  exists (hd [] (convert_out ascii_upper ascii_decimal env0 None
                             two_doc_rows)).
  split; [rewrite (convert_rows_value _ _ H0); reflexivity|].
  split; [exact Hdk|].
  destruct (Hcells 0 _ _ eq_refl eq_refl)
    as [sku [desc [qty [price [sp [Hsku [Hdesc [_ [_ [_ [Hline [_ [_ [_ Hh]
       ]]]]]]]]]]]]].
  destruct (Hh eq_refl) as [Hname _].
  split; [exact Hname|].
  rewrite (reads_unique Hsku), (reads_unique Hdesc) in Hline. exact Hline.
Defined.

(** The skipping theorem at three rows, the second without SKU. *)
Lemma empty_sku_rows_emit_nothing_witness :
  directory_available ascii_upper env0 None
  /\ exists out,
      fst (convert_rows ascii_upper ascii_decimal env0 None no_doc_rows)
      = Ok out
      /\ List.length out = 2
      /\ map (Dict.get (cp "order_line/name")) out
         = [Some (cp "[X1] Widget"); Some (cp "[X2] Gadget")].
Proof.
  assert (H0 : directory_available ascii_upper env0 None) by reflexivity.
  split; [exact H0|].
  destruct (@empty_sku_rows_emit_nothing ascii_upper ascii_decimal env0 None
              no_doc_rows H0)
    as [out [Hout [Hlen [_ [Hnames _]]]]].
  exists out. split; [exact Hout|]. split; [exact Hlen | exact Hnames].
Defined.

(** The header theorem at the six rows of documents 1, 1, 2, 2, 0, 3. *)
Lemma sparse_header_invariant_witness :
  directory_available ascii_upper env0 None
  /\ exists out,
      fst (convert_rows ascii_upper ascii_decimal env0 None six_rows) = Ok out
      /\ List.length out = 6
      /\ forall i r,
           nth_error out i = Some r ->
           (if begins_group_at six_rows i
            then has_header r = true /\ blank_header r = false
            else blank_header r = true /\ has_header r = false)
           /\ Dict.keys r = TEMPLATE_HEADERS.
Proof.
  assert (H0 : directory_available ascii_upper env0 None) by reflexivity.
  split; [exact H0|].
  destruct (@sparse_header_invariant ascii_upper ascii_decimal env0 None
              six_rows H0)
    as [out [Hout [Hlen Hrows]]].
  exists out. split; [exact Hout|]. split; [exact Hlen|].
  intros i r Hr. destruct (Hrows i r Hr) as [Hh [Hk _]].
  split; [exact Hh | exact Hk].
Defined.

(** C8 fails as stated.  With a salesperson list on disk that the
    [csv] reader cannot get through and nothing cached, [convert_rows]
    raises on the empty list and on six well-formed rows alike, and
    leaves the cache unset; with a directory in the cache the same
    calls return. *)
Lemma unreadable_list_raises :
  convert_rows ascii_upper ascii_decimal env_oversized None []
  = (Raise CsvError, None)
  /\ convert_rows ascii_upper ascii_decimal env_oversized None six_rows
     = (Raise CsvError, None)
  /\ ~ (exists out,
          fst (convert_rows ascii_upper ascii_decimal env_oversized None
                            six_rows) = Ok out)
  /\ fst (convert_rows ascii_upper ascii_decimal env_oversized (Some []) [])
     = Ok [].
Proof.
  split; [reflexivity|]. split; [reflexivity|].
  split; [intros [out H]; discriminate H | reflexivity].
Qed.

(** C1 fails as stated.  With the columns [Doc] and [Doc #] in this
    order, a scan of the alias list in priority order finds [Doc #],
    but the converter takes [Doc], the first key of the row that is an
    alias, and names the order after it.  And a row that maps [SKU] to
    nothing and [Item] to "A" reads its SKU from [Item], although [SKU]
    is the first alias among the keys. *)
Lemma resolver_follows_header_order :
  spec_resolve doc_keys (header_keys_of two_doc_rows) = Some (cp "Doc #")
  /\ first_header_key (header_keys_of two_doc_rows) doc_keys
     = Some (cp "Doc")
  /\ first_header_key (header_keys_of two_doc_rows) doc_keys
     <> spec_resolve doc_keys (header_keys_of two_doc_rows)
  /\ (exists r,
        fst (convert_rows ascii_upper ascii_decimal env0 None two_doc_rows)
        = Ok [r]
        /\ Dict.get (cp "name") r = Some (cp "O7"))
  /\ spec_resolve sku_keys [cp "Item"; cp "SKU"] = Some (cp "SKU")
  /\ get_val [(cp "Item", Some (cp "A")); (cp "SKU", None)] sku_keys
     = Ok (cp "A").
Proof.
  split; [reflexivity|]. split; [reflexivity|].
  split; [discriminate|].
  split; [|split; reflexivity].
  eexists. split; [vm_compute; reflexivity|]. reflexivity.
Qed.

Unset Implicit Arguments.

(* ================================================================== *)
(** * Reading CSV text *)
(* ================================================================== *)

Module CsvFacts.

Import Csv.

(** [events] follows [readline]: the characters of the first line, the
    end-of-line mark, then the same for the rest of the text. *)
Lemma events_readline (s : text) :
  forall b,
    s <> [] ->
    events b s
    = map Some (readline s)
        ++ None :: events false (skipn (List.length (readline s)) s).
Proof.
  induction s as [|c s IH]; intros b Hs; [congruence|].
  cbn [events readline].
  destruct (c =? 10)%N; [reflexivity|].
  destruct (c =? 13)%N.
  - destruct s as [|c' s]; [reflexivity|].
    destruct (c' =? 10)%N eqn:E; [|reflexivity].
    cbn [events]. rewrite E. reflexivity.
  - destruct s as [|c' s]; [reflexivity|].
    rewrite (IH true) by discriminate. reflexivity.
Qed.

(** The pending flag matters at the end of the text only. *)
Lemma events_flag (b b' : bool) (c : N) (s : text) :
  events b (c :: s) = events b' (c :: s).
Proof. reflexivity. Qed.

Lemma events_flag_app (b b' : bool) (s t : text) :
  t <> [] -> events b (s ++ t) = events b' (s ++ t).
Proof.
  intros Ht. destruct s as [|c s]; [|reflexivity].
  destruct t; [congruence | reflexivity].
Qed.

Section RoundTrip.

Variable d : N.
Hypothesis d_not_quote : (d =? quotechar)%N = false.
Hypothesis d_not_lf : (d =? 10)%N = false.
Hypothesis d_not_cr : (d =? 13)%N = false.

Variable ending : option failure.

Local Abbreviation run := (read_records d ending).

Local Abbreviation mk := Build_ReaderObj.

Lemma run_char r c r' evs :
  parse_process_char d r (Some c) = Returned r' ->
  run r (Some c :: evs) = run r' evs.
Proof. intros H. cbn [read_records]. rewrite H. reflexivity. Qed.

Lemma run_eol_quoted fld flds evs :
  run (mk IN_QUOTED_FIELD fld flds) (None :: evs)
  = run (mk IN_QUOTED_FIELD fld flds) evs.
Proof. reflexivity. Qed.

Lemma add_char_ok s fld flds c :
  (N.of_nat (List.length fld) < field_limit)%N ->
  parse_add_char (mk s fld flds) c = Returned (mk s (fld ++ [c]) flds).
Proof.
  intros H. unfold parse_add_char. cbn [field].
  destruct (N.leb_spec field_limit (N.of_nat (List.length fld))); [lia|].
  reflexivity.
Qed.

(** A character inside a quoted field, other than the quote. *)
Lemma run_quoted_char b c fld flds t tail :
  (c =? quotechar)%N = false ->
  (N.of_nat (List.length fld) < field_limit)%N ->
  run (mk IN_QUOTED_FIELD fld flds) (events b (c :: t :: tail))
  = run (mk IN_QUOTED_FIELD (fld ++ [c]) flds) (events b (t :: tail)).
Proof.
  intros Hq Hlen.
  assert (Hstep : parse_process_char d (mk IN_QUOTED_FIELD fld flds) (Some c)
                  = Returned (mk IN_QUOTED_FIELD (fld ++ [c]) flds)).
  { unfold parse_process_char. cbn [state]. rewrite Hq.
    apply add_char_ok, Hlen. }
  cbn [events].
  destruct (c =? 10)%N.
  - rewrite (run_char _ _ _ _ Hstep). apply run_eol_quoted.
  - destruct (c =? 13)%N.
    + destruct (t =? 10)%N.
      * rewrite (run_char _ _ _ _ Hstep). reflexivity.
      * rewrite (run_char _ _ _ _ Hstep). apply run_eol_quoted.
    + rewrite (run_char _ _ _ _ Hstep). reflexivity.
Qed.

Local Abbreviation esc := escape_quote.

Lemma run_quoted_body f : forall b fld flds t tail,
  (N.of_nat (List.length fld + List.length f) <= field_limit)%N ->
  run (mk IN_QUOTED_FIELD fld flds) (events b (flat_map esc f ++ t :: tail))
  = run (mk IN_QUOTED_FIELD (fld ++ f) flds) (events b (t :: tail)).
Proof.
  induction f as [|c f IH]; intros b fld flds t tail Hlen.
  - rewrite app_nil_r. reflexivity.
  - cbn [flat_map]. cbn [List.length] in Hlen.
    assert (Hlt : (N.of_nat (List.length fld) < field_limit)%N) by lia.
    replace (fld ++ c :: f) with ((fld ++ [c]) ++ f)
      by (rewrite <- app_assoc; reflexivity).
    assert (Hlen' : (N.of_nat (List.length (fld ++ [c]) + List.length f)
                     <= field_limit)%N).
    { rewrite length_app. cbn [List.length]. lia. }
    unfold escape_quote at 1. destruct (c =? quotechar)%N eqn:Hq.
    + apply N.eqb_eq in Hq. subst c.
      rewrite <- (IH b (fld ++ [quotechar]) flds t tail Hlen').
      cbn [app]. 
      change (events b (quotechar :: quotechar :: flat_map esc f ++ t :: tail))
        with (Some quotechar :: Some quotechar
                :: events true (flat_map esc f ++ t :: tail)).
      rewrite (run_char _ _ (mk QUOTE_IN_QUOTED_FIELD fld flds)) by reflexivity.
      rewrite (run_char _ _ (mk IN_QUOTED_FIELD (fld ++ [quotechar]) flds)).
      * apply f_equal. apply events_flag_app. discriminate.
      * unfold parse_process_char. cbn [state]. rewrite N.eqb_refl.
        rewrite (add_char_ok _ _ _ _ Hlt). reflexivity.
    + rewrite <- (IH b (fld ++ [c]) flds t tail Hlen').
      cbn [app].
      destruct (flat_map esc f ++ t :: tail) as [|x rest] eqn:E.
      { destruct (flat_map esc f); discriminate. }
      apply run_quoted_char; assumption.
Qed.


(** A character inside an unquoted field. *)
Lemma run_plain_body f : forall b fld flds t tail,
  needs_quotes d f = false ->
  (N.of_nat (List.length fld + List.length f) <= field_limit)%N ->
  run (mk IN_FIELD fld flds) (events b (f ++ t :: tail))
  = run (mk IN_FIELD (fld ++ f) flds) (events b (t :: tail)).
Proof.
  induction f as [|c f IH]; intros b fld flds t tail Hq Hlen.
  - rewrite app_nil_r. reflexivity.
  - cbn [needs_quotes existsb] in Hq. apply orb_false_iff in Hq.
    destruct Hq as [Hc Hf].
    apply orb_false_iff in Hc. destruct Hc as [Hc H10].
    apply orb_false_iff in Hc. destruct Hc as [Hc H13].
    apply orb_false_iff in Hc. destruct Hc as [Hd Hquote].
    cbn [List.length] in Hlen.
    assert (Hlt : (N.of_nat (List.length fld) < field_limit)%N) by lia.
    replace (fld ++ c :: f) with ((fld ++ [c]) ++ f)
      by (rewrite <- app_assoc; reflexivity).
    rewrite <- (IH b (fld ++ [c]) flds t tail Hf)
      by (rewrite length_app; cbn [List.length]; lia).
    cbn [app events]. rewrite H10, H13.
    rewrite (run_char _ _ (mk IN_FIELD (fld ++ [c]) flds)).
    + apply f_equal. apply events_flag_app. discriminate.
    + unfold parse_process_char. cbn [state is_nl]. rewrite H10, H13.
      cbn [orb]. rewrite Hd. apply add_char_ok, Hlt.
Qed.


(** A field followed by the delimiter. *)
Lemma run_field f b flds tail :
  (N.of_nat (List.length f) <= field_limit)%N ->
  run (mk START_FIELD [] flds) (events b (write_field d f ++ d :: tail))
  = run (mk START_FIELD [] (flds ++ [f])) (events true tail).
Proof.
  intros Hlen. unfold write_field.
  destruct (needs_quotes d f) eqn:Hq.
  - unfold quoted. cbn [app]. rewrite <- app_assoc. cbn [app].
    change (events b (quotechar :: flat_map esc f ++ quotechar :: d :: tail))
      with (Some quotechar
              :: events true (flat_map esc f ++ quotechar :: d :: tail)).
    rewrite (run_char _ _ (mk IN_QUOTED_FIELD [] flds)) by reflexivity.
    rewrite run_quoted_body by exact Hlen.
    cbn [events]. change (quotechar =? 10)%N with false.
    change (quotechar =? 13)%N with false. cbv iota.
    rewrite d_not_lf, d_not_cr.
    rewrite (run_char _ _ (mk QUOTE_IN_QUOTED_FIELD ([] ++ f) flds))
      by reflexivity.
    rewrite (run_char _ _ (mk START_FIELD [] (flds ++ [f]))); [reflexivity|].
    unfold parse_process_char. cbn [state]. rewrite d_not_quote, N.eqb_refl.
    reflexivity.
  - destruct f as [|c f].
    + cbn [app events]. rewrite d_not_lf, d_not_cr.
      rewrite (run_char _ _ (mk START_FIELD [] (flds ++ [[]]))); [reflexivity|].
      unfold parse_process_char, start_field. cbn [state is_nl].
      rewrite d_not_lf, d_not_cr, d_not_quote, N.eqb_refl. reflexivity.
    + pose proof Hq as Hq'.
      cbn [needs_quotes existsb] in Hq. apply orb_false_iff in Hq.
      destruct Hq as [Hc Hf].
      apply orb_false_iff in Hc. destruct Hc as [Hc H10].
      apply orb_false_iff in Hc. destruct Hc as [Hc H13].
      apply orb_false_iff in Hc. destruct Hc as [Hd Hquote].
      cbn [List.length] in Hlen.
      cbn [app events]. rewrite H10, H13.
      rewrite (run_char _ _ (mk IN_FIELD [c] flds)).
      * rewrite run_plain_body; [|exact Hf | cbn [List.length]; lia].
        cbn [events]. rewrite d_not_lf, d_not_cr.
        rewrite (run_char _ _ (mk START_FIELD [] (flds ++ [c :: f])));
          [reflexivity|].
        unfold parse_process_char. cbn [state is_nl].
        rewrite d_not_lf, d_not_cr, N.eqb_refl. reflexivity.
      * unfold parse_process_char, start_field. cbn [state is_nl].
        rewrite H10, H13, Hquote, Hd. cbn [orb].
        rewrite add_char_ok by (cbn [List.length]; unfold field_limit; lia).
        reflexivity.
Qed.

(** The line terminator after the last field. *)
Lemma run_crlf st fld flds b rest :
  st = START_FIELD \/ st = IN_FIELD \/ st = QUOTE_IN_QUOTED_FIELD ->
  run (mk st fld flds) (events b (13 :: 10 :: rest)%N)
  = let '(rows, e) := run parse_reset (events false rest) in
    ((flds ++ [fld]) :: rows, e).
Proof.
  intros Hst.
  change (events b (13 :: 10 :: rest)%N)
    with (Some 13%N :: Some 10%N :: None :: events false rest).
  rewrite (run_char _ _ (mk EAT_CRNL [] (flds ++ [fld]))).
  - reflexivity.
  - assert (E : (13 =? d)%N = false) by (rewrite N.eqb_sym; exact d_not_cr).
    destruct Hst as [-> | [-> | ->]];
      unfold parse_process_char, start_field; cbn [state];
      [reflexivity | reflexivity |].
    change (13 =? quotechar)%N with false. cbv iota. rewrite E.
    reflexivity.
Qed.

(** The last field of a record and the line terminator. *)
Lemma run_last_field f b flds rest :
  (N.of_nat (List.length f) <= field_limit)%N ->
  run (mk START_FIELD [] flds)
      (events b (write_field d f ++ 13 :: 10 :: rest)%N)
  = let '(rows, e) := run parse_reset (events false rest) in
    ((flds ++ [f]) :: rows, e).
Proof.
  intros Hlen. unfold write_field.
  destruct (needs_quotes d f) eqn:Hq.
  - unfold quoted. cbn [app]. rewrite <- app_assoc. cbn [app].
    change (events b (quotechar
                        :: flat_map esc f ++ quotechar :: 13 :: 10 :: rest)%N)
      with (Some quotechar
              :: events true
                   (flat_map esc f ++ quotechar :: 13 :: 10 :: rest)%N).
    rewrite (run_char _ _ (mk IN_QUOTED_FIELD [] flds)) by reflexivity.
    rewrite run_quoted_body by exact Hlen.
    change (events true (quotechar :: 13 :: 10 :: rest)%N)
      with (Some quotechar :: events true (13 :: 10 :: rest)%N).
    rewrite (run_char _ _ (mk QUOTE_IN_QUOTED_FIELD ([] ++ f) flds))
      by reflexivity.
    apply run_crlf. auto.
  - destruct f as [|c f].
    + cbn [app]. apply run_crlf. auto.
    + cbn [needs_quotes existsb] in Hq. apply orb_false_iff in Hq.
      destruct Hq as [Hc Hf].
      apply orb_false_iff in Hc. destruct Hc as [Hc H10].
      apply orb_false_iff in Hc. destruct Hc as [Hc H13].
      apply orb_false_iff in Hc. destruct Hc as [Hd Hquote].
      cbn [List.length] in Hlen.
      cbn [app events]. rewrite H10, H13.
      rewrite (run_char _ _ (mk IN_FIELD [c] flds)).
      * rewrite run_plain_body; [|exact Hf | cbn [List.length]; lia].
        apply run_crlf. auto.
      * unfold parse_process_char, start_field. cbn [state is_nl].
        rewrite H10, H13, Hquote, Hd. cbn [orb].
        rewrite add_char_ok by (cbn [List.length]; unfold field_limit; lia).
        reflexivity.
Qed.

(** The fields of a record from the second one on. *)
Lemma run_fields fs : forall b flds rest,
  fs <> [] ->
  Forall fits fs ->
  run (mk START_FIELD [] flds)
      (events b (join d (map (write_field d) fs) ++ 13 :: 10 :: rest)%N)
  = let '(rows, e) := run parse_reset (events false rest) in
    ((flds ++ fs) :: rows, e).
Proof.
  induction fs as [|f fs IH]; intros b flds rest Hne Hfit; [congruence|].
  inversion Hfit as [|? ? Hf Hfs]; subst.
  destruct fs as [|g fs].
  - cbn [map join]. apply run_last_field, Hf.
  - change (join d (map (write_field d) (f :: g :: fs)))
      with (write_field d f ++ d :: join d (map (write_field d) (g :: fs))).
    rewrite <- app_assoc. cbn [app].
    rewrite run_field by exact Hf.
    etransitivity;
      [apply (IH true (flds ++ [f]) rest); [discriminate | exact Hfs]|].
    rewrite <- app_assoc. reflexivity.
Qed.


(** At the start of a record an ordinary character is handled as at the
    start of a field. *)
Lemma run_start_record b t c s fld flds :
  t = c :: s ->
  is_nl (Some c) = false ->
  run (mk START_RECORD fld flds) (events b t)
  = run (mk START_FIELD fld flds) (events b t).
Proof.
  intros -> Hc. pose proof Hc as Hc'. cbn [is_nl] in Hc'.
  apply orb_false_iff in Hc'. destruct Hc' as [H10 H13].
  cbn [events]. rewrite H10, H13. cbn [read_records].
  unfold parse_process_char. cbn [state]. rewrite Hc. reflexivity.
Qed.

Lemma write_field_head f tail :
  f <> [] ->
  exists c s, write_field d f ++ tail = c :: s /\ is_nl (Some c) = false.
Proof.
  intros Hf. unfold write_field. destruct (needs_quotes d f) eqn:Hq.
  - exists quotechar. eexists. split; reflexivity.
  - destruct f as [|c f]; [congruence|].
    exists c. eexists. split; [reflexivity|].
    cbn [needs_quotes existsb] in Hq. apply orb_false_iff in Hq.
    destruct Hq as [Hc _].
    apply orb_false_iff in Hc. destruct Hc as [Hc H10].
    apply orb_false_iff in Hc. destruct Hc as [Hc H13].
    cbn [is_nl]. rewrite H10, H13. reflexivity.
Qed.

Lemma written_head f fs rest :
  f :: fs <> [[]] ->
  exists c s,
    join d (map (write_field d) (f :: fs)) ++ (13 :: 10 :: rest)%N = c :: s
    /\ is_nl (Some c) = false.
Proof.
  intros Hne. destruct fs as [|g fs].
  - cbn [map join]. apply write_field_head. intros ->. congruence.
  - change (join d (map (write_field d) (f :: g :: fs)))
      with (write_field d f ++ d :: join d (map (write_field d) (g :: fs))).
    rewrite <- app_assoc.
    destruct f as [|c f].
    + exists d. eexists. split; [reflexivity|].
      cbn [is_nl]. rewrite d_not_lf, d_not_cr. reflexivity.
    + apply write_field_head. discriminate.
Qed.

(** One written record, read back. *)
Lemma run_record row b rest :
  Forall fits row ->
  run parse_reset (events b (writerow d row ++ rest))
  = let '(rows, e) := run parse_reset (events false rest) in
    (row :: rows, e).
Proof.
  intros Hfit.
  assert (E : (13 =? d)%N = false) by (rewrite N.eqb_sym; exact d_not_cr).
  destruct row as [|f fs].
  - reflexivity.
  - assert (Hcase : f :: fs = [[]] \/ f :: fs <> [[]]).
    { destruct f; destruct fs; auto; right; discriminate. }
    destruct Hcase as [Hone | Hne].
    + injection Hone as -> ->.
      change (events b (writerow d [[]] ++ rest))
        with (Some quotechar :: Some quotechar :: Some 13%N :: Some 10%N
                :: None :: events false rest).
      rewrite (run_char _ _ (mk IN_QUOTED_FIELD [] [])) by reflexivity.
      rewrite (run_char _ _ (mk QUOTE_IN_QUOTED_FIELD [] [])) by reflexivity.
      rewrite (run_char _ _ (mk EAT_CRNL [] [[]])).
      * reflexivity.
      * unfold parse_process_char. cbn [state].
        change (13 =? quotechar)%N with false. cbv iota. rewrite E.
        reflexivity.
    + assert (Hw : writerow d (f :: fs)
                   = join d (map (write_field d) (f :: fs)) ++ [13; 10]%N).
      { unfold writerow. destruct f; [destruct fs|]; try reflexivity.
        exfalso. apply Hne. reflexivity. }
      rewrite Hw, <- app_assoc. cbn [app].
      destruct (written_head f fs rest Hne) as [c [s [Hcs Hc]]].
      etransitivity; [exact (run_start_record b _ c s [] [] Hcs Hc)|].
      apply (run_fields (f :: fs) b [] rest); [discriminate | exact Hfit].
Qed.

(** Written records, read back. *)
Lemma run_records rows :
  Forall (Forall fits) rows ->
  forall rest,
  run parse_reset (events false (flat_map (writerow d) rows ++ rest))
  = let '(rows', e) := run parse_reset (events false rest) in
    (rows ++ rows', e).
Proof.
  induction 1 as [|row rows Hrow _ IH]; intros rest.
  - cbn [flat_map app]. destruct (run parse_reset (events false rest)).
    reflexivity.
  - cbn [flat_map]. rewrite <- app_assoc, run_record by exact Hrow.
    rewrite IH. destruct (run parse_reset (events false rest)).
    reflexivity.
Qed.

End RoundTrip.

(** Reading what the writer wrote gives the records back. *)
Lemma reader_writerows d rows :
  (d =? quotechar)%N = false ->
  (d =? 10)%N = false ->
  (d =? 13)%N = false ->
  Forall (Forall fits) rows ->
  reader d None (flat_map (writerow d) rows) = (rows, None).
Proof.
  intros Hq H10 H13 Hfit. unfold reader.
  rewrite <- (app_nil_r (flat_map (writerow d) rows)).
  rewrite (run_records d Hq H10 H13 None rows Hfit []).
  cbn. rewrite app_nil_r. reflexivity.
Qed.

(** ** Dictionaries with distinct keys *)

Lemma dict_get_nodup (V : Type) (d : Dict.dict V) :
  NoDup (Dict.keys d) ->
  forall k v, In (k, v) d -> Dict.get k d = Some v.
Proof.
  induction d as [|[k' v'] d IH]; intros Hnd k v Hin; [contradiction|].
  cbn [Dict.keys map fst] in Hnd. inversion Hnd as [|? ? Hk' Hd]; subst.
  cbn [Dict.get]. destruct Hin as [Heq | Hin].
  - injection Heq as -> ->. rewrite text_eqb_refl. reflexivity.
  - destruct (Text.eqb k k') eqn:E.
    + apply text_eqb_eq in E. subst k'. exfalso. apply Hk'.
      change (In k (map fst d)). apply in_map_iff. exists (k, v). auto.
    + apply IH; assumption.
Qed.

Lemma dict_values_nodup (V : Type) (dflt : V) (d : Dict.dict V) :
  NoDup (Dict.keys d) ->
  map (fun k => match Dict.get k d with Some v => v | None => dflt end)
      (Dict.keys d)
  = map snd d.
Proof.
  intros Hnd. unfold Dict.keys. rewrite map_map.
  apply map_ext_in. intros [k v] Hin. cbn [fst snd].
  rewrite (dict_get_nodup V d Hnd k v Hin). reflexivity.
Qed.

Lemma dict_set_fresh (V : Type) (k : text) (v : V) (d : Dict.dict V) :
  ~ In k (Dict.keys d) -> Dict.set k v d = d ++ [(k, v)].
Proof.
  induction d as [|[k' v'] d IH]; intros Hk; [reflexivity|].
  cbn [Dict.set]. destruct (Text.eqb k k') eqn:E.
  - apply text_eqb_eq in E. subst. exfalso. apply Hk. now left.
  - cbn [app]. rewrite IH; [reflexivity|]. intros H. apply Hk. now right.
Qed.

Lemma dict_update_fresh (V : Type) (items : list (text * V)) :
  forall d,
    NoDup (Dict.keys d ++ map fst items) ->
    Dict.update d items = d ++ items.
Proof.
  unfold Dict.update.
  induction items as [|[k v] items IH]; intros d Hnd; cbn [fold_left].
  - rewrite app_nil_r. reflexivity.
  - cbn [map fst snd] in *.
    assert (Hk : ~ In k (Dict.keys d)).
    { apply NoDup_remove_2 in Hnd. intros H. apply Hnd.
      apply in_or_app. now left. }
    rewrite (dict_set_fresh V k v d Hk), IH.
    + rewrite <- app_assoc. reflexivity.
    + unfold Dict.keys in *. rewrite map_app, <- app_assoc. exact Hnd.
Qed.

Lemma template_headers_nodup : NoDup TEMPLATE_HEADERS.
Proof.
  unfold TEMPLATE_HEADERS.
  repeat (apply NoDup_cons;
          [cbn [In]; intros H;
           repeat (destruct H as [H|H]; [discriminate H|]); exact H|]).
  apply NoDup_nil.
Qed.


(** ** Text the encoder accepts *)

Lemma encodable_Forall (t : text) :
  encodable t = true <-> Forall (fun c => is_surrogate c = false) t.
Proof.
  unfold encodable. rewrite forallb_forall, Forall_forall.
  split; intros H c Hc; specialize (H c Hc);
    destruct (is_surrogate c); auto; discriminate.
Qed.

Lemma encodable_app (a b : text) :
  encodable (a ++ b) = encodable a && encodable b.
Proof. apply forallb_app. Qed.

Lemma encodable_incl (s t : text) :
  incl s t -> encodable t = true -> encodable s = true.
Proof.
  rewrite !encodable_Forall, !Forall_forall. intros Hi H c Hc.
  apply H, Hi, Hc.
Qed.

Lemma encodable_quoted (f : text) :
  encodable f = true -> encodable (quoted f) = true.
Proof.
  intros H. unfold quoted.
  change (encodable (flat_map escape_quote f ++ [quotechar]) = true).
  rewrite encodable_app, andb_true_r.
  apply encodable_Forall. apply encodable_Forall in H.
  induction H as [|c f Hc _ IH]; [constructor|].
  cbn [flat_map]. apply Forall_app. split; [|exact IH].
  unfold escape_quote. destruct (c =? quotechar)%N; repeat constructor;
    exact Hc.
Qed.

Lemma encodable_join (d : N) (fs : list text) :
  is_surrogate d = false ->
  Forall (fun f => encodable f = true) fs ->
  encodable (join d fs) = true.
Proof.
  intros Hd. induction 1 as [|f fs Hf Hfs IH]; [reflexivity|].
  cbn [join]. destruct fs as [|g fs]; [exact Hf|].
  rewrite encodable_app, Hf. cbn [andb].
  change (negb (is_surrogate d) && encodable (join d (g :: fs)) = true).
  rewrite Hd, IH. reflexivity.
Qed.

Lemma encodable_writerow (fs : list text) :
  Forall (fun f => encodable f = true) fs ->
  encodable (writerow 44 fs) = true.
Proof.
  intros H. unfold writerow. rewrite encodable_app, andb_true_r.
  assert (J : encodable (join 44 (map (write_field 44) fs)) = true).
  { apply encodable_join; [reflexivity|].
    apply Forall_forall. intros f Hf. apply in_map_iff in Hf.
    destruct Hf as [g [<- Hg]]. rewrite Forall_forall in H.
    unfold write_field. destruct (needs_quotes 44 g);
      [apply encodable_quoted|]; apply H, Hg. }
  destruct fs as [|[|c f] [|g fs]]; try exact J; reflexivity.
Qed.

(** ** Writing template rows *)

Lemma dict_to_list_template (r : TemplateRow) :
  Dict.keys r = TEMPLATE_HEADERS ->
  dict_to_list TEMPLATE_HEADERS r = Returned (map snd r).
Proof.
  intros Hk. unfold dict_to_list. rewrite Hk.
  change (existsb (fun k => negb (Text.mem k TEMPLATE_HEADERS))
                  TEMPLATE_HEADERS) with false.
  cbv iota. f_equal. rewrite <- Hk. apply dict_values_nodup.
  rewrite Hk. exact template_headers_nodup.
Qed.

Lemma writerows_template (rows : list TemplateRow) :
  Forall (fun r => Dict.keys r = TEMPLATE_HEADERS) rows ->
  Forall (fun r => Forall (fun kv => encodable (snd kv) = true) r) rows ->
  writerows TEMPLATE_HEADERS rows
  = (flat_map (writerow 44) (map (map snd) rows), None).
Proof.
  induction 1 as [|r rows Hr _ IH]; intros Henc; [reflexivity|].
  inversion Henc as [|? ? He Hes]; subst.
  cbn [writerows map flat_map].
  rewrite (dict_to_list_template r Hr), encodable_writerow, (IH Hes);
    [reflexivity|].
  apply Forall_forall. intros f Hf. apply in_map_iff in Hf.
  destruct Hf as [kv [<- Hkv]]. rewrite Forall_forall in He.
  exact (He kv Hkv).
Qed.

Lemma write_template_csv_value (rows : list TemplateRow) :
  Forall (fun r => Dict.keys r = TEMPLATE_HEADERS) rows ->
  Forall (fun r => Forall (fun kv => encodable (snd kv) = true) r) rows ->
  write_template_csv rows
  = (flat_map (writerow 44) (TEMPLATE_HEADERS :: map (map snd) rows), None).
Proof.
  intros H He. unfold write_template_csv.
  rewrite (writerows_template rows H He). reflexivity.
Qed.

(** ** Rows that cannot be written *)

Lemma write_field_holds (d : N) (f : text) (c : N) :
  In c f -> In c (write_field d f).
Proof.
  intros H. unfold write_field. destruct (needs_quotes d f); [|exact H].
  unfold quoted. right. apply in_or_app. left.
  apply in_flat_map. exists c. split; [exact H|].
  unfold escape_quote. destruct (c =? quotechar)%N; now left.
Qed.

Lemma join_holds (d : N) (fs : list text) (f : text) (c : N) :
  In f fs -> In c f -> In c (join d fs).
Proof.
  induction fs as [|g fs IH]; intros Hf Hc; [contradiction|].
  cbn [join]. destruct fs as [|h fs].
  - destruct Hf as [-> | []]. exact Hc.
  - apply in_or_app. destruct Hf as [-> | Hf]; [left; exact Hc|].
    right. right. apply IH; assumption.
Qed.

Lemma writerow_holds (fs : list text) (f : text) (c : N) :
  In f fs -> In c f -> In c (writerow 44 fs).
Proof.
  intros Hf Hc. unfold writerow. apply in_or_app. left.
  assert (J : In c (join 44 (map (write_field 44) fs))).
  { apply (join_holds 44 _ (write_field 44 f));
      [apply in_map, Hf | apply write_field_holds, Hc]. }
  destruct fs as [|[|x g] [|h fs]]; try exact J.
  destruct Hf as [<- | []]. contradiction.
Qed.

Lemma writerow_unencodable (r : TemplateRow) :
  Exists (fun kv => encodable (snd kv) = false) r ->
  encodable (writerow 44 (map snd r)) = false.
Proof.
  intros H. apply Exists_exists in H. destruct H as [kv [Hkv He]].
  destruct (encodable (writerow 44 (map snd r))) eqn:E; [|reflexivity].
  rewrite <- He. symmetry.
  apply (encodable_incl _ (writerow 44 (map snd r))); [|exact E].
  intros c Hc. apply (writerow_holds _ (snd kv)); [apply in_map, Hkv|exact Hc].
Qed.

Lemma writerows_app (rows more : list TemplateRow) :
  Forall (fun r => Dict.keys r = TEMPLATE_HEADERS) rows ->
  Forall (fun r => Forall (fun kv => encodable (snd kv) = true) r) rows ->
  writerows TEMPLATE_HEADERS (rows ++ more)
  = (flat_map (writerow 44) (map (map snd) rows)
       ++ fst (writerows TEMPLATE_HEADERS more),
     snd (writerows TEMPLATE_HEADERS more)).
Proof.
  induction 1 as [|r rows Hr _ IH]; intros Henc.
  - cbn [app map flat_map]. destruct (writerows _ more); reflexivity.
  - inversion Henc as [|? ? He Hes]; subst.
    cbn [app writerows map flat_map].
    rewrite (dict_to_list_template r Hr), encodable_writerow, (IH Hes).
    + cbn [fst snd]. rewrite app_assoc. reflexivity.
    + apply Forall_forall. intros f Hf. apply in_map_iff in Hf.
      destruct Hf as [kv [<- Hkv]]. rewrite Forall_forall in He.
      exact (He kv Hkv).
Qed.

(** X13. [write_template_csv] stops at the first row it cannot write:
    a row with a key outside the template columns raises [ValueError],
    a row with a cell the UTF-8 encoder refuses raises
    [UnicodeEncodeError]; the file then holds the header line and the
    lines of the rows before that row, and nothing of the row or of
    those after it. *)
Theorem writing_stops_at_bad_row
        (rows : list TemplateRow) (r : TemplateRow)
        (rest : list TemplateRow) :
  Forall (fun r => Dict.keys r = TEMPLATE_HEADERS) rows ->
  Forall (fun r => Forall (fun kv => encodable (snd kv) = true) r) rows ->
  let written :=
    flat_map (writerow 44) (TEMPLATE_HEADERS :: map (map snd) rows) in
  ((exists k, In k (Dict.keys r) /\ ~ In k TEMPLATE_HEADERS) ->
   write_template_csv (rows ++ r :: rest)
   = (written, Some (Builtin ValueError)))
  /\ (Dict.keys r = TEMPLATE_HEADERS ->
      Exists (fun kv => encodable (snd kv) = false) r ->
      write_template_csv (rows ++ r :: rest)
      = (written, Some UnicodeEncodeError)).
Proof.
  intros Hkeys Henc written. subst written.
  unfold write_template_csv. rewrite (writerows_app rows _ Hkeys Henc).
  cbn [flat_map]. split.
  - intros [k [Hk Hno]]. cbn [writerows]. unfold dict_to_list.
    assert (E : existsb (fun k => negb (Text.mem k TEMPLATE_HEADERS))
                        (Dict.keys r) = true).
    { apply existsb_exists. exists k. split; [exact Hk|].
      apply negb_true_iff. destruct (Text.mem k TEMPLATE_HEADERS) eqn:M;
        [|reflexivity].
      apply text_mem_In in M. contradiction. }
    rewrite E. cbn [fst snd]. rewrite app_nil_r. reflexivity.
  - intros Hr Hbad. cbn [writerows].
    rewrite (dict_to_list_template r Hr), (writerow_unencodable r Hbad).
    cbn [fst snd]. rewrite app_nil_r. reflexivity.
Qed.

(** ** Reading template rows back *)

Lemma to_dict_template (r : TemplateRow) :
  Dict.keys r = TEMPLATE_HEADERS ->
  to_dict TEMPLATE_HEADERS (map snd r) = as_parsed r.
Proof.
  intros Hk. unfold to_dict, as_parsed.
  assert (Hlen : List.length (map snd r) = List.length TEMPLATE_HEADERS).
  { rewrite <- Hk. unfold Dict.keys. rewrite !length_map. reflexivity. }
  rewrite Hlen, Nat.ltb_irrefl, skipn_all. cbn [fold_left].
  f_equal. rewrite <- Hk.
  rewrite dict_update_fresh.
  - cbn [app]. unfold Dict.keys. clear. induction r as [|[k v] r IH];
      [reflexivity|]. cbn [map combine fst snd]. rewrite IH. reflexivity.
  - cbn [Dict.keys map app].
    replace (map fst (combine (Dict.keys r) (map Some (map snd r))))
      with (Dict.keys r).
    + rewrite Hk. exact template_headers_nodup.
    + unfold Dict.keys. clear. induction r as [|[k v] r IH];
        [reflexivity|]. cbn [map combine fst snd]. rewrite <- IH. reflexivity.
Qed.

Lemma template_headers_fit : Forall fits TEMPLATE_HEADERS.
Proof.
  unfold TEMPLATE_HEADERS.
  repeat (apply Forall_cons; [unfold fits, field_limit; cbn; lia|]).
  apply Forall_nil.
Qed.

Lemma detect_written_header t latin1 :
  detect_delimiter
    (Some {| utf8_text := Some (writerow 44 TEMPLATE_HEADERS ++ t);
             latin1_text := latin1 |})
  = Ok [44%N].
Proof. vm_compute. reflexivity. Qed.

(** X1. The text [write_template_csv] writes for rows with the template
    columns, whose cells the encoder accepts and the field limit
    admits, is read back by [parse_rows] as the same rows. *)
Theorem written_template_reads_back
        (rows : list TemplateRow) (latin1 : text) :
  Forall (fun r => Dict.keys r = TEMPLATE_HEADERS) rows ->
  Forall (fun r => Forall (fun kv => encodable (snd kv) = true) r) rows ->
  Forall (fun r => Forall (fun kv => fits (snd kv)) r) rows ->
  exists t,
    write_template_csv rows = (t, None)
    /\ parse_rows (Some (written_file t latin1))
       = Returned (map as_parsed rows).
Proof.
  intros Hkeys Henc Hfit.
  exists (flat_map (writerow 44) (TEMPLATE_HEADERS :: map (map snd) rows)).
  split; [apply write_template_csv_value; assumption|].
  unfold parse_rows, written_file.
  cbn [first_read utf8_lines utf8_exhausted latin1_lines].
  change (flat_map (writerow 44) (TEMPLATE_HEADERS :: map (map snd) rows))
    with (writerow 44 TEMPLATE_HEADERS
            ++ flat_map (writerow 44) (map (map snd) rows)) at 1.
  rewrite detect_written_header.
  rewrite reader_writerows; try reflexivity.
  - unfold dict_reader. cbn [fst snd].
    f_equal. clear Hfit Henc.
    induction Hkeys as [|r rows Hr _ IH]; [reflexivity|].
    cbn [map filter].
    assert (Hnb : is_blank (map snd r) = false).
    { destruct r; [discriminate Hr | reflexivity]. }
    rewrite Hnb. cbn [negb map]. rewrite (to_dict_template r Hr), IH.
    reflexivity.
  - apply Forall_cons; [exact template_headers_fit|].
    apply Forall_forall. intros fs Hin. apply in_map_iff in Hin.
    destruct Hin as [r [<- Hr]].
    rewrite Forall_forall in Hfit. specialize (Hfit r Hr).
    apply Forall_forall. intros f Hf. apply in_map_iff in Hf.
    destruct Hf as [kv [<- Hkv]].
    rewrite Forall_forall in Hfit. exact (Hfit kv Hkv).
Qed.

(** ** How reading can end *)

Section Total.

Variable d : N.
Variable ending : option failure.

Local Abbreviation run := (read_records d ending).

Local Abbreviation event_size c :=
  (match c with Some _ => 1 | None => 0 end).

(** What one step of the parser can do. *)
Lemma step_spec r c :
  match parse_process_char d r c with
  | Failed f =>
      (f = FieldLimitError
       /\ (field_limit <= N.of_nat (List.length (field r)))%N
       /\ c <> None)
      \/ (f = NewlineError /\ state r = EAT_CRNL /\ c <> None
          /\ is_nl c = false)
  | Returned r' =>
      List.length (field r') <= List.length (field r) + event_size c
      /\ (state r' = EAT_CRNL -> is_nl c = true)
  end.
Proof.
  unfold parse_process_char, start_field, parse_add_char.
  destruct r as [st fld flds]. cbn [state field fields].
  destruct st, c as [x|]; cbn [set_state parse_save_field state field fields];
    repeat match goal with
           | |- context [if ?b then _ else _] => destruct b eqn:?
           end;
    cbn [set_state parse_save_field state field fields List.length];
    rewrite ?length_app; cbn [List.length];
    try (split; [lia | intros; try discriminate; try assumption; reflexivity]);
    try (left; split; [reflexivity|]; split;
         [apply N.leb_le; assumption | discriminate]);
    try (right; repeat split; try discriminate; assumption).
Qed.


Lemma snd_run_cons r c evs :
  snd (run r (c :: evs))
  = match parse_process_char d r c with
    | Failed f => Some f
    | Returned r' =>
        match c, state r' with
        | None, START_RECORD => snd (run parse_reset evs)
        | _, _ => snd (run r' evs)
        end
    end.
Proof.
  cbn [read_records]. destruct (parse_process_char d r c) as [r'|f];
    [|reflexivity].
  destruct c; [reflexivity|].
  destruct (state r'); try reflexivity.
  destruct (run parse_reset evs). reflexivity.
Qed.

Lemma snd_run_nil r : snd (run r []) = ending.
Proof.
  cbn [read_records]. destruct ending; [reflexivity|].
  destruct (unfinished r); reflexivity.
Qed.

Local Abbreviation ends_well := (Csv.ends_well ending).

(** An end-of-line mark: the parser goes on, inside a quoted field or
    at the start of the next record. *)
Lemma run_eol r evs (bounded : Prop) :
  (forall r',
      List.length (field r') <= List.length (field r) ->
      state r' <> EAT_CRNL ->
      ends_well bounded (snd (run r' evs))) ->
  ends_well bounded (snd (run r (None :: evs))).
Proof.
  intros Hnext. rewrite snd_run_cons.
  pose proof (step_spec r None) as Hs.
  destruct (parse_process_char d r None) as [r'|f].
  - destruct Hs as [Hlen Hst].
    assert (Hne : state r' <> EAT_CRNL).
    { intros E. specialize (Hst E). discriminate. }
    destruct (state r') eqn:E;
      try (apply Hnext; [lia | congruence]).
    apply Hnext; [cbn; lia | discriminate].
  - exfalso. destruct Hs as [[_ [_ H]]|[_ [_ [H _]]]]; congruence.
Qed.

Lemma run_total s : forall b r,
  (state r = EAT_CRNL -> exists s', s = 10%N :: s') ->
  ends_well
    (N.of_nat (List.length (field r) + List.length s) <= field_limit)%N
    (snd (run r (events b s))).
Proof.
  induction s as [|c s IH]; intros b r Hst.
  - cbn [events]. destruct b.
    + apply run_eol. intros r' _ _. rewrite snd_run_nil.
      split; auto.
    + rewrite snd_run_nil. split; auto.
  - (* one character, then what [events] puts after it *)
    assert (Hchar :
      forall evs,
        (forall r',
            List.length (field r') <= List.length (field r) + 1 ->
            (state r' = EAT_CRNL -> is_nl (Some c) = true) ->
            ends_well
              (N.of_nat (List.length (field r) + 1 + List.length s)
               <= field_limit)%N
              (snd (run r' evs))) ->
        ends_well
          (N.of_nat (List.length (field r) + List.length (c :: s))
           <= field_limit)%N
          (snd (run r (Some c :: evs)))).
    { intros evs Hnext. rewrite snd_run_cons.
      pose proof (step_spec r (Some c)) as Hs.
      destruct (parse_process_char d r (Some c)) as [r'|f].
      - destruct Hs as [Hlen Hs].
        destruct (Hnext r' Hlen Hs) as [H1 H2].
        split; [exact H1|]. intros Hb. apply H2.
        cbn [List.length] in Hb. lia.
      - destruct Hs as [[-> [Hlim _]]|[-> [Hst' [_ Hnl]]]].
        + split; [now right|]. intros Hb. cbn [List.length] in Hb. lia.
        + exfalso. destruct (Hst Hst') as [s' Hs']. injection Hs' as -> _.
          discriminate Hnl. }
    assert (Hrest :
      forall b' r',
        List.length (field r') <= List.length (field r) + 1 ->
        (state r' = EAT_CRNL -> exists s', s = 10%N :: s') ->
        ends_well
          (N.of_nat (List.length (field r) + 1 + List.length s)
           <= field_limit)%N
          (snd (run r' (events b' s)))).
    { intros b' r' Hlen Hst'.
      destruct (IH b' r' Hst') as [H1 H2].
      split; [exact H1|]. intros Hb. apply H2. lia. }
    assert (Hbreak :
      forall r',
        List.length (field r') <= List.length (field r) + 1 ->
        ends_well
          (N.of_nat (List.length (field r) + 1 + List.length s)
           <= field_limit)%N
          (snd (run r' (None :: events false s)))).
    { intros r' Hlen. apply run_eol. intros r'' Hlen' Hne.
      apply Hrest; [lia|]. intros E. congruence. }
    cbn [events].
    destruct (c =? 10)%N eqn:E10.
    + apply Hchar. intros r' Hlen _. apply Hbreak, Hlen.
    + destruct (c =? 13)%N eqn:E13.
      * destruct s as [|c' s'].
        -- apply Hchar. intros r' Hlen _.
           change [None] with (None :: events false []).
           apply Hbreak, Hlen.
        -- destruct (c' =? 10)%N eqn:E'.
           ++ apply Hchar. intros r' Hlen _. apply Hrest; [exact Hlen|].
              intros _. apply N.eqb_eq in E'. subst c'. eauto.
           ++ apply Hchar. intros r' Hlen _. apply Hbreak, Hlen.
      * apply Hchar. intros r' Hlen Hnl. apply Hrest; [exact Hlen|].
        intros E. specialize (Hnl E). cbn [is_nl] in Hnl.
        rewrite E10, E13 in Hnl. discriminate.
Qed.

End Total.

(** The reader ends as its lines end or on an over-long field, and on a
    text within the field limit always as its lines end. *)
Lemma reader_ending d ending s :
  (snd (reader d ending s) = ending
   \/ snd (reader d ending s) = Some FieldLimitError)
  /\ ((N.of_nat (List.length s) <= field_limit)%N ->
      snd (reader d ending s) = ending).
Proof.
  unfold reader.
  destruct (run_total d ending s false parse_reset) as [H1 H2].
  - discriminate.
  - split; [exact H1|]. intros Hb. apply H2. exact Hb.
Qed.

(** ** [parse_rows] *)

Lemma detected_delimiter (f : TextFile) :
  detect_delimiter (Some f) = Ok [44%N]
  \/ detect_delimiter (Some f) = Ok [59%N].
Proof.
  rewrite detect_delimiter_value.
  destruct (Nat.ltb _ _); [right | left]; reflexivity.
Qed.

Lemma snd_dict_reader (s : stream (list text)) :
  snd (dict_reader s) = snd s.
Proof. unfold dict_reader. destruct (fst s); reflexivity. Qed.

(** [parse_rows] with the delimiter known. *)
Lemma parse_rows_with (f : CsvFile) (d : N) :
  detect_delimiter (Some (first_read f)) = Ok [d] ->
  parse_rows (Some f)
  = match dict_reader
            (reader d (if utf8_exhausted f then None
                       else Some UnicodeDecodeError) (utf8_lines f)) with
    | (rows, None) => Returned rows
    | (rows, Some UnicodeDecodeError) =>
        match dict_reader (reader d None (latin1_lines f)) with
        | (rows', None) => Returned (rows ++ rows')
        | (_, Some x) => Failed x
        end
    | (_, Some x) => Failed x
    end.
Proof.
  intros H. unfold parse_rows. rewrite H.
  destruct (dict_reader _) as [rows [e|]]; [|reflexivity].
  destruct e; reflexivity.
Qed.

Lemma parse_rows_cases (f : CsvFile) :
  ((exists rows, parse_rows (Some f) = Returned rows)
   \/ parse_rows (Some f) = Failed FieldLimitError)
  /\ (fits (utf8_lines f) -> fits (latin1_lines f) ->
      exists rows, parse_rows (Some f) = Returned rows).
Proof.
  assert (Hd : exists d, detect_delimiter (Some (first_read f)) = Ok [d]).
  { destruct (detected_delimiter (first_read f)); eauto. }
  destruct Hd as [d Hd]. rewrite (parse_rows_with f d Hd).
  pose proof (reader_ending d
                (if utf8_exhausted f then None else Some UnicodeDecodeError)
                (utf8_lines f)) as [H1 H1'].
  pose proof (reader_ending d None (latin1_lines f)) as [H2 H2'].
  rewrite <- snd_dict_reader in H1, H1', H2, H2'.
  destruct (dict_reader (reader d (if utf8_exhausted f then None
                                   else Some UnicodeDecodeError)
                                (utf8_lines f))) as [rows e].
  destruct (dict_reader (reader d None (latin1_lines f))) as [rows' e'].
  cbn [snd] in *. unfold fits.
  destruct (utf8_exhausted f).
  - split.
    + destruct H1 as [-> | ->]; eauto.
    + intros Hb _. rewrite (H1' Hb). eauto.
  - split.
    + destruct H1 as [-> | ->]; [|now right].
      destruct H2 as [-> | ->]; [left; eauto | now right].
    + intros Hb Hb'. rewrite (H1' Hb), (H2' Hb'). eauto.
Qed.

(** X2. [parse_rows] fails for a missing file and for a field beyond the
    field limit, and for nothing else: no line, however malformed, is
    rejected.  A file of at most 131072 characters is always parsed. *)
Theorem parse_rows_failures :
  parse_rows None = Failed (Builtin FileNotFoundError)
  /\ (forall f,
        (exists rows, parse_rows (Some f) = Returned rows)
        \/ parse_rows (Some f) = Failed FieldLimitError)
  /\ (forall f,
        fits (utf8_lines f) ->
        fits (latin1_lines f) ->
        exists rows, parse_rows (Some f) = Returned rows).
Proof.
  split; [reflexivity|]. split; intros f; apply parse_rows_cases.
Qed.

(** ** The keys of parsed rows *)

Local Abbreviation add_key :=
  (fun (acc : list text) (k : text) =>
     if Text.mem k acc then acc else acc ++ [k]).

Lemma keys_set (V : Type) (k : text) (v : V) (d : Dict.dict V) :
  Dict.keys (Dict.set k v d) = add_key (Dict.keys d) k.
Proof.
  induction d as [|[k' v'] d IH]; [reflexivity|].
  cbn [Dict.set Dict.keys map fst Text.mem existsb].
  destruct (Text.eqb k k') eqn:E.
  - apply text_eqb_eq in E. subst k'. reflexivity.
  - cbn [orb map fst]. fold (Dict.keys (Dict.set k v d)). rewrite IH.
    fold (Dict.keys d). fold (Text.mem k (Dict.keys d)).
    destruct (Text.mem k (Dict.keys d)); reflexivity.
Qed.

Lemma keys_update (V : Type) (items : list (text * V)) :
  forall d,
    Dict.keys (Dict.update d items)
    = fold_left add_key (map fst items) (Dict.keys d).
Proof.
  unfold Dict.update.
  induction items as [|[k v] items IH]; intros d; [reflexivity|].
  cbn [fold_left map fst snd]. rewrite IH, keys_set. reflexivity.
Qed.

Lemma keys_set_none (ks : list text) :
  forall d : Row,
    Dict.keys (fold_left (fun acc key => Dict.set key None acc) ks d)
    = fold_left add_key ks (Dict.keys d).
Proof.
  induction ks as [|k ks IH]; intros d; [reflexivity|].
  cbn [fold_left]. rewrite IH, keys_set. reflexivity.
Qed.

Lemma combine_keys (A B : Type) (l : list A) (l' : list B) :
  map fst (combine l l') = firstn (List.length l') l.
Proof.
  revert l'. induction l as [|x l IH]; intros [|y l']; try reflexivity.
  - cbn [combine map fst List.length firstn]. rewrite IH. reflexivity.
Qed.

(** The keys of a parsed row are the field names, each at its first
    occurrence, whatever the number of fields on the line. *)
Lemma keys_to_dict (fieldnames row : list text) :
  Dict.keys (cells (to_dict fieldnames row))
  = fold_left add_key fieldnames [].
Proof.
  unfold to_dict.
  destruct (Nat.ltb_spec (List.length fieldnames) (List.length row))
    as [Hlt | Hge]; cbn [cells].
  - rewrite keys_update, combine_keys, length_map.
    rewrite firstn_all2 by lia. reflexivity.
  - rewrite keys_set_none, keys_update, combine_keys, length_map.
    rewrite <- fold_left_app, firstn_skipn. reflexivity.
Qed.

Lemma nth_error_combine (A B : Type) (l : list A) (l' : list B) (i : nat) :
  nth_error (combine l l') i
  = match nth_error l i, nth_error l' i with
    | Some a, Some b => Some (a, b)
    | _, _ => None
    end.
Proof.
  revert l' i. induction l as [|a l IH]; intros [|b l'] [|i];
    cbn [combine nth_error]; try reflexivity.
  - destruct (nth_error l i); reflexivity.
  - apply IH.
Qed.

Lemma dict_get_set (V : Type) (k k' : text) (v : V) (d : Dict.dict V) :
  Dict.get k' (Dict.set k v d)
  = if Text.eqb k' k then Some v else Dict.get k' d.
Proof.
  induction d as [|[k0 v0] d IH]; [reflexivity|].
  cbn [Dict.set]. destruct (Text.eqb k k0) eqn:E.
  - apply text_eqb_eq in E. subst k0. cbn [Dict.get].
    destruct (Text.eqb k' k); reflexivity.
  - cbn [Dict.get]. rewrite IH.
    destruct (Text.eqb k' k0) eqn:E0; [|reflexivity].
    destruct (Text.eqb k' k) eqn:E1; [|reflexivity].
    apply text_eqb_eq in E0, E1. subst. rewrite text_eqb_refl in E.
    discriminate.
Qed.

(** In an updated dictionary a key has the value of its last item. *)
Lemma dict_get_update_last (V : Type) (items : list (text * V)) :
  forall (d : Dict.dict V) (i : nat) (k : text) (v : V),
    nth_error items i = Some (k, v) ->
    (forall j v', i < j -> nth_error items j <> Some (k, v')) ->
    Dict.get k (Dict.update d items) = Some v.
Proof.
  unfold Dict.update.
  induction items as [|[k0 v0] items IH] using rev_ind;
    intros d i k v Hi Hlast.
  - destruct i; discriminate Hi.
  - rewrite fold_left_app. cbn [fold_left fst snd]. rewrite dict_get_set.
    destruct (Nat.eq_dec i (List.length items)) as [-> | Hne].
    + rewrite nth_error_app2, Nat.sub_diag in Hi by lia.
      injection Hi as <- <-. rewrite text_eqb_refl. reflexivity.
    + assert (Hlt : i < List.length items).
      { assert (H : i < List.length (items ++ [(k0, v0)]))
          by (apply nth_error_Some; congruence).
        rewrite length_app in H. cbn [List.length] in H. lia. }
      rewrite nth_error_app1 in Hi by exact Hlt.
      destruct (Text.eqb k k0) eqn:E.
      * apply text_eqb_eq in E. subst k0. exfalso.
        apply (Hlast (List.length items) v0 Hlt).
        rewrite nth_error_app2, Nat.sub_diag by lia. reflexivity.
      * apply (IH d i k v Hi). intros j v' Hj Hn.
        apply (Hlast j v' Hj).
        rewrite nth_error_app1; [exact Hn|].
        apply nth_error_Some. congruence.
Qed.

Lemma dict_get_update_other (V : Type) (items : list (text * V)) :
  forall (d : Dict.dict V) (k : text),
    ~ In k (map fst items) ->
    Dict.get k (Dict.update d items) = Dict.get k d.
Proof.
  unfold Dict.update.
  induction items as [|[k0 v0] items IH]; intros d k Hk; [reflexivity|].
  cbn [fold_left fst snd]. rewrite IH.
  - rewrite dict_get_set. destruct (Text.eqb k k0) eqn:E; [|reflexivity].
    apply text_eqb_eq in E. subst. exfalso. apply Hk. now left.
  - intros H. apply Hk. now right.
Qed.

Lemma dict_get_set_none (ks : list text) :
  forall (d : Row) (k : text),
    Dict.get k (fold_left (fun acc key => Dict.set key None acc) ks d)
    = if Text.mem k ks then Some None else Dict.get k d.
Proof.
  induction ks as [|k0 ks IH]; intros d k; [reflexivity|].
  cbn [fold_left]. rewrite IH, dict_get_set.
  unfold Text.mem. cbn [existsb].
  fold (Text.mem k ks). 
  destruct (Text.mem k ks); [rewrite orb_true_r; reflexivity|].
  rewrite orb_false_r. destruct (Text.eqb k k0); reflexivity.
Qed.

(** The cell under a name: that of the last position the name has
    among the field names; [None] when the record ends before it. *)
Lemma get_to_dict (names record : list text) (i : nat) (name : text) :
  nth_error names i = Some name ->
  (forall j, i < j -> nth_error names j <> Some name) ->
  Dict.get name (cells (to_dict names record)) = Some (nth_error record i).
Proof.
  intros Hi Hlast.
  assert (Hitems : forall v,
             nth_error record i = Some v ->
             Dict.get name
               (Dict.update [] (combine names (map Some record)))
             = Some (Some v)).
  { intros v Hv. apply (dict_get_update_last _ _ [] i).
    - rewrite nth_error_combine, Hi, nth_error_map, Hv. reflexivity.
    - intros j v' Hj H. rewrite nth_error_combine in H.
      destruct (nth_error names j) as [n|] eqn:En; [|discriminate].
      destruct (nth_error (map Some record) j); [|discriminate].
      injection H as -> _. exact (Hlast j Hj En). }
  unfold to_dict.
  destruct (Nat.ltb_spec (List.length names) (List.length record))
    as [Hlt | Hge]; cbn [cells].
  - assert (Hir : i < List.length record).
    { assert (i < List.length names) by (apply nth_error_Some; congruence).
      lia. }
    destruct (nth_error record i) as [v|] eqn:Ev;
      [exact (Hitems v eq_refl)|].
    apply nth_error_None in Ev. lia.
  - rewrite dict_get_set_none.
    destruct (nth_error record i) as [v|] eqn:Ev.
    + assert (Hir : i < List.length record)
        by (apply nth_error_Some; congruence).
      assert (Hmem : Text.mem name (skipn (List.length record) names)
                     = false).
      { destruct (Text.mem name (skipn (List.length record) names)) eqn:M;
          [|reflexivity].
        apply text_mem_In in M. apply In_nth_error in M.
        destruct M as [j Hj]. rewrite nth_error_skipn in Hj.
        exfalso. apply (Hlast (List.length record + j)); [lia | exact Hj]. }
      rewrite Hmem. exact (Hitems v eq_refl).
    + apply nth_error_None in Ev.
      assert (Hmem : Text.mem name (skipn (List.length record) names)
                     = true).
      { apply text_mem_In.
        apply (nth_error_In _ (i - List.length record)).
        rewrite nth_error_skipn.
        replace (List.length record + (i - List.length record)) with i
          by lia.
        exact Hi. }
      rewrite Hmem. reflexivity.
Qed.

Lemma keys_to_dict_distinct (names record : list text) :
  Dict.keys (cells (to_dict names record)) = distinct names.
Proof. apply keys_to_dict. Qed.

Lemma overflow_to_dict (names record : list text) :
  overflow (to_dict names record)
  = if Nat.ltb (List.length names) (List.length record)
    then Some (skipn (List.length names) record) else None.
Proof.
  unfold to_dict.
  destruct (Nat.ltb (List.length names) (List.length record)); reflexivity.
Qed.

Lemma Forall2_map_self (A B : Type) (P : A -> B -> Prop) (g : A -> B)
      (l : list A) :
  (forall x, In x l -> P x (g x)) -> Forall2 P l (map g l).
Proof.
  induction l as [|x l IH]; intros H; [constructor|].
  cbn [map]. constructor; [apply H; now left|].
  apply IH. intros y Hy. apply H. now right.
Qed.

Lemma distinct_incl (names : list text) (k : text) :
  In k (distinct names) -> In k names.
Proof.
  unfold distinct.
  assert (G : forall acc,
             In k (fold_left (fun acc k0 => if Text.mem k0 acc then acc
                                            else acc ++ [k0]) names acc) ->
             In k acc \/ In k names).
  { induction names as [|n names IH]; intros acc H; [now left|].
    cbn [fold_left] in H. apply IH in H. destruct H as [H | H].
    - destruct (Text.mem n acc); [now left|].
      apply in_app_or in H. destruct H as [H | [<- | []]];
        [now left | right; now left].
    - right. now right. }
  intros H. destruct (G [] H) as [[] | H']. exact H'.
Qed.


(** ** A decoding error after the first lines *)

Lemma events_app_lf (a rest : text) : forall b,
  events b ((a ++ [10%N]) ++ rest)
  = events b (a ++ [10%N]) ++ events false rest.
Proof.
  induction a as [|c a IH]; intros b.
  - reflexivity.
  - cbn [app events].
    destruct (c =? 10)%N.
    + rewrite IH. reflexivity.
    + destruct (c =? 13)%N.
      * pose proof (IH true) as IHt. pose proof (IH false) as IHf.
        destruct a as [|c' a']; cbn [app] in IHt, IHf |- *.
        -- cbn [N.eqb Pos.eqb]. rewrite IHt. reflexivity.
        -- destruct (c' =? 10)%N.
           ++ rewrite IHt. reflexivity.
           ++ rewrite IHf. reflexivity.
      * rewrite IH. reflexivity.
Qed.

Lemma events_app_cr (a rest : text) : forall b,
  hd_error rest <> Some 10%N ->
  events b ((a ++ [13%N]) ++ rest)
  = events b (a ++ [13%N]) ++ events false rest.
Proof.
  induction a as [|c a IH]; intros b Hrest.
  - cbn [app events N.eqb Pos.eqb].
    destruct rest as [|c' rest']; [reflexivity|].
    destruct (c' =? 10)%N eqn:E; [|reflexivity].
    apply N.eqb_eq in E. subst c'. exfalso. apply Hrest. reflexivity.
  - cbn [app events].
    destruct (c =? 10)%N.
    + rewrite IH by exact Hrest. reflexivity.
    + destruct (c =? 13)%N.
      * pose proof (IH true Hrest) as IHt.
        pose proof (IH false Hrest) as IHf.
        destruct a as [|c' a']; cbn [app] in IHt, IHf |- *.
        -- cbn [N.eqb Pos.eqb]. rewrite IHf. reflexivity.
        -- destruct (c' =? 10)%N.
           ++ rewrite IHt. reflexivity.
           ++ rewrite IHf. reflexivity.
      * rewrite IH by exact Hrest. reflexivity.
Qed.

Lemma events_whole_lines (s rest : text) :
  whole_lines s rest ->
  events false (s ++ rest) = events false s ++ events false rest.
Proof.
  intros [-> | [[a ->] | [a [-> H]]]].
  - reflexivity.
  - apply events_app_lf.
  - apply events_app_cr, H.
Qed.

(** The records yielded while a text is read stay when the text goes
    on: the reader resumes in the state in which the first part left
    it. *)
Lemma read_records_app (d : N) (evs1 : list (option N)) : forall r,
  snd (read_records d (Some UnicodeDecodeError) r evs1)
  = Some UnicodeDecodeError ->
  exists r',
    forall ending evs2,
      read_records d ending r (evs1 ++ evs2)
      = (fst (read_records d (Some UnicodeDecodeError) r evs1)
           ++ fst (read_records d ending r' evs2),
         snd (read_records d ending r' evs2)).
Proof.
  induction evs1 as [|c evs1 IH]; intros r H.
  - exists r. intros ending evs2. cbn [app read_records fst].
    destruct (read_records d ending r evs2). reflexivity.
  - cbn [read_records] in H. cbn [app read_records].
    pose proof (step_spec d r c) as Hs.
    destruct (parse_process_char d r c) as [r1|f].
    + destruct c as [x|].
      * destruct (IH r1 H) as [r' Hr']. exists r'. exact Hr'.
      * destruct (state r1) eqn:E;
          try (destruct (IH r1 H) as [r' Hr']; exists r'; exact Hr').
        destruct (read_records d (Some UnicodeDecodeError) parse_reset evs1)
          as [rows e] eqn:E1.
        cbn [snd] in H. subst e.
        destruct (IH parse_reset) as [r' Hr'].
        { rewrite E1. reflexivity. }
        exists r'. intros ending evs2. rewrite Hr', E1. reflexivity.
    + exfalso. cbn [snd] in H. injection H as ->.
      destruct Hs as [[Hf _] | [Hf _]]; discriminate.
Qed.

(** X4. When the UTF-8 pass of [parse_rows] stops at a byte it cannot
    decode after whole lines that read the same under Latin-1 (as lines
    of pure ASCII do), the Latin-1 pass reads the file from its start
    and appends to the same list: the rows [rows1] appended before the
    error are the first rows of the Latin-1 pass too, so the result is
    [rows1], then [rows1] again, then the other rows of the file --
    unless the Latin-1 pass fails on a field beyond the field limit. *)
Theorem late_decoding_error_duplicates_rows
        (f : CsvFile) (d : N) (rest : text) (rows1 : list ParsedRow) :
  detect_delimiter (Some (first_read f)) = Ok [d] ->
  utf8_exhausted f = false ->
  whole_lines (utf8_lines f) rest ->
  latin1_lines f = utf8_lines f ++ rest ->
  dict_reader (reader d (Some UnicodeDecodeError) (utf8_lines f))
  = (rows1, Some UnicodeDecodeError) ->
  exists more,
    fst (dict_reader (reader d None (latin1_lines f))) = rows1 ++ more
    /\ (parse_rows (Some f) = Returned (rows1 ++ rows1 ++ more)
        \/ parse_rows (Some f) = Failed FieldLimitError)
    /\ (fits (latin1_lines f) ->
        parse_rows (Some f) = Returned (rows1 ++ rows1 ++ more)).
Proof.
  intros Hdet Hex Hwhole Hlat Hrows.
  rewrite (parse_rows_with f d Hdet), Hex, Hrows.
  pose proof (reader_ending d None (latin1_lines f)) as [Hend Hfit].
  assert (Hsnd : snd (reader d (Some UnicodeDecodeError) (utf8_lines f))
                 = Some UnicodeDecodeError).
  { rewrite <- snd_dict_reader, Hrows. reflexivity. }
  destruct (read_records_app d (events false (utf8_lines f)) parse_reset Hsnd)
    as [r' Hr'].
  assert (Hread : reader d None (latin1_lines f)
                  = (fst (reader d (Some UnicodeDecodeError) (utf8_lines f))
                       ++ fst (read_records d None r' (events false rest)),
                     snd (read_records d None r' (events false rest)))).
  { unfold reader at 1. rewrite Hlat, (events_whole_lines _ _ Hwhole).
    apply Hr'. }
  set (filtered := fun recs : list (list text) =>
                     filter (fun r => negb (is_blank r)) recs).
  assert (Hmore : exists more,
             fst (dict_reader (reader d None (latin1_lines f)))
             = rows1 ++ more).
  { rewrite Hread. unfold dict_reader in Hrows |- *. cbn [fst snd].
    destruct (fst (reader d (Some UnicodeDecodeError) (utf8_lines f)))
      as [|names body].
    - injection Hrows as <-.
      cbn [app]. eexists. reflexivity.
    - injection Hrows as <-. cbn [app fst].
      exists (map (to_dict names)
                  (filtered (fst (read_records d None r'
                                               (events false rest))))).
      rewrite filter_app, map_app. reflexivity. }
  destruct Hmore as [more Hmore]. exists more.
  split; [exact Hmore|].
  rewrite <- snd_dict_reader in Hend, Hfit.
  destruct (dict_reader (reader d None (latin1_lines f))) as [rows2 e2].
  cbn [fst snd] in *. subst rows2.
  split.
  - destruct Hend as [-> | ->]; [left | right]; reflexivity.
  - intros Hb. rewrite (Hfit Hb). reflexivity.
Qed.

(** ** What the decoders deliver stays encodable *)

Local Abbreviation event_encodable :=
  (fun ev : option N =>
     match ev with Some c => is_surrogate c = false | None => True end).

Local Abbreviation cell_encodable :=
  (fun kv : text * option text =>
     match snd kv with Some s => encodable s = true | None => True end).

Local Abbreviation object_encodable r :=
  (encodable (field r) = true
   /\ Forall (fun f => encodable f = true) (fields r)).

Lemma events_encodable (s : text) :
  forall b, encodable s = true -> Forall event_encodable (events b s).
Proof.
  induction s as [|c s IH]; intros b H.
  - destruct b; repeat constructor.
  - cbn [encodable forallb] in H. apply andb_true_iff in H.
    destruct H as [Hc Hs]. apply negb_true_iff in Hc.
    change (encodable s = true) in Hs.
    cbn [events]. destruct (c =? 10)%N.
    + repeat constructor; auto.
    + destruct (c =? 13)%N; [|constructor; auto].
      destruct s as [|c' s']; [repeat constructor; auto|].
      destruct (c' =? 10)%N; repeat constructor; auto.
Qed.

Lemma save_field_encodable (r : ReaderObj) (st : ParserState) :
  object_encodable r ->
  object_encodable (set_state (parse_save_field r) st).
Proof.
  intros [Hf Hfs]. cbn [set_state parse_save_field field fields].
  split; [reflexivity|]. apply Forall_app. split; [exact Hfs|].
  constructor; [exact Hf | constructor].
Qed.

Lemma add_char_encodable (r r' : ReaderObj) (c : N) :
  object_encodable r -> is_surrogate c = false ->
  parse_add_char r c = Returned r' ->
  object_encodable r'.
Proof.
  intros [Hf Hfs] Hc. unfold parse_add_char.
  destruct (field_limit <=? N.of_nat (List.length (field r)))%N;
    [discriminate|].
  intros H. injection H as <-. cbn [field fields].
  split; [|exact Hfs].
  rewrite encodable_app, Hf. cbn [encodable forallb andb].
  rewrite Hc. reflexivity.
Qed.

Lemma add_char_state_encodable (r r' : ReaderObj) (c : N)
      (st : ParserState) :
  object_encodable r -> is_surrogate c = false ->
  match parse_add_char r c with
  | Returned r0 => Returned (set_state r0 st)
  | Failed f => Failed f
  end = Returned r' ->
  object_encodable r'.
Proof.
  intros Hr Hc H.
  destruct (parse_add_char r c) as [r0|f] eqn:E; [|discriminate].
  injection H as <-.
  exact (add_char_encodable r r0 c Hr Hc E).
Qed.

Lemma start_field_encodable (d : N) (r r' : ReaderObj) (c : option N) :
  object_encodable r -> event_encodable c ->
  start_field d r c = Returned r' ->
  object_encodable r'.
Proof.
  intros Hr Hc. unfold start_field.
  destruct c as [x|].
  - destruct (is_nl (Some x)).
    + intros H. injection H as <-. apply save_field_encodable, Hr.
    + destruct (x =? quotechar)%N.
      * intros H. injection H as <-. exact Hr.
      * destruct (x =? d)%N.
        -- intros H. injection H as <-.
           exact (save_field_encodable r (state r) Hr).
        -- apply add_char_state_encodable; assumption.
  - intros H. injection H as <-. apply save_field_encodable, Hr.
Qed.

Lemma step_encodable (d : N) (r r' : ReaderObj) (c : option N) :
  object_encodable r -> event_encodable c ->
  parse_process_char d r c = Returned r' ->
  object_encodable r'.
Proof.
  intros Hr Hc. unfold parse_process_char.
  destruct (state r).
  - destruct c as [x|].
    + destruct (is_nl (Some x)).
      * intros H. injection H as <-. exact Hr.
      * apply start_field_encodable; assumption.
    + intros H. injection H as <-. exact Hr.
  - apply start_field_encodable; assumption.
  - destruct c as [x|].
    + destruct (is_nl (Some x)).
      * intros H. injection H as <-. apply save_field_encodable, Hr.
      * destruct (x =? d)%N.
        -- intros H. injection H as <-. apply save_field_encodable, Hr.
        -- apply add_char_encodable; assumption.
    + intros H. injection H as <-. apply save_field_encodable, Hr.
  - destruct c as [x|].
    + destruct (x =? quotechar)%N.
      * intros H. injection H as <-. exact Hr.
      * apply add_char_encodable; assumption.
    + intros H. injection H as <-. exact Hr.
  - destruct c as [x|].
    + destruct (x =? quotechar)%N.
      * apply add_char_state_encodable; assumption.
      * destruct (x =? d)%N.
        -- intros H. injection H as <-. apply save_field_encodable, Hr.
        -- destruct (is_nl (Some x)).
           ++ intros H. injection H as <-. apply save_field_encodable, Hr.
           ++ apply add_char_state_encodable; assumption.
    + intros H. injection H as <-. apply save_field_encodable, Hr.
  - destruct c as [x|].
    + destruct (is_nl (Some x)); [|discriminate].
      intros H. injection H as <-. exact Hr.
    + intros H. injection H as <-. exact Hr.
Qed.

Lemma read_records_encodable (d : N) (ending : option failure)
      (evs : list (option N)) :
  forall r,
    object_encodable r -> Forall event_encodable evs ->
    Forall (Forall (fun f => encodable f = true))
           (fst (read_records d ending r evs)).
Proof.
  induction evs as [|c evs IH]; intros r Hr Hevs.
  - cbn [read_records]. destruct ending; [constructor|].
    destruct (unfinished r); [|constructor].
    constructor; [|constructor].
    destruct Hr as [Hf Hfs]. cbn [parse_save_field fields].
    apply Forall_app. split; [exact Hfs|]. constructor; [exact Hf|constructor].
  - inversion Hevs as [|? ? Hc Hrest]; subst.
    cbn [read_records].
    destruct (parse_process_char d r c) as [r'|f] eqn:E; [|constructor].
    pose proof (step_encodable d r r' c Hr Hc E) as Hr'.
    assert (Hreset : object_encodable parse_reset)
      by (split; [reflexivity | constructor]).
    specialize (IH parse_reset Hreset Hrest) as IH0.
    specialize (IH r' Hr' Hrest).
    destruct c as [x|]; [exact IH|].
    destruct (state r'); try exact IH.
    destruct (read_records d ending parse_reset evs) as [rows e].
    cbn [fst] in *. constructor; [exact (proj2 Hr') | exact IH0].
Qed.

Lemma reader_encodable (d : N) (ending : option failure) (s : text) :
  encodable s = true ->
  Forall (Forall (fun f => encodable f = true)) (fst (reader d ending s)).
Proof.
  intros H. unfold reader. apply read_records_encodable.
  - split; [reflexivity | constructor].
  - apply events_encodable, H.
Qed.

Lemma dict_update_Forall (V : Type) (P : text * V -> Prop)
      (items : list (text * V)) :
  forall d, Forall P d -> Forall P items -> Forall P (Dict.update d items).
Proof.
  unfold Dict.update.
  induction items as [|[k v] items IH]; intros d Hd Hi; [exact Hd|].
  inversion Hi as [|? ? Hkv Hrest]; subst. cbn [fold_left fst snd].
  apply IH; [|exact Hrest]. apply dict_set_Forall; assumption.
Qed.

Lemma to_dict_encodable (names row : list text) :
  Forall (fun f => encodable f = true) row ->
  Forall cell_encodable (cells (to_dict names row)).
Proof.
  intros Hrow.
  assert (Hd : Forall cell_encodable
                 (Dict.update [] (combine names (map Some row)))).
  { apply dict_update_Forall; [constructor|].
    apply Forall_forall. intros [k v] Hin. apply in_combine_r in Hin.
    apply in_map_iff in Hin. destruct Hin as [f [<- Hf]].
    rewrite Forall_forall in Hrow. exact (Hrow f Hf). }
  unfold to_dict.
  destruct (Nat.ltb (List.length names) (List.length row)); cbn [cells];
    [exact Hd|].
  revert Hd. generalize (Dict.update [] (combine names (map Some row))).
  induction (skipn (List.length row) names) as [|k ks IH]; intros acc Hacc;
    [exact Hacc|].
  cbn [fold_left]. apply IH. apply dict_set_Forall; [exact I | exact Hacc].
Qed.

Lemma dict_reader_encodable (st : stream (list text)) :
  Forall (Forall (fun f => encodable f = true)) (fst st) ->
  Forall (fun r => Forall cell_encodable (cells r)) (fst (dict_reader st)).
Proof.
  intros H. unfold dict_reader.
  destruct (fst st) as [|names rest]; [constructor|].
  inversion H as [|? ? _ Hrest]; subst. cbn [fst].
  apply Forall_forall. intros r Hr. apply in_map_iff in Hr.
  destruct Hr as [row [<- Hrow]]. apply filter_In in Hrow.
  apply to_dict_encodable.
  rewrite Forall_forall in Hrest. exact (Hrest row (proj1 Hrow)).
Qed.

(** The rows of a file whose decoded text has no surrogate have none
    in their cells. *)
Lemma parse_rows_encodable (f : CsvFile) (rows : list ParsedRow) :
  encodable (utf8_lines f) = true ->
  encodable (latin1_lines f) = true ->
  parse_rows (Some f) = Returned rows ->
  Forall (Forall cell_encodable) (map cells rows).
Proof.
  intros Hu Hl H.
  assert (Hd : exists d, detect_delimiter (Some (first_read f)) = Ok [d]).
  { destruct (detected_delimiter (first_read f)); eauto. }
  destruct Hd as [d Hd]. rewrite (parse_rows_with f d Hd) in H.
  pose proof (dict_reader_encodable _
                (reader_encodable d
                   (if utf8_exhausted f then None
                    else Some UnicodeDecodeError) (utf8_lines f) Hu)) as A.
  pose proof (dict_reader_encodable _
                (reader_encodable d None (latin1_lines f) Hl)) as B.
  destruct (dict_reader (reader d (if utf8_exhausted f then None
                                   else Some UnicodeDecodeError)
                                (utf8_lines f))) as [rows1 e1].
  destruct (dict_reader (reader d None (latin1_lines f))) as [rows2 e2].
  cbn [fst] in A, B.
  assert (Hall : Forall (fun r => Forall cell_encodable (cells r)) rows).
  { destruct e1 as [e1|].
    - destruct e1; try discriminate.
      destruct e2; [discriminate|]. injection H as <-.
      apply Forall_app. split; assumption.
    - injection H as <-. exact A. }
  apply Forall_forall. intros row Hrow. apply in_map_iff in Hrow.
  destruct Hrow as [r [<- Hr]]. rewrite Forall_forall in Hall.
  exact (Hall r Hr).
Qed.

End CsvFacts.

(* ================================================================== *)
(** * From file to file *)
(* ================================================================== *)

Module CliFacts.

Import Csv. Import CsvFacts. Import Cli.

Section Pipeline.

Variable unicode_upper : N -> list N.
Variable unicode_decimal : N -> option N.

Local Abbreviation convert_rows :=
  (Converter.convert_rows unicode_upper unicode_decimal).
Local Abbreviation convert_out :=
  (Value.convert_out unicode_upper unicode_decimal).
Local Abbreviation directory_of := (Value.directory_of unicode_upper).
Local Abbreviation directory_available :=
  (Value.directory_available unicode_upper).
Local Abbreviation process_one :=
  (Cli.process_one unicode_upper unicode_decimal).

Lemma convert_out_keys env cache rows :
  Forall (fun r => Dict.keys r = TEMPLATE_HEADERS)
         (convert_out env cache rows).
Proof.
  apply Forall_forall. intros r Hin.
  apply In_nth_error in Hin. destruct Hin as [i Hi].
  rewrite convert_out_nth in Hi.
  destruct (nth_error (survivors rows) i) as [row|]; [|discriminate].
  injection Hi as <-.
  destruct (begins_group_at rows i);
    [apply keys_header_row_of | reflexivity].
Qed.

(** ** The output stays encodable *)

Local Abbreviation cell_encodable :=
  (fun kv : text * option text =>
     match snd kv with Some s => encodable s = true | None => True end).

Lemma ascii_is_no_surrogate (c : N) :
  (c < 128)%N -> is_surrogate c = false.
Proof.
  intros H. unfold is_surrogate. apply andb_false_iff. left.
  apply N.leb_gt. lia.
Qed.

Lemma lstrip_incl (s : text) : incl (lstrip s) s.
Proof.
  induction s as [|c s IH]; [apply incl_refl|].
  cbn [lstrip]. destruct (is_space c); [|apply incl_refl].
  apply incl_tl, IH.
Qed.

Lemma strip_incl (s : text) : incl (strip s) s.
Proof.
  unfold strip, rstrip. intros c Hc.
  apply in_rev in Hc. apply lstrip_incl in Hc. apply in_rev in Hc.
  apply lstrip_incl in Hc. exact Hc.
Qed.

Lemma field_value_encodable (row : Row) (keys : list text) :
  Forall cell_encodable row -> encodable (field_value row keys) = true.
Proof.
  intros Hrow. induction keys as [|k keys IH]; [reflexivity|].
  cbn [field_value].
  destruct (Dict.get k row) as [[s|]|] eqn:E; try exact IH.
  apply dict_get_In in E. rewrite Forall_forall in Hrow.
  specialize (Hrow _ E). cbn [snd] in Hrow.
  exact (encodable_incl _ _ (strip_incl s) Hrow).
Qed.

Lemma field_value_opt_encodable (row : Row) (key : option text) :
  Forall cell_encodable row -> encodable (field_value_opt row key) = true.
Proof.
  intros Hrow. destruct key as [[|c k]|]; try reflexivity.
  apply field_value_encodable, Hrow.
Qed.

Lemma py_or_encodable (v : option text) (d : text) :
  match v with Some s => encodable s = true | None => True end ->
  encodable d = true ->
  encodable (py_or v d) = true.
Proof. destruct v as [[|c s]|]; cbn [py_or]; auto. Qed.

Lemma uint_digits_encodable (u : Decimal.uint) :
  encodable (uint_digits u) = true.
Proof.
  induction u; cbn [uint_digits]; try reflexivity;
    change (encodable (?c :: ?t)) with (negb (is_surrogate c) && encodable t);
    rewrite IHu; reflexivity.
Qed.

Lemma digit_is_no_surrogate (n : N) :
  (n < 10)%N -> is_surrogate (48 + n) = false.
Proof. intros H. apply ascii_is_no_surrogate. lia. Qed.

Lemma format_2f_encodable (x : pyfloat) : encodable (format_2f x) = true.
Proof.
  destruct x as [neg m e|neg|]; [|destruct neg; reflexivity|reflexivity].
  unfold format_2f. cbv zeta.
  rewrite !encodable_app.
  apply andb_true_iff. split; [destruct neg; reflexivity|].
  apply andb_true_iff. split; [apply uint_digits_encodable|].
  cbn [encodable forallb].
  rewrite !digit_is_no_surrogate; [reflexivity| |].
  - apply N.mod_upper_bound. discriminate.
  - apply N.Div0.div_lt_upper_bound. apply N.mod_upper_bound. discriminate.
Qed.

Lemma pad2_encodable (n : nat) : encodable (pad2 n) = true.
Proof.
  unfold pad2. cbn [encodable forallb].
  rewrite !digit_is_no_surrogate; [reflexivity| |].
  - pose proof (Nat.mod_upper_bound n 10). lia.
  - pose proof (Nat.mod_upper_bound (n / 10) 10). lia.
Qed.

Lemma line_name_encodable (row : Row) :
  Forall cell_encodable row -> encodable (line_name row) = true.
Proof.
  intros H. unfold line_name.
  rewrite !encodable_app, !field_value_encodable by exact H. reflexivity.
Qed.

Lemma template_row_encodable
      (name partner user cust sales line qty price desc : text) :
  encodable name = true -> encodable partner = true ->
  encodable user = true -> encodable cust = true ->
  encodable sales = true -> encodable line = true ->
  encodable qty = true -> encodable price = true ->
  encodable desc = true ->
  Forall (fun kv => encodable (snd kv) = true)
         (template_row name partner user cust sales line qty price desc).
Proof.
  intros. unfold template_row. repeat constructor; assumption.
Qed.

Lemma line_row_encodable (row : Row) :
  Forall cell_encodable row ->
  Forall (fun kv => encodable (snd kv) = true)
         (line_row unicode_decimal row).
Proof.
  intros H. unfold Value.line_row.
  apply template_row_encodable; try reflexivity;
    try apply format_2f_encodable;
    [apply line_name_encodable | apply field_value_encodable]; exact H.
Qed.

Lemma salesperson_of_encodable (sp_map : Dict.dict text) (row : Row) :
  Forall (fun kv => encodable (snd kv) = true) sp_map ->
  encodable (salesperson_of unicode_upper sp_map row) = true.
Proof.
  intros H. unfold salesperson_of. apply py_or_encodable; [|reflexivity].
  destruct (truthy _); [|reflexivity].
  destruct (Dict.get _ sp_map) as [name|] eqn:E; [|exact I].
  apply dict_get_In in E. rewrite Forall_forall in H. exact (H _ E).
Qed.

Lemma header_row_of_encodable env cache rows (row : Row) :
  Forall (fun kv => encodable (snd kv) = true) (directory_of env cache) ->
  Forall cell_encodable row ->
  Forall (fun kv => encodable (snd kv) = true)
         (header_row_of unicode_upper unicode_decimal env cache rows row).
Proof.
  intros Hdir H. unfold header_row_of.
  destruct (first_header_key (header_keys_of rows) doc_keys) as [dk|].
  - unfold doc_header_row. cbv zeta.
    apply template_row_encodable;
      try apply format_2f_encodable;
      try (apply salesperson_of_encodable; exact Hdir);
      try (apply line_name_encodable; exact H);
      try (apply field_value_encodable; exact H).
    + rewrite encodable_app. cbn [andb].
      change (encodable (cp "O")) with true. cbn [andb].
      apply (encodable_incl _ (field_value row [dk]));
        [apply incl_filter | apply field_value_encodable; exact H].
    + apply py_or_encodable; [|reflexivity].
      apply field_value_opt_encodable, H.
    + apply py_or_encodable; [apply field_value_opt_encodable, H|].
      apply py_or_encodable; [|reflexivity].
      apply field_value_opt_encodable, H.
  - unfold single_header_row.
    apply template_row_encodable; try reflexivity;
      try apply format_2f_encodable;
      try (apply line_name_encodable; exact H);
      try (apply field_value_encodable; exact H).
    unfold strftime_mdHM.
    rewrite !encodable_app, !pad2_encodable. reflexivity.
Qed.

Lemma convert_out_encodable env cache (rows : list Row) :
  Forall (fun kv => encodable (snd kv) = true) (directory_of env cache) ->
  Forall (Forall cell_encodable) rows ->
  Forall (fun r => Forall (fun kv => encodable (snd kv) = true) r)
         (convert_out env cache rows).
Proof.
  intros Hdir Hrows.
  apply Forall_forall. intros r Hin.
  apply In_nth_error in Hin. destruct Hin as [i Hi].
  rewrite convert_out_nth in Hi.
  destruct (nth_error (survivors rows) i) as [row|] eqn:E; [|discriminate].
  injection Hi as <-.
  assert (Hrow : Forall cell_encodable row).
  { apply nth_error_In in E. apply filter_In in E.
    rewrite Forall_forall in Hrows. exact (Hrows row (proj1 E)). }
  destruct (begins_group_at rows i);
    [apply header_row_of_encodable | apply line_row_encodable]; assumption.
Qed.

(** X5. [process_one] on a file that is missing raises before anything is
    written or loaded.  On a file of at most 131072 characters it
    returns normally when the call gets a salesperson directory (one
    cached, or a list that is absent or loads), provided the texts are
    as the decoders deliver them, without surrogate code points, in the
    file and in the names of the directory: the output file holds the
    header line of the template and one line per converted row, and
    just the header line when the input has no data line; the directory
    is in the cache afterwards.  When the file parses but nothing is
    cached and reading the salesperson list raises, that exception ends
    the call: no output file is opened and the cache stays unset. *)
Theorem process_one_outcome env cache :
  process_one env cache None
  = (None, Some (Builtin FileNotFoundError), cache)
  /\ (forall f,
        fits (utf8_lines f) ->
        fits (latin1_lines f) ->
        encodable (utf8_lines f) = true ->
        encodable (latin1_lines f) = true ->
        directory_available env cache ->
        Forall (fun kv => encodable (snd kv) = true)
               (directory_of env cache) ->
        exists rows out,
          parse_rows (Some f) = Returned rows
          /\ fst (convert_rows env cache (map cells rows)) = Ok out
          /\ List.length out = List.length (survivors (map cells rows))
          /\ process_one env cache (Some f)
             = (Some (flat_map (writerow 44)
                               (TEMPLATE_HEADERS :: map (map snd) out)),
                None, Some (directory_of env cache))
          /\ (rows = [] ->
              process_one env cache (Some f)
              = (Some (writerow 44 TEMPLATE_HEADERS), None,
                 Some (directory_of env cache))))
  /\ (forall f rows e,
        parse_rows (Some f) = Returned rows ->
        _load_salesperson_map unicode_upper (directory_file env) = Raise e ->
        process_one env None (Some f) = (None, Some (Builtin e), None)).
Proof.
  split; [reflexivity|]. split.
  - intros f Hu Hl Heu Hel Hav Hdir.
    destruct (proj2 (parse_rows_cases f) Hu Hl) as [rows Hrows].
    exists rows, (convert_out env cache (map cells rows)).
    split; [exact Hrows|].
    split; [apply convert_rows_value, Hav|].
    split; [apply convert_out_length|].
    assert (Hp : process_one env cache (Some f)
                 = (Some (flat_map (writerow 44)
                            (TEMPLATE_HEADERS
                               :: map (map snd)
                                      (convert_out env cache
                                                   (map cells rows)))),
                    None, Some (directory_of env cache))).
    { unfold Cli.process_one.
      rewrite Hrows.
      rewrite (@convert_rows_pair unicode_upper unicode_decimal _ _
                 (map cells rows) Hav).
      rewrite (write_template_csv_value _ (convert_out_keys env cache _)
                 (convert_out_encodable env cache _ Hdir
                    (parse_rows_encodable f rows Heu Hel Hrows))).
      reflexivity. }
    split; [exact Hp|].
    intros ->. rewrite Hp. reflexivity.
  - intros f rows e Hrows Hload. unfold Cli.process_one.
    rewrite Hrows.
    rewrite (@convert_rows_raises unicode_upper unicode_decimal _
               (map cells rows) _ Hload).
    reflexivity.
Qed.

End Pipeline.

(** ** A run over a folder *)

Section FolderRun.

Variable unicode_upper : N -> list N.
Variable unicode_decimal : N -> option N.
Variable str_lower : text -> text.

Local Abbreviation process_one :=
  (Cli.process_one unicode_upper unicode_decimal).
Local Abbreviation process_each :=
  (Cli.process_each unicode_upper unicode_decimal str_lower).
Local Abbreviation is_csv_name := (Cli.is_csv_name str_lower).
Local Abbreviation run_main :=
  (Cli.main unicode_upper unicode_decimal str_lower).

Lemma process_each_app before :
  forall cache outs cache0 more,
    process_each cache before = (outs, None, cache0) ->
    process_each cache (before ++ more)
    = (let '(outs', err, cache') := process_each cache0 more in
       (outs ++ outs', err, cache')).
Proof.
  induction before as [|b before IH]; intros cache outs cache0 more H.
  - cbn [Cli.process_each] in H. injection H as <- <-.
    cbn [app]. destruct (process_each cache more) as [[o e] c]. reflexivity.
  - cbn [app Cli.process_each] in *.
    destruct (Cli.is_csv_name str_lower b); [|apply IH; exact H].
    destruct (process_one (entry_env b) cache (entry_file b))
      as [[out err] cache1].
    destruct err as [f|]; [discriminate|].
    destruct (process_each cache1 before) as [[outs1 err1] cache2] eqn:E.
    injection H as <- -> <-.
    rewrite (IH cache1 outs1 cache2 more E).
    destruct (process_each cache2 more) as [[o e] c].
    rewrite app_assoc. reflexivity.
Qed.

Lemma process_each_filter entries :
  forall cache,
    process_each cache (filter is_csv_name entries)
    = process_each cache entries.
Proof.
  induction entries as [|e entries IH]; intros cache; [reflexivity|].
  cbn [filter Cli.process_each].
  destruct (Cli.is_csv_name str_lower e) eqn:E; [|apply IH].
  cbn [Cli.process_each]. rewrite E.
  destruct (process_one (entry_env e) cache (entry_file e))
    as [[out err] cache1].
  destruct err; [reflexivity|]. rewrite IH. reflexivity.
Qed.

(** X14. A run of [main] over a folder ends at the first file on which
    [process_one] raises: the output files of the files before it have
    been written, the files after it are not looked at, and the
    exception is that of the failing file.  Names that do not end in
    ".csv" once lower-cased take no part in the run. *)
Theorem folder_run_stops_at_first_failure
        (before : list DirEntry) (e : DirEntry) (after : list DirEntry)
        (outs : list text) (cache0 cache1 : option (Dict.dict text))
        (out : option text) (f : failure) :
  main unicode_upper unicode_decimal str_lower (Folder before)
  = (outs, None, cache0) ->
  is_csv_name e = true ->
  process_one (entry_env e) cache0 (entry_file e) = (out, Some f, cache1) ->
  main unicode_upper unicode_decimal str_lower
       (Folder (before ++ e :: after))
  = (outs ++ match out with Some t => [t] | None => [] end, Some f, cache1)
  /\ main unicode_upper unicode_decimal str_lower
          (Folder (filter is_csv_name (before ++ e :: after)))
     = main unicode_upper unicode_decimal str_lower
            (Folder (before ++ e :: after)).
Proof.
  intros Hbefore Hcsv He. unfold main in *. split.
  - rewrite (process_each_app before None outs cache0 (e :: after) Hbefore).
    cbn [Cli.process_each]. rewrite Hcsv, He. reflexivity.
  - apply process_each_filter.
Qed.

(** With a directory in the cache, [process_one] takes the clock from
    its environment and nothing else, and leaves the cache as it is. *)
Lemma process_one_cached env env' sp_map file :
  now env = now env' ->
  process_one env (Some sp_map) file = process_one env' (Some sp_map) file
  /\ snd (process_one env (Some sp_map) file) = Some sp_map.
Proof.
  intros Hnow. unfold Cli.process_one.
  destruct (parse_rows file) as [rows|f]; [|split; reflexivity].
  rewrite !(@convert_rows_pair unicode_upper unicode_decimal _ _
              (map cells rows)
              (@cached_directory_available unicode_upper _ sp_map)).
  unfold Value.convert_out, Value.directory_of. cbn [_get_salesperson_map fst].
  rewrite Hnow.
  destruct (write_template_csv _) as [t e].
  split; reflexivity.
Qed.

Lemma process_each_cached sp_map entries entries' :
  Forall2 same_but_list entries entries' ->
  process_each (Some sp_map) entries = process_each (Some sp_map) entries'
  /\ snd (process_each (Some sp_map) entries) = Some sp_map.
Proof.
  induction 1 as [|e e' entries entries' [Hname [Hnow Hfile]] _ [IH1 IH2]];
    [split; reflexivity|].
  cbn [Cli.process_each].
  unfold Cli.is_csv_name. rewrite <- Hname, <- Hfile.
  destruct (endswith _ _); [|split; assumption].
  destruct (process_one_cached (entry_env e) (entry_env e') sp_map
                               (entry_file e) Hnow) as [<- Hc].
  destruct (process_one (entry_env e) (Some sp_map) (entry_file e))
    as [[out err] cache1].
  cbn [snd] in Hc. subst cache1.
  destruct err as [f|]; [split; reflexivity|].
  rewrite <- IH1.
  destruct (process_each (Some sp_map) entries) as [[outs err'] cache2].
  cbn [snd] in IH2. subst cache2. split; reflexivity.
Qed.

(** X6. In a run of [main] over a folder the salesperson list is read
    once, at the first conversion.  When the first name is a CSV file
    that parses and the list loads at that moment, the files after it
    are converted with the directory loaded then, whatever the list on
    disk is when the loop reaches them (changed, removed, unreadable):
    the run is the same, and it ends with that directory in the
    cache. *)
Theorem folder_run_reads_list_once
        (e0 : DirEntry) (rest rest' : list DirEntry)
        (rows0 : list ParsedRow) (sp_map : Dict.dict text) :
  is_csv_name e0 = true ->
  parse_rows (entry_file e0) = Returned rows0 ->
  _load_salesperson_map unicode_upper (directory_file (entry_env e0))
  = Ok sp_map ->
  Forall2 same_but_list rest rest' ->
  run_main (Folder (e0 :: rest')) = run_main (Folder (e0 :: rest))
  /\ snd (run_main (Folder (e0 :: rest))) = Some sp_map.
Proof.
  intros Hcsv Hrows Hload Hsame.
  unfold Cli.main. cbn [Cli.process_each]. rewrite Hcsv.
  assert (Hc : snd (process_one (entry_env e0) None (entry_file e0))
               = Some sp_map).
  { unfold Cli.process_one. rewrite Hrows.
    destruct (@loaded_directory_available unicode_upper (entry_env e0) sp_map
                                             Hload) as [Hav Hdir].
    rewrite (@convert_rows_pair unicode_upper unicode_decimal _ _
               (map cells rows0) Hav), Hdir.
    destruct (write_template_csv _) as [t e]. reflexivity. }
  destruct (process_one (entry_env e0) None (entry_file e0))
    as [[out err] cache1].
  cbn [snd] in Hc. subst cache1.
  destruct err as [f|]; [split; reflexivity|].
  destruct (process_each_cached sp_map rest rest' Hsame) as [<- Hc].
  destruct (process_each (Some sp_map) rest) as [[outs err'] cache2].
  cbn [snd] in Hc. subst cache2. split; reflexivity.
Qed.

End FolderRun.

End CliFacts.

(* ================================================================== *)
(** * Cells and numbers *)
(* ================================================================== *)

Module CellFacts.

(** ** Trimming *)

(** A text that does not start with white space. *)
Local Abbreviation starts_clean s :=
  (match s with c :: _ => is_space c = false | [] => True end).

Lemma lstrip_split (s : text) :
  exists sp, s = sp ++ lstrip s /\ forallb is_space sp = true.
Proof.
  induction s as [|c s [sp [Hs Hsp]]]; [exists []; auto|].
  cbn [lstrip]. destruct (is_space c) eqn:E.
  - exists (c :: sp). split; [cbn [app]; congruence|].
    cbn [forallb]. rewrite E, Hsp. reflexivity.
  - exists []. auto.
Qed.

Lemma lstrip_clean (s : text) : starts_clean (lstrip s).
Proof.
  induction s as [|c s IH]; [exact I|].
  cbn [lstrip]. destruct (is_space c) eqn:E; [exact IH | exact E].
Qed.

Lemma lstrip_of_clean (s : text) : starts_clean s -> lstrip s = s.
Proof. destruct s as [|c s]; [reflexivity|]. cbn. intros ->. reflexivity. Qed.

Lemma lstrip_spaces (sp : text) :
  forallb is_space sp = true -> lstrip sp = [].
Proof.
  induction sp as [|c sp IH]; [reflexivity|].
  cbn [forallb lstrip]. intros H. apply andb_true_iff in H.
  destruct H as [-> H]. exact (IH H).
Qed.

Lemma rstrip_clean_end (s : text) : starts_clean (rev (rstrip s)).
Proof. unfold rstrip. rewrite rev_involutive. apply lstrip_clean. Qed.

Lemma rstrip_keeps_start (s : text) :
  starts_clean s -> starts_clean (rstrip s).
Proof.
  intros Hs. unfold rstrip.
  destruct (lstrip_split (rev s)) as [sp [Hrev _]].
  assert (E : s = rev (lstrip (rev s)) ++ rev sp).
  { rewrite <- rev_app_distr, <- Hrev, rev_involutive. reflexivity. }
  destruct (rev (lstrip (rev s))) as [|c u]; [exact I|].
  rewrite E in Hs. exact Hs.
Qed.

Lemma strip_clean (s : text) :
  starts_clean (strip s) /\ starts_clean (rev (strip s)).
Proof.
  unfold strip. split.
  - apply rstrip_keeps_start, lstrip_clean.
  - apply rstrip_clean_end.
Qed.

Lemma strip_of_clean (s : text) :
  starts_clean s -> starts_clean (rev s) -> strip s = s.
Proof.
  intros H1 H2. unfold strip, rstrip.
  rewrite (lstrip_of_clean s H1), (lstrip_of_clean (rev s) H2).
  apply rev_involutive.
Qed.

Lemma strip_spaces (s : text) : forallb is_space s = true -> strip s = [].
Proof.
  intros H. unfold strip. rewrite (lstrip_spaces s H). reflexivity.
Qed.

Lemma field_value_clean (row : Row) (keys : list text) :
  starts_clean (field_value row keys)
  /\ starts_clean (rev (field_value row keys)).
Proof.
  induction keys as [|k keys IH]; [split; exact I|].
  cbn [field_value]. destruct (Dict.get k row) as [[s|]|]; try exact IH.
  apply strip_clean.
Qed.

(** X10. Every cell [get_val] reads comes out trimmed: it neither starts nor
    ends with white space, so trimming it again changes nothing; and a
    cell of white space only reads as the empty string, so that a row
    whose SKU cell is blank in this sense is skipped like one without
    SKU. *)
Theorem cells_are_trimmed :
  (forall row keys,
      exists v,
        get_val row keys = Ok v
        /\ strip v = v
        /\ match v with c :: _ => is_space c = false | [] => True end
        /\ match rev v with c :: _ => is_space c = false | [] => True end)
  /\ (forall (row : Row) (k : text) (keys : list text) (s : text),
        Dict.get k row = Some (Some s) ->
        forallb is_space s = true ->
        get_val row (k :: keys) = Ok [])
  /\ (forall (row : Row) (s : text),
        Dict.get (cp "SKU") row = Some (Some s) ->
        forallb is_space s = true ->
        survives row = false).
Proof.
  split; [|split].
  - intros row keys. exists (field_value row keys).
    destruct (field_value_clean row keys) as [H1 H2].
    split; [apply get_val_value|].
    split; [apply strip_of_clean; assumption|]. split; assumption.
  - intros row k keys s Hget Hs. rewrite get_val_value.
    cbn [field_value]. rewrite Hget, (strip_spaces s Hs). reflexivity.
  - intros row s Hget Hs. unfold survives, sku_keys.
    cbn [field_value]. rewrite Hget, (strip_spaces s Hs). reflexivity.
Qed.

(** ** Commas in numbers *)

Section Numbers.

Variable unicode_decimal : N -> option N.

Local Abbreviation parse_number := (Converter.parse_number unicode_decimal).

Lemma remove_commas_idem (t : text) :
  remove_commas (remove_commas t) = remove_commas t.
Proof.
  unfold remove_commas. induction t as [|c t IH]; [reflexivity|].
  cbn [filter]. destruct (negb (c =? 44)%N) eqn:E; [|exact IH].
  cbn [filter]. rewrite E, IH. reflexivity.
Qed.

(** X11. Commas are dropped wherever they stand in a quantity or price, not
    only between groups of three digits: a number is read as the same
    text without its commas.  A decimal comma therefore multiplies the
    amount: "19,50" is read as 1950. *)
Theorem commas_are_dropped :
  (forall t, parse_number t = parse_number (remove_commas t))
  /\ (forall a b, parse_number (a ++ 44%N :: b) = parse_number (a ++ b))
  /\ format_2f (parse_number (cp "19,50")) = cp "1950.00"
  /\ format_2f (parse_number (cp "1,2,3")) = cp "123.00"
  /\ format_2f (parse_number (cp ",")) = cp "0.00".
Proof.
  assert (H : forall t, parse_number t = parse_number (remove_commas t)).
  { intros t. unfold Converter.parse_number.
    rewrite remove_commas_idem.
    destruct t as [|c t]; [reflexivity|].
    cbn [truthy].
    destruct (remove_commas (c :: t)) as [|c' t'] eqn:E; reflexivity. }
  split; [exact H|]. split.
  - intros a b. rewrite (H (a ++ 44%N :: b)), (H (a ++ b)).
    f_equal. unfold remove_commas. rewrite !filter_app. reflexivity.
  - repeat split; vm_compute; reflexivity.
Qed.

End Numbers.

End CellFacts.

(* ================================================================== *)
(** * Amounts that print exactly *)
(* ================================================================== *)

Module NumberFacts.

Local Open Scope Z_scope.

Lemma div_half_even_exact (a d : Z) :
  0 < d -> div_half_even (a * d) d = a.
Proof.
  intros Hd. unfold div_half_even.
  rewrite Z.div_mul, Z.mod_mul by lia.
  replace (d <? 2 * 0) with false by (symmetry; apply Z.ltb_ge; lia).
  replace (d =? 2 * 0) with false by (symmetry; apply Z.eqb_neq; lia).
  reflexivity.
Qed.

Lemma round_decimal_exact (v : Z) :
  0 <= v < 2 ^ 53 ->
  exists m e,
    round_decimal false v 0 = Finite false m e
    /\ e <= 0 /\ m = v * 2 ^ (- e).
Proof.
  intros [H0 H53].
  destruct (Z.eq_dec v 0) as [->|Hv].
  { exists 0, 0. repeat split; reflexivity || lia. }
  assert (Hpos : 0 < v) by lia.
  pose proof (Z.log2_spec v Hpos) as [Hlo Hhi].
  pose proof (Z.log2_nonneg v) as HL0.
  assert (HL : Z.log2 v < 53) by (apply Z.log2_lt_pow2; assumption).
  remember (Z.log2 v) as L eqn:EL.
  assert (HP : 0 < 2 ^ (52 - L)) by (apply Z.pow_pos_nonneg; lia).
  assert (E52 : 2 ^ L * 2 ^ (52 - L) = 2 ^ 52).
  { rewrite <- Z.pow_add_r by lia. f_equal. lia. }
  assert (E53 : 2 ^ (Z.succ L) * 2 ^ (52 - L) = 2 ^ 53).
  { rewrite <- Z.pow_add_r by lia. f_equal. lia. }
  assert (Hq1 : 2 ^ 52 <= v * 2 ^ (52 - L)) by nia.
  assert (Hq2 : v * 2 ^ (52 - L) < 2 ^ 53) by nia.
  exists (v * 2 ^ (52 - L)), (L - 52).
  split; [|split; [lia | f_equal; f_equal; lia]].
  unfold round_decimal.
  replace (v =? 0) with false by (symmetry; apply Z.eqb_neq; lia).
  change (0 <=? 0) with true. cbv iota.
  change (10 ^ 0) with 1. change (Z.log2 1) with 0.
  rewrite Z.mul_1_r, <- EL.
  replace (L - 0 - 52) with (L - 52) by lia.
  assert (Hscaled :
            (if 0 <=? L - 52 then v / (1 * 2 ^ (L - 52))
             else v * 2 ^ (- (L - 52)) / 1) = v * 2 ^ (52 - L)).
  { destruct (0 <=? L - 52) eqn:E.
    - apply Z.leb_le in E.
      replace (L - 52) with 0 by lia. replace (52 - L) with 0 by lia.
      change (2 ^ 0) with 1. change (1 * 1) with 1.
      rewrite Z.div_1_r. lia.
    - rewrite Z.div_1_r. f_equal. f_equal. lia. }
  assert (Hround :
            (if 0 <=? L - 52 then div_half_even v (1 * 2 ^ (L - 52))
             else div_half_even (v * 2 ^ (- (L - 52))) 1)
            = v * 2 ^ (52 - L)).
  { destruct (0 <=? L - 52) eqn:E.
    - apply Z.leb_le in E.
      replace (L - 52) with 0 by lia. replace (52 - L) with 0 by lia.
      change (2 ^ 0) with 1. change (1 * 1) with 1.
      transitivity (div_half_even (v * 1) 1); [f_equal; lia|].
      rewrite div_half_even_exact; lia.
    - transitivity (div_half_even (v * 2 ^ (52 - L) * 1) 1).
      + f_equal. rewrite Z.mul_1_r. f_equal. f_equal. lia.
      + apply div_half_even_exact. lia. }
  cbv zeta. rewrite Hscaled.
  replace (v * 2 ^ (52 - L) <? 2 ^ 52) with false
    by (symmetry; apply Z.ltb_ge; exact Hq1).
  replace (2 ^ 53 <=? v * 2 ^ (52 - L)) with false
    by (symmetry; apply Z.leb_gt; exact Hq2).
  replace (Z.max (L - 52) (-1074)) with (L - 52) by lia.
  rewrite Hround.
  replace (v * 2 ^ (52 - L) =? 2 ^ 53) with false
    by (symmetry; apply Z.eqb_neq; lia).
  replace (971 <? L - 52) with false by (symmetry; apply Z.ltb_ge; lia).
  reflexivity.
Qed.

Lemma format_2f_exact (m e v : Z) :
  0 <= v -> e <= 0 -> m = v * 2 ^ (- e) ->
  format_2f (Finite false m e) = decimal_of_N (Z.to_N v) ++ cp ".00".
Proof.
  intros Hv He ->. unfold format_2f. cbv zeta.
  assert (Hh : (if 0 <=? e then v * 2 ^ (- e) * 2 ^ e * 100
                else div_half_even (v * 2 ^ (- e) * 100) (2 ^ (- e)))
               = v * 100).
  { assert (HP : 0 < 2 ^ (- e)) by (apply Z.pow_pos_nonneg; lia).
    destruct (0 <=? e) eqn:E.
    - apply Z.leb_le in E. assert (e = 0) by lia. subst e.
      change (2 ^ (- 0)) with 1. change (2 ^ 0) with 1. lia.
    - replace (v * 2 ^ (- e) * 100) with (v * 100 * 2 ^ (- e)) by lia.
      apply div_half_even_exact, HP. }
  rewrite Hh.
  assert (Hn : Z.to_N (v * 100) = (Z.to_N v * 100)%N) by lia.
  rewrite Hn.
  rewrite N.div_mul by discriminate.
  rewrite N.Div0.mod_mul.
  assert (H10 : ((Z.to_N v * 100) mod 10 = 0)%N).
  { replace (Z.to_N v * 100)%N with (Z.to_N v * 10 * 10)%N by lia.
    apply N.Div0.mod_mul. }
  rewrite H10. reflexivity.
Qed.


Local Open Scope N_scope.

Lemma digit_bounds (c : N) : is_digit c = true -> 48 <= c <= 57.
Proof.
  unfold is_digit. intros H. apply andb_true_iff in H.
  destruct H as [H1 H2]. apply N.leb_le in H1, H2. lia.
Qed.

Lemma span_digits_all (s : text) :
  forallb is_digit s = true ->
  span_digits s = (map (fun c => c - 48) s, []).
Proof.
  induction s as [|c s IH]; intros H; [reflexivity|].
  cbn [forallb] in H. apply andb_true_iff in H. destruct H as [Hc Hs].
  cbn [span_digits map]. rewrite Hc, (IH Hs). reflexivity.
Qed.

Lemma parse_sign_digit (c : N) (s : text) :
  is_digit c = true -> parse_sign (c :: s) = (false, c :: s).
Proof.
  intros H. apply digit_bounds in H.
  assert (E : c = 48 \/ c = 49 \/ c = 50 \/ c = 51 \/ c = 52 \/ c = 53
              \/ c = 54 \/ c = 55 \/ c = 56 \/ c = 57) by lia.
  repeat (destruct E as [-> | E]; [reflexivity|]). subst. reflexivity.
Qed.

Lemma c_lstrip_digit (c : N) (s : text) :
  is_digit c = true -> c_lstrip (c :: s) = c :: s.
Proof.
  intros H. apply digit_bounds in H. cbn [c_lstrip].
  assert (E : is_c_space c = false).
  { unfold is_c_space. apply orb_false_iff. split.
    - apply andb_false_iff. right. apply N.leb_gt. lia.
    - apply N.eqb_neq. lia. }
  rewrite E. reflexivity.
Qed.

Lemma c_strip_digits (s : text) :
  forallb is_digit s = true -> c_strip s = s.
Proof.
  intros H. unfold c_strip.
  assert (L : forall u, forallb is_digit u = true -> c_lstrip u = u).
  { intros [|c u] Hu; [reflexivity|]. apply c_lstrip_digit.
    cbn [forallb] in Hu. apply andb_true_iff in Hu. exact (proj1 Hu). }
  rewrite (L s H), L, rev_involutive; [reflexivity|].
  rewrite forallb_forall in *. intros c Hc. apply H, in_rev, Hc.
Qed.

Lemma float_digits (unicode_decimal : N -> option N) (s : text) :
  s <> [] -> forallb is_digit s = true ->
  PyFloat.float unicode_decimal s
  = Ok (round_decimal false (digits_value (map (fun c => c - 48) s)) 0).
Proof.
  intros Hne H. unfold PyFloat.float.
  assert (Ha : to_ascii unicode_decimal s = s).
  { unfold to_ascii.
    replace (forallb (fun c => c <? 128) s) with true; [reflexivity|].
    symmetry. rewrite forallb_forall in *. intros c Hc.
    specialize (H c Hc). apply digit_bounds in H. apply N.ltb_lt. lia. }
  rewrite Ha.
  assert (Hu : existsb (N.eqb 95) s = false).
  { destruct (existsb (N.eqb 95) s) eqn:E; [|reflexivity].
    apply existsb_exists in E. destruct E as [c [Hc E]].
    apply N.eqb_eq in E. subst c. rewrite forallb_forall in H.
    specialize (H _ Hc). discriminate H. }
  rewrite Hu, (c_strip_digits s H).
  destruct s as [|c s]; [congruence|].
  assert (Hc : is_digit c = true).
  { cbn [forallb] in H. apply andb_true_iff in H. exact (proj1 H). }
  unfold strtod. rewrite (parse_sign_digit c s Hc).
  rewrite (span_digits_all (c :: s) H).
  cbn [map app]. rewrite app_nil_r. reflexivity.
Qed.

Lemma digits_value_acc (u : Decimal.uint) :
  forall acc : positive,
    fold_left (fun a d => (10 * a + Z.of_N d)%Z)
              (map (fun c => c - 48) (uint_digits u)) (Z.pos acc)
    = Z.pos (Pos.of_uint_acc u acc).
Proof.
  induction u; intros acc; cbn [uint_digits map fold_left Pos.of_uint_acc];
    [reflexivity | ..];
    rewrite <- IHu; f_equal; lia.
Qed.

Lemma digits_value_uint (u : Decimal.uint) :
  digits_value (map (fun c => c - 48) (uint_digits u))
  = Z.of_N (Pos.of_uint u).
Proof.
  unfold digits_value.
  induction u; cbn [uint_digits map fold_left Pos.of_uint];
    [reflexivity | exact IHu | ..];
    match goal with
    | |- _ = Z.of_N (N.pos (Pos.of_uint_acc ?u ?k)) =>
        change (Z.of_N (N.pos (Pos.of_uint_acc u k)))
          with (Z.pos (Pos.of_uint_acc u k));
        rewrite <- digits_value_acc; reflexivity
    end.
Qed.

Lemma digits_value_decimal (n : N) :
  digits_value (map (fun c => c - 48) (decimal_of_N n)) = Z.of_N n.
Proof.
  unfold decimal_of_N. rewrite digits_value_uint.
  f_equal. destruct n as [|p]; [reflexivity|].
  apply DecimalPos.Unsigned.of_to.
Qed.

Section Integers.

Variable unicode_decimal : N -> option N.

Local Abbreviation parse_number := (Converter.parse_number unicode_decimal).

(** X15. A quantity or price written as a whole number below 2^53, with
    or without commas between its digits, comes out as the same number
    followed by ".00". *)
Theorem whole_numbers_print_exactly (n : N) (t : text) :
  n < 2 ^ 53 ->
  remove_commas t = decimal_of_N n ->
  format_2f (parse_number t) = decimal_of_N n ++ cp ".00".
Proof.
  intros Hn Ht.
  assert (Hne : t <> []).
  { intros ->. symmetry in Ht. exact (decimal_of_N_nonempty n Ht). }
  unfold Converter.parse_number.
  destruct t as [|c t]; [congruence|]. cbn [truthy].
  rewrite Ht, float_digits;
    [| apply decimal_of_N_nonempty | apply uint_digits_all].
  cbn [try_except]. rewrite digits_value_decimal.
  destruct (round_decimal_exact (Z.of_N n)) as [m [e [E [He Hm]]]].
  { split; [lia|]. change (2 ^ 53)%Z with (Z.of_N (2 ^ 53)). lia. }
  rewrite E, (format_2f_exact m e (Z.of_N n)); [|lia|exact He|exact Hm].
  rewrite N2Z.id. reflexivity.
Qed.

End Integers.


Local Open Scope Z_scope.


Lemma div_half_even_error (n d : Z) :
  0 < d -> 2 * Z.abs (div_half_even n d * d - n) <= d.
Proof.
  intros Hd. unfold div_half_even.
  pose proof (Z.div_mod n d ltac:(lia)) as E.
  pose proof (Z.mod_pos_bound n d Hd) as B.
  destruct ((d <? 2 * (n mod d)) || ((d =? 2 * (n mod d)) && Z.odd (n / d)))
    eqn:T.
  - apply orb_true_iff in T. destruct T as [T | T].
    + apply Z.ltb_lt in T. nia.
    + apply andb_true_iff in T. destruct T as [T _]. apply Z.eqb_eq in T.
      nia.
  - apply orb_false_iff in T. destruct T as [T _]. apply Z.ltb_ge in T. nia.
Qed.

Lemma div_half_even_near (a d r : Z) :
  2 * Z.abs r < d -> div_half_even (a * d + r) d = a.
Proof.
  intros H. assert (Hd : 0 < d) by lia. unfold div_half_even.
  destruct (Z_le_gt_dec 0 r) as [Hr | Hr].
  - assert (Eq : (a * d + r) / d = a).
    { symmetry. apply (Z.div_unique _ _ a r); lia. }
    assert (Em : (a * d + r) mod d = r).
    { symmetry. apply (Z.mod_unique _ _ a r); lia. }
    rewrite Eq, Em.
    replace (d <? 2 * r) with false by (symmetry; apply Z.ltb_ge; lia).
    replace (d =? 2 * r) with false by (symmetry; apply Z.eqb_neq; lia).
    reflexivity.
  - assert (Eq : (a * d + r) / d = a - 1).
    { symmetry. apply (Z.div_unique _ _ (a - 1) (d + r)); lia. }
    assert (Em : (a * d + r) mod d = d + r).
    { symmetry. apply (Z.mod_unique _ _ (a - 1) (d + r)); lia. }
    rewrite Eq, Em.
    replace (d <? 2 * (d + r)) with true by (symmetry; apply Z.ltb_lt; lia).
    cbn [orb]. lia.
Qed.

(** The end of [round_decimal] for a binary exponent in the range of
    the amounts of an order. *)
Lemma round_decimal_tail (num den k1 : Z) :
  0 < den -> -1074 <= k1 <= -8 ->
  exists q k,
    (let k := Z.max k1 (-1074) in
     let q := if 0 <=? k then div_half_even num (den * 2 ^ k)
              else div_half_even (num * 2 ^ (- k)) den in
     let '(q', k') := if q =? 2 ^ 53 then (2 ^ 52, k + 1) else (q, k) in
     if 971 <? k' then Infinity false else Finite false q' k')
    = Finite false q k
    /\ k <= -7
    /\ 2 * Z.abs (q * den - num * 2 ^ (- k)) <= den.
Proof.
  intros Hden Hk. cbv zeta.
  replace (Z.max k1 (-1074)) with k1 by lia.
  replace (0 <=? k1) with false by (symmetry; apply Z.leb_gt; lia).
  pose proof (div_half_even_error (num * 2 ^ (- k1)) den Hden) as Herr.
  destruct (div_half_even (num * 2 ^ (- k1)) den =? 2 ^ 53) eqn:E.
  - apply Z.eqb_eq in E. rewrite E in Herr.
    exists (2 ^ 52), (k1 + 1).
    replace (971 <? k1 + 1) with false by (symmetry; apply Z.ltb_ge; lia).
    split; [reflexivity|]. split; [lia|].
    assert (E2 : 2 ^ (- k1) = 2 * 2 ^ (- (k1 + 1))).
    { replace (- k1) with (Z.succ (- (k1 + 1))) by lia.
      apply Z.pow_succ_r. lia. }
    rewrite E2 in Herr. change (2 ^ 53) with (2 * 2 ^ 52) in Herr. lia.
  - exists (div_half_even (num * 2 ^ (- k1)) den), k1.
    replace (971 <? k1) with false by (symmetry; apply Z.ltb_ge; lia).
    split; [reflexivity|]. split; [lia | exact Herr].
Qed.

Lemma round_decimal_amount (M e10 : Z) :
  (e10 = -1 /\ M < 10 ^ 14) \/ (e10 = -2 /\ M < 10 ^ 15) ->
  0 < M ->
  exists q k,
    round_decimal false M e10 = Finite false q k
    /\ k <= -7
    /\ 2 * Z.abs (q * 10 ^ (- e10) - M * 2 ^ (- k)) <= 10 ^ (- e10).
Proof.
  intros He H0.
  pose proof (Z.log2_nonneg M) as HL0.
  unfold round_decimal.
  replace (M =? 0) with false by (symmetry; apply Z.eqb_neq; lia).
  destruct He as [[-> HM] | [-> HM]].
  - assert (HL : Z.log2 M < 47).
    { apply Z.log2_lt_pow2; [lia|].
      assert (10 ^ 14 < 2 ^ 47) by reflexivity. lia. }
    change (0 <=? -1) with false. cbv iota.
    change (10 ^ (- -1)) with 10. change (Z.log2 10) with 3.
    match goal with
    | |- context [if ?a then _ else if ?b then _ else _] =>
        destruct a; [|destruct b]
    end; apply round_decimal_tail; lia.
  - assert (HL : Z.log2 M < 50).
    { apply Z.log2_lt_pow2; [lia|].
      assert (10 ^ 15 < 2 ^ 50) by reflexivity. lia. }
    change (0 <=? -2) with false. cbv iota.
    change (10 ^ (- -2)) with 100. change (Z.log2 100) with 6.
    match goal with
    | |- context [if ?a then _ else if ?b then _ else _] =>
        destruct a; [|destruct b]
    end; apply round_decimal_tail; lia.
Qed.

Lemma format_2f_amount (q k c den M : Z) :
  k <= -7 -> 0 <= c ->
  (den = 10 /\ c = 10 * M) \/ (den = 100 /\ c = M) ->
  2 * Z.abs (q * den - M * 2 ^ (- k)) <= den ->
  format_2f (Finite false q k)
  = decimal_of_N (Z.to_N c / 100)
      ++ [46; 48 + (Z.to_N c mod 100) / 10; 48 + Z.to_N c mod 10]%N.
Proof.
  intros Hk Hc Hden Herr. unfold format_2f. cbv zeta.
  replace (0 <=? k) with false by (symmetry; apply Z.leb_gt; lia).
  assert (HD : 128 <= 2 ^ (- k)).
  { change 128 with (2 ^ 7). apply Z.pow_le_mono_r; lia. }
  assert (Hh : div_half_even (q * 100) (2 ^ (- k)) = c).
  { replace (q * 100) with (c * 2 ^ (- k) + (q * 100 - c * 2 ^ (- k)))
      by lia.
    apply div_half_even_near.
    destruct Hden as [[-> ->] | [-> ->]]; lia. }
  rewrite Hh. reflexivity.
Qed.


Local Open Scope N_scope.

Lemma c_strip_id (s : text) :
  (forall c, In c s -> is_c_space c = false) -> c_strip s = s.
Proof.
  intros H. unfold c_strip.
  assert (L : forall u, (forall c, In c u -> is_c_space c = false) ->
                        c_lstrip u = u).
  { intros [|c u] Hu; [reflexivity|]. cbn [c_lstrip].
    rewrite (Hu c (or_introl eq_refl)). reflexivity. }
  rewrite (L s H), L, rev_involutive; [reflexivity|].
  intros c Hc. apply H, in_rev, Hc.
Qed.

Lemma plain_char (c : N) :
  is_digit c = true \/ c = 46 ->
  is_c_space c = false /\ (c <? 128) = true /\ (95 =? c) = false
  /\ negb (c =? 44) = true.
Proof.
  intros H.
  assert (B : 46 <= c <= 57).
  { destruct H as [H | ->]; [apply digit_bounds in H|]; lia. }
  unfold is_c_space. repeat split.
  - apply orb_false_iff. split.
    + apply andb_false_iff. right. apply N.leb_gt. lia.
    + apply N.eqb_neq. lia.
  - apply N.ltb_lt. lia.
  - apply N.eqb_neq. lia.
  - apply negb_true_iff, N.eqb_neq. lia.
Qed.

Lemma digits_value_app (ds es : list N) :
  digits_value (ds ++ es)
  = fold_left (fun a d => (10 * a + Z.of_N d)%Z) es (digits_value ds).
Proof. unfold digits_value. apply fold_left_app. Qed.

Lemma float_decimal (unicode_decimal : N -> option N) (ip fp : text) :
  ip <> [] -> forallb is_digit ip = true -> forallb is_digit fp = true ->
  PyFloat.float unicode_decimal (ip ++ 46 :: fp)
  = Ok (round_decimal false
          (digits_value (map (fun c => c - 48) ip
                           ++ map (fun c => c - 48) fp))
          (0 - Z.of_nat (List.length fp))).
Proof.
  intros Hne Hi Hf.
  assert (Hplain : forall c, In c (ip ++ 46 :: fp) ->
                             is_digit c = true \/ c = 46).
  { intros c Hc. apply in_app_or in Hc. rewrite forallb_forall in Hi, Hf.
    destruct Hc as [Hc | [<- | Hc]]; auto. }
  unfold PyFloat.float.
  assert (Ha : to_ascii unicode_decimal (ip ++ 46 :: fp) = ip ++ 46 :: fp).
  { unfold to_ascii.
    replace (forallb (fun c => c <? 128) (ip ++ 46 :: fp)) with true;
      [reflexivity|].
    symmetry. apply forallb_forall. intros c Hc.
    apply (plain_char c (Hplain c Hc)). }
  rewrite Ha.
  assert (Hu : existsb (N.eqb 95) (ip ++ 46 :: fp) = false).
  { destruct (existsb (N.eqb 95) (ip ++ 46 :: fp)) eqn:E; [|reflexivity].
    apply existsb_exists in E. destruct E as [c [Hc E]].
    rewrite (proj1 (proj2 (proj2 (plain_char c (Hplain c Hc))))) in E.
    discriminate E. }
  rewrite Hu, c_strip_id
    by (intros c Hc; apply (plain_char c (Hplain c Hc))).
  destruct ip as [|c ip]; [congruence|].
  assert (Hc : is_digit c = true).
  { cbn [forallb] in Hi. apply andb_true_iff in Hi. exact (proj1 Hi). }
  unfold strtod. cbn [app]. rewrite (parse_sign_digit c _ Hc).
  change (c :: ip ++ 46 :: fp) with ((c :: ip) ++ 46 :: fp).
  rewrite (span_digits_point (c :: ip) fp Hi).
  cbv beta iota. rewrite (span_digits_all fp Hf).
  cbn [map app]. rewrite length_map. reflexivity.
Qed.

Lemma remove_commas_id (t : text) :
  (forall c, In c t -> negb (c =? 44) = true) -> remove_commas t = t.
Proof.
  intros H. unfold remove_commas. induction t as [|c t IH]; [reflexivity|].
  cbn [filter]. rewrite (H c (or_introl eq_refl)), IH; [reflexivity|].
  intros x Hx. apply H. now right.
Qed.

Section Amounts.

Variable unicode_decimal : N -> option N.

Local Abbreviation parse_number := (Converter.parse_number unicode_decimal).

Lemma amount_value (a : N) (frac : list N) (t : text) :
  remove_commas t = decimal_of_N a ++ 46 :: map (fun d => 48 + d) frac ->
  Forall (fun d => d < 10) frac ->
  parse_number t
  = round_decimal false
      (fold_left (fun x d => (10 * x + Z.of_N d)%Z) frac (Z.of_N a))
      (0 - Z.of_nat (List.length frac)).
Proof.
  intros Ht Hfrac.
  assert (Hne : t <> []).
  { intros ->. cbn in Ht. destruct (decimal_of_N a); discriminate Ht. }
  unfold Converter.parse_number.
  destruct t as [|c t]; [congruence|]. cbn [truthy].
  assert (Hdigits : forallb is_digit (map (fun d => 48 + d) frac) = true).
  { apply forallb_forall. intros x Hx. apply in_map_iff in Hx.
    destruct Hx as [d [<- Hd]]. rewrite Forall_forall in Hfrac.
    specialize (Hfrac d Hd). unfold is_digit.
    apply andb_true_iff. split; apply N.leb_le; lia. }
  rewrite Ht, float_decimal;
    [| apply decimal_of_N_nonempty | apply uint_digits_all | exact Hdigits].
  cbn [try_except]. rewrite digits_value_app, digits_value_decimal.
  rewrite !length_map. f_equal.
  rewrite map_map. f_equal.
  rewrite <- (map_id frac) at 2. apply map_ext_in. intros d Hd. lia.
Qed.

(** X16. A quantity or price written with a decimal point and one or
    two decimals, its whole part below ten to the thirteenth, with or
    without commas, comes out as the same number with two decimals. *)
Theorem decimal_amounts_print_exactly (a d1 d2 : N) (t : text) :
  a < 10 ^ 13 -> d1 < 10 -> d2 < 10 ->
  (remove_commas t = decimal_of_N a ++ [46; 48 + d1; 48 + d2] ->
   format_2f (parse_number t) = decimal_of_N a ++ [46; 48 + d1; 48 + d2])
  /\ (remove_commas t = decimal_of_N a ++ [46; 48 + d1] ->
      format_2f (parse_number t) = decimal_of_N a ++ [46; 48 + d1; 48]).
Proof.
  intros Ha H1 H2.
  assert (B : (10 ^ 13 = 10000000000000)%N) by reflexivity.
  assert (B14 : (10 ^ 14 = 100000000000000)%Z) by reflexivity.
  assert (B15 : (10 ^ 15 = 1000000000000000)%Z) by reflexivity.
  split; intros Ht.
  - rewrite (amount_value a [d1; d2] t Ht)
      by (repeat constructor; assumption).
    cbn [fold_left List.length].
    set (M := (10 * (10 * Z.of_N a + Z.of_N d1) + Z.of_N d2)%Z).
    change (0 - Z.of_nat 2)%Z with (-2)%Z.
    destruct (Z.eq_dec M 0) as [E | E].
    + assert (a = 0 /\ d1 = 0 /\ d2 = 0) as [-> [-> ->]] by lia.
      reflexivity.
    + destruct (round_decimal_amount M (-2)) as [q [k [Eq [Hk Herr]]]];
        [right; split; [reflexivity | lia] | lia |].
      rewrite Eq.
      rewrite (format_2f_amount q k M 100 M Hk);
        [| lia | right; auto | exact Herr].
      assert (En : Z.to_N M = 100 * a + (10 * d1 + d2)) by lia.
      rewrite En.
      rewrite <- (N.div_unique (100 * a + (10 * d1 + d2)) 100 a
                               (10 * d1 + d2)) by lia.
      rewrite <- (N.mod_unique (100 * a + (10 * d1 + d2)) 100 a
                               (10 * d1 + d2)) by lia.
      rewrite <- (N.div_unique (10 * d1 + d2) 10 d1 d2) by lia.
      rewrite <- (N.mod_unique (100 * a + (10 * d1 + d2)) 10
                               (10 * a + d1) d2) by lia.
      reflexivity.
  - rewrite (amount_value a [d1] t Ht) by (repeat constructor; assumption).
    cbn [fold_left List.length].
    set (M := (10 * Z.of_N a + Z.of_N d1)%Z).
    change (0 - Z.of_nat 1)%Z with (-1)%Z.
    destruct (Z.eq_dec M 0) as [E | E].
    + assert (a = 0 /\ d1 = 0) as [-> ->] by lia.
      reflexivity.
    + destruct (round_decimal_amount M (-1)) as [q [k [Eq [Hk Herr]]]];
        [left; split; [reflexivity | lia] | lia |].
      rewrite Eq.
      rewrite (format_2f_amount q k (10 * M) 10 M Hk);
        [| lia | left; auto | exact Herr].
      assert (En : Z.to_N (10 * M) = 100 * a + (10 * d1 + 0)) by lia.
      rewrite En.
      rewrite <- (N.div_unique (100 * a + (10 * d1 + 0)) 100 a
                               (10 * d1 + 0)) by lia.
      rewrite <- (N.mod_unique (100 * a + (10 * d1 + 0)) 100 a
                               (10 * d1 + 0)) by lia.
      rewrite <- (N.div_unique (10 * d1 + 0) 10 d1 0) by lia.
      rewrite <- (N.mod_unique (100 * a + (10 * d1 + 0)) 10
                               (10 * a + d1) 0) by lia.
      rewrite N.add_0_r. reflexivity.
Qed.

End Amounts.

End NumberFacts.

(* ================================================================== *)
(** * More on the conversion *)
(* ================================================================== *)

Module ConverterFacts.
Import CliFacts.

Section Conversion.

Variable unicode_upper : N -> list N.
Variable unicode_decimal : N -> option N.

Local Abbreviation convert_rows :=
  (Converter.convert_rows unicode_upper unicode_decimal).
Local Abbreviation convert_out :=
  (Value.convert_out unicode_upper unicode_decimal).
Local Abbreviation doc_out := (Value.doc_out unicode_upper unicode_decimal).
Local Abbreviation single_out := (Value.single_out unicode_decimal).
Local Abbreviation line_row := (Value.line_row unicode_decimal).
Local Abbreviation directory_of := (Value.directory_of unicode_upper).
Local Abbreviation parse_number := (Converter.parse_number unicode_decimal).
Local Abbreviation directory_available :=
  (Value.directory_available unicode_upper).

(** ** The cache *)

Lemma convert_rows_available env cache rows :
  directory_available env cache ->
  convert_rows env cache rows
  = (Ok (convert_out env cache rows), Some (directory_of env cache)).
Proof.
  exact (@convert_rows_pair unicode_upper unicode_decimal env cache rows).
Qed.

(** X7. After a conversion that got its salesperson directory,
    converting the same rows again in the same process gives the same
    rows, also at another time and with another directory file on
    disk (even an unreadable one), as long as a document-number column
    resolves or the minute has not changed. *)
Theorem conversion_is_repeatable env1 env2 cache rows :
  directory_available env1 cache ->
  first_header_key (header_keys_of rows) doc_keys <> None
  \/ strftime_mdHM (now env2) = strftime_mdHM (now env1) ->
  fst (convert_rows env2 (snd (convert_rows env1 cache rows)) rows)
  = fst (convert_rows env1 cache rows).
Proof.
  intros Hav H. rewrite (convert_rows_available env1 cache rows Hav).
  cbn [fst snd].
  rewrite (convert_rows_available env2 _ rows
             (cached_directory_available unicode_upper env2 _)).
  cbn [fst]. f_equal.
  unfold Value.convert_out.
  assert (Hd : directory_of env2 (Some (directory_of env1 cache))
               = directory_of env1 cache) by reflexivity.
  rewrite Hd.
  destruct (first_header_key (header_keys_of rows) doc_keys) as [dk|];
    [reflexivity|].
  destruct H as [H | H]; [congruence|]. rewrite H. reflexivity.
Qed.

(** ** Appending rows *)

Lemma survivors_app rows more :
  survivors (rows ++ more) = survivors rows ++ survivors more.
Proof. apply filter_app. Qed.

Lemma doc_out_app sp_map dk ck cuk rows :
  forall cur,
  exists cur',
    forall more,
      doc_out sp_map dk ck cuk (rows ++ more) cur
      = doc_out sp_map dk ck cuk rows cur
          ++ doc_out sp_map dk ck cuk more cur'.
Proof.
  induction rows as [|row rows IH]; intros cur.
  - exists cur. reflexivity.
  - cbn [app Value.doc_out].
    destruct (opens_group (field_value row [dk]) cur).
    + destruct (IH (Some (field_value row [dk]))) as [cur' H].
      exists cur'. intros more. rewrite H. reflexivity.
    + destruct (IH cur) as [cur' H].
      exists cur'. intros more. rewrite H. reflexivity.
Qed.

Lemma single_out_app qn rows more :
  exists first,
    single_out qn (rows ++ more) true
    = single_out qn rows true ++ single_out qn more first.
Proof.
  destruct rows as [|row rows].
  - exists true. reflexivity.
  - exists false. cbn [app Value.single_out]. rewrite map_app.
    rewrite (single_out_false unicode_decimal qn more). reflexivity.
Qed.

(** X8. Rows appended to an input leave the output of the rows before them
    as it is: for a call that gets a salesperson directory, the output
    of the longer input starts with the output of the shorter one and
    has one more row for each appended row with a SKU. *)
Theorem output_grows_by_appending env cache rows more :
  directory_available env cache ->
  exists out extra,
    fst (convert_rows env cache rows) = Ok out
    /\ fst (convert_rows env cache (rows ++ more)) = Ok (out ++ extra)
    /\ List.length extra = List.length (survivors more).
Proof.
  intros Hav. rewrite !(fun r => convert_rows_available env cache r Hav).
  cbn [fst].
  assert (H : exists extra,
             convert_out env cache (rows ++ more)
             = convert_out env cache rows ++ extra).
  { destruct rows as [|r0 rows].
    - exists (convert_out env cache more). reflexivity.
    - unfold Value.convert_out. cbn [app header_keys_of].
      change (r0 :: rows ++ more) with ((r0 :: rows) ++ more).
      rewrite survivors_app.
      destruct (first_header_key (Dict.keys r0) doc_keys) as [dk|].
      + destruct (doc_out_app (directory_of env cache) dk
                    (first_header_key (Dict.keys r0) customer_keys)
                    (first_header_key (Dict.keys r0) cust_keys)
                    (survivors (r0 :: rows)) None) as [cur' H].
        eexists. apply H.
      + destruct (single_out_app (cp "QO" ++ strftime_mdHM (now env))
                    (survivors (r0 :: rows)) (survivors more)) as [b H].
        eexists. apply H. }
  destruct H as [extra H].
  exists (convert_out env cache rows), extra.
  split; [reflexivity|]. split; [rewrite H; reflexivity|].
  pose proof (convert_out_length unicode_upper unicode_decimal env cache
                (rows ++ more)) as Hlen.
  rewrite H, length_app, survivors_app, length_app in Hlen.
  rewrite (convert_out_length unicode_upper unicode_decimal env cache rows)
    in Hlen.
  lia.
Qed.

(** ** One document *)

Lemma doc_out_same_doc sp_map (dk : text) ck cuk (d : text)
  (rows : list Row) :
  Forall (fun row : Row => field_value row [dk] = d) rows ->
  doc_out sp_map dk ck cuk rows (Some d) = map line_row rows.
Proof.
  induction 1 as [|row rows Hrow _ IH]; [reflexivity|].
  cbn [Value.doc_out map]. rewrite Hrow.
  assert (E : opens_group d (Some d) = false).
  { unfold opens_group, differs. rewrite text_eqb_refl.
    destruct (truthy d); reflexivity. }
  rewrite E, IH. reflexivity.
Qed.

(** X9. When all the rows with a SKU carry the same valid document number,
    the output of a call that gets a salesperson directory is one
    order: its first row bears the header, named "O" followed by the
    number without white space, and every other row has a blank
    header. *)
Theorem single_document_single_header env cache (rows : list Row)
  (dk d : text) (first : Row) (rest : list Row) :
  directory_available env cache ->
  first_header_key (header_keys_of rows) doc_keys = Some dk ->
  survivors rows = first :: rest ->
  valid_doc d = true ->
  Forall (fun row : Row => get_val row [dk] = Ok d) (survivors rows) ->
  exists h tl,
    fst (convert_rows env cache rows) = Ok (h :: tl)
    /\ has_header h = true
    /\ Dict.get (cp "name") h = Some (cp "O" ++ remove_whitespace d)
    /\ List.length tl = List.length rest
    /\ Forall (fun r => blank_header r = true) tl.
Proof.
  intros Hav Hdk Hsurv Hvalid Hdocs.
  rewrite (convert_rows_available env cache rows Hav). cbn [fst].
  unfold Value.convert_out.
  rewrite Hdk, Hsurv. rewrite Hsurv in Hdocs.
  assert (Hdocs' : Forall (fun row : Row => field_value row [dk] = d)
                          (first :: rest)).
  { eapply Forall_impl; [|exact Hdocs]. intros row H.
    pose proof (get_val_value row [dk]) as E. cbv beta in H.
    congruence. }
  inversion Hdocs' as [|? ? Hfirst Hrest]; subst.
  cbn [Value.doc_out].
  assert (E : opens_group (field_value first [dk]) None = true).
  { unfold opens_group, differs. unfold valid_doc in Hvalid.
    apply andb_true_iff in Hvalid. destruct Hvalid as [-> ->]. reflexivity. }
  rewrite E, (doc_out_same_doc _ dk _ _ _ rest Hrest).
  eexists. eexists. split; [reflexivity|].
  split; [apply doc_header_row_has_header|].
  split; [reflexivity|].
  split; [apply length_map|].
  apply Forall_forall. intros r Hr. apply in_map_iff in Hr.
  destruct Hr as [row [<- _]]. reflexivity.
Qed.

End Conversion.
End ConverterFacts.

(* ================================================================== *)
(** * The salesperson directory *)
(* ================================================================== *)

Module DirectoryFacts.
Import Csv. Import CsvFacts. Import Directory.

Section LastWins.

Variable unicode_upper : N -> list N.

Local Abbreviation load_row := (Converter.load_row unicode_upper).
Local Abbreviation entry_for := (Directory.entry_for unicode_upper).
Local Abbreviation is_entry_for := (Directory.is_entry_for unicode_upper).

(** ** The directory *)

Lemma get_load_row k mapping row :
  Dict.get k (load_row mapping row)
  = match entry_for k row with
    | Some name => Some name
    | None => Dict.get k mapping
    end.
Proof.
  unfold Directory.entry_for, Converter.load_row.
  match goal with
  | |- context [if ?c then _ else _] => destruct c
  end; [|reflexivity].
  rewrite dict_get_set. cbn [Dict.set Dict.get].
  destruct (Text.eqb k _); reflexivity.
Qed.

Lemma get_fold_load_row k rows :
  forall mapping,
    Dict.get k (fold_left load_row rows mapping)
    = match find (is_entry_for k) (rev rows) with
      | Some row => entry_for k row
      | None => Dict.get k mapping
      end.
Proof.
  induction rows as [|row rows IH] using rev_ind; intros mapping;
    [reflexivity|].
  rewrite fold_left_app, rev_app_distr. cbn [fold_left rev app find].
  rewrite get_load_row, IH. unfold Directory.is_entry_for.
  destruct (entry_for k row) eqn:E; [|reflexivity].
  symmetry. exact E.
Qed.

Lemma nodup_add_key (acc : list text) (k : text) :
  NoDup acc -> NoDup (if Text.mem k acc then acc else acc ++ [k]).
Proof.
  intros H. destruct (Text.mem k acc) eqn:E; [exact H|].
  apply NoDup_app; [exact H | repeat constructor; intros [] |].
  intros x Hx [<- | []]. apply text_mem_In in Hx. congruence.
Qed.

Lemma load_row_nodup mapping row :
  NoDup (Dict.keys mapping) -> NoDup (Dict.keys (load_row mapping row)).
Proof.
  intros H. unfold Converter.load_row.
  match goal with
  | |- context [if ?c then _ else _] => destruct c
  end; [|exact H].
  rewrite keys_set. apply nodup_add_key, H.
Qed.

Lemma fold_load_row_nodup rows :
  forall mapping,
    NoDup (Dict.keys mapping) ->
    NoDup (Dict.keys (fold_left load_row rows mapping)).
Proof.
  induction rows as [|row rows IH]; intros mapping H; [exact H|].
  cbn [fold_left]. apply IH, load_row_nodup, H.
Qed.

Lemma load_salesperson_map_fold f sp_map :
  _load_salesperson_map unicode_upper (Some f) = Ok sp_map ->
  sp_map = fold_left load_row (rows_read f) [].
Proof.
  unfold _load_salesperson_map, rows_read.
  destruct (utf8_end f); [| |discriminate].
  - rewrite app_nil_r. intros H. injection H as <-. reflexivity.
  - destruct (latin1_end f); [discriminate|].
    rewrite fold_left_app. intros H. injection H as <-. reflexivity.
Qed.

(** X12. In the salesperson directory a list loads into, a code has one
    name: that of the last row of the list which gives it one.  A row
    gives a name to its code, trimmed and upper-cased, when both the
    code and the trimmed name are non-empty; other rows are passed
    over. *)
Theorem last_entry_wins f sp_map :
  _load_salesperson_map unicode_upper (Some f) = Ok sp_map ->
  NoDup (Dict.keys sp_map)
  /\ (forall k,
        Dict.get k sp_map
        = match find (is_entry_for k) (rev (rows_read f)) with
          | Some row => entry_for k row
          | None => None
          end)
  /\ (forall (row : Row) (k code name : text),
        Dict.get (cp "Code") row = Some (Some code) ->
        Dict.get (cp "Name") row = Some (Some name) ->
        entry_for k row
        = if Text.eqb k (Text.upper unicode_upper (strip code))
             && truthy (Text.upper unicode_upper (strip code))
             && truthy (strip name)
          then Some (strip name) else None).
Proof.
  intros Hload. rewrite (load_salesperson_map_fold f sp_map Hload).
  split; [apply fold_load_row_nodup; constructor|].
  split; [intros k; apply get_fold_load_row|].
  intros row k code name Hcode Hname.
  unfold Directory.entry_for, Converter.load_row.
  rewrite Hcode, Hname, !py_or_empty_default.
  destruct (truthy (Text.upper unicode_upper (strip code)));
    destruct (truthy (strip name)); cbn [andb Dict.set Dict.get];
    rewrite ?andb_false_r; try reflexivity.
  destruct (Text.eqb k _); reflexivity.
Qed.

End LastWins.
End DirectoryFacts.

(* ================================================================== *)
(** * The further properties at concrete inputs *)
(* ================================================================== *)

Import Csv. Import Cli. Import MoreExamples.

(** The round trip at an order of two lines with commas in its cells. *)
Lemma written_template_reads_back_witness :
  Forall (fun r => Dict.keys r = TEMPLATE_HEADERS) comma_out
  /\ Forall (fun r => Forall (fun kv => encodable (snd kv) = true) r)
            comma_out
  /\ Forall (fun r => Forall (fun kv => fits (snd kv)) r) comma_out
  /\ exists t,
      write_template_csv comma_out = (t, None)
      /\ parse_rows (Some (written_file t comma_text))
         = Returned (map as_parsed comma_out).
Proof.
  assert (H1 : Forall (fun r => Dict.keys r = TEMPLATE_HEADERS) comma_out)
    by (repeat constructor).
  assert (H2 : Forall (fun r => Forall (fun kv => encodable (snd kv) = true)
                                       r) comma_out)
    by (repeat constructor).
  assert (H3 : Forall (fun r => Forall (fun kv => fits (snd kv)) r)
                      comma_out)
    by (repeat constructor; vm_compute; discriminate).
  split; [exact H1|]. split; [exact H2|]. split; [exact H3|].
  exact (CsvFacts.written_template_reads_back comma_out comma_text
           H1 H2 H3).
Defined.


(** The 1021 lines read twice at the file of 1200 lines whose last
    line is Latin-1: 2222 rows. *)
Lemma late_decoding_error_duplicates_rows_witness :
  detect_delimiter (Some (first_read interrupted_file)) = Ok [44%N]
  /\ utf8_exhausted interrupted_file = false
  /\ whole_lines (utf8_lines interrupted_file) interrupted_rest
  /\ dict_reader (reader 44 (Some UnicodeDecodeError)
                         (utf8_lines interrupted_file))
     = (repeat tea_row 1021, Some UnicodeDecodeError)
  /\ parse_rows (Some interrupted_file)
     = Returned (repeat tea_row 1021
                   ++ repeat tea_row 1021 ++ repeat tea_row 179 ++ [cafe_row])
  /\ exists more,
       fst (dict_reader (reader 44 None (latin1_lines interrupted_file)))
       = repeat tea_row 1021 ++ more
       /\ (parse_rows (Some interrupted_file)
           = Returned (repeat tea_row 1021 ++ repeat tea_row 1021 ++ more)
           \/ parse_rows (Some interrupted_file) = Failed FieldLimitError)
       /\ (fits (latin1_lines interrupted_file) ->
           parse_rows (Some interrupted_file)
           = Returned (repeat tea_row 1021 ++ repeat tea_row 1021 ++ more)).
Proof.
  assert (H1 : detect_delimiter (Some (first_read interrupted_file))
               = Ok [44%N]) by (vm_compute; reflexivity).
  assert (H2 : utf8_exhausted interrupted_file = false) by reflexivity.
  assert (H3 : whole_lines (utf8_lines interrupted_file) interrupted_rest).
  { right. left. exists (removelast (utf8_lines interrupted_file)).
    vm_compute. reflexivity. }
  assert (H4 : dict_reader (reader 44 (Some UnicodeDecodeError)
                                   (utf8_lines interrupted_file))
               = (repeat tea_row 1021, Some UnicodeDecodeError))
    by (vm_compute; reflexivity).
  split; [exact H1|]. split; [exact H2|]. split; [exact H3|].
  split; [exact H4|].
  split; [vm_compute; reflexivity|].
  exact (CsvFacts.late_decoding_error_duplicates_rows
           interrupted_file 44%N interrupted_rest (repeat tea_row 1021)
           H1 H2 H3 eq_refl H4).
Defined.

(** Repeating the conversion of the six rows nine months later, with a
    salesperson list that was not there at the first call. *)
Lemma conversion_is_repeatable_witness :
  Value.directory_available ascii_upper env0 None
  /\ (first_header_key (header_keys_of six_rows) doc_keys <> None
   \/ strftime_mdHM (now env_later) = strftime_mdHM (now env0))
  /\ fst (convert_rows ascii_upper ascii_decimal env_later
            (snd (convert_rows ascii_upper ascii_decimal env0 None six_rows))
            six_rows)
     = fst (convert_rows ascii_upper ascii_decimal env0 None six_rows).
Proof.
  assert (H : first_header_key (header_keys_of six_rows) doc_keys <> None
              \/ strftime_mdHM (now env_later) = strftime_mdHM (now env0))
    by (left; discriminate).
  assert (H0 : Value.directory_available ascii_upper env0 None)
    by reflexivity.
  split; [exact H0|]. split; [exact H|].
  exact (ConverterFacts.conversion_is_repeatable ascii_upper ascii_decimal
           env0 env_later None six_rows H0 H).
Defined.

(** Two more rows after the six: a product line and a note. *)
Lemma output_grows_by_appending_witness :
  Value.directory_available ascii_upper env0 None
  /\ exists out extra,
      fst (convert_rows ascii_upper ascii_decimal env0 None six_rows) = Ok out
      /\ fst (convert_rows ascii_upper ascii_decimal env0 None
                           (six_rows ++ one_doc_rows))
         = Ok (out ++ extra)
      /\ List.length extra = 2.
Proof.
  assert (H0 : Value.directory_available ascii_upper env0 None)
    by reflexivity.
  split; [exact H0|].
  exact (ConverterFacts.output_grows_by_appending ascii_upper ascii_decimal
           env0 None six_rows one_doc_rows H0).
Defined.

(** A list that names "JD" twice and is read a second time as Latin-1. *)
Lemma last_entry_wins_witness :
  _load_salesperson_map ascii_upper (Some relisted)
  = Ok [(cp "JD", cp "Jane Roe")]
  /\ NoDup (Dict.keys [(cp "JD", cp "Jane Roe")])
  /\ Dict.get (cp "JD") [(cp "JD", cp "Jane Roe")]
     = match find (Directory.is_entry_for ascii_upper (cp "JD"))
                  (rev (Directory.rows_read relisted)) with
       | Some row => Directory.entry_for ascii_upper (cp "JD") row
       | None => None
       end.
Proof.
  assert (H0 : _load_salesperson_map ascii_upper (Some relisted)
               = Ok [(cp "JD", cp "Jane Roe")]) by reflexivity.
  split; [exact H0|].
  destruct (DirectoryFacts.last_entry_wins ascii_upper relisted _ H0)
    as [Hnd [Hget _]].
  split; [exact Hnd | exact (Hget (cp "JD"))].
Defined.

(** The one order of the document "SO 7". *)
Lemma single_document_single_header_witness :
  Value.directory_available ascii_upper env0 None
  /\ first_header_key (header_keys_of one_doc_rows) doc_keys
     = Some (cp "Doc #")
  /\ valid_doc (cp "SO 7") = true
  /\ Forall (fun row : Row => get_val row [cp "Doc #"] = Ok (cp "SO 7"))
            (survivors one_doc_rows)
  /\ exists h tl,
      fst (convert_rows ascii_upper ascii_decimal env0 None one_doc_rows)
      = Ok (h :: tl)
      /\ has_header h = true
      /\ Dict.get (cp "name") h = Some (cp "OSO7")
      /\ List.length tl = 1
      /\ Forall (fun r => blank_header r = true) tl.
Proof.
  assert (H1 : first_header_key (header_keys_of one_doc_rows) doc_keys
               = Some (cp "Doc #")) by reflexivity.
  assert (H2 : valid_doc (cp "SO 7") = true) by reflexivity.
  assert (H3 : Forall (fun row : Row =>
                         get_val row [cp "Doc #"] = Ok (cp "SO 7"))
                      (survivors one_doc_rows))
    by (repeat constructor).
  assert (H0 : Value.directory_available ascii_upper env0 None)
    by reflexivity.
  split; [exact H0|].
  split; [exact H1|]. split; [exact H2|]. split; [exact H3|].
  exact (ConverterFacts.single_document_single_header
           ascii_upper ascii_decimal env0 None one_doc_rows
           (cp "Doc #") (cp "SO 7")
           (row_of [("Doc #", "SO 7"); ("SKU", "X1"); ("Qty", "2")])
           [row_of [("Doc #", "SO 7"); ("SKU", "X2"); ("Qty", "1")]]
           H0 H1 eq_refl H2 H3).
Defined.

(** The writing of the two-line order, of a row with a lone surrogate
    in its name, and of the order once more. *)
Lemma writing_stops_at_bad_row_witness :
  Forall (fun r => Dict.keys r = TEMPLATE_HEADERS) comma_out
  /\ Forall (fun r => Forall (fun kv => encodable (snd kv) = true) r)
            comma_out
  /\ Dict.keys surrogate_row = TEMPLATE_HEADERS
  /\ Exists (fun kv => encodable (snd kv) = false) surrogate_row
  /\ write_template_csv (comma_out ++ surrogate_row :: comma_out)
     = (comma_text, Some UnicodeEncodeError).
Proof.
  assert (H1 : Forall (fun r => Dict.keys r = TEMPLATE_HEADERS) comma_out)
    by (repeat constructor).
  assert (H2 : Forall (fun r => Forall (fun kv => encodable (snd kv) = true)
                                       r) comma_out)
    by (repeat constructor).
  assert (H3 : Dict.keys surrogate_row = TEMPLATE_HEADERS) by reflexivity.
  assert (H4 : Exists (fun kv => encodable (snd kv) = false) surrogate_row)
    by (left; reflexivity).
  split; [exact H1|]. split; [exact H2|]. split; [exact H3|].
  split; [exact H4|].
  exact (proj2 (CsvFacts.writing_stops_at_bad_row
                  comma_out surrogate_row comma_out H1 H2) H3 H4).
Defined.

(** A folder of the same file under two names, the salesperson list
    being unreadable when the loop reaches the second: the second
    output names "John Doe" as the first does, although a run that
    starts with the list unreadable raises. *)
Lemma folder_run_reads_list_once_witness :
  Cli.is_csv_name ascii_lower signed_entry = true
  /\ parse_rows (entry_file signed_entry)
     = Returned [parsed_of [("Doc #", "7"); ("SKU", "X1");
                            ("Salesperson", "jd")]]
  /\ _load_salesperson_map ascii_upper
                           (directory_file (entry_env signed_entry))
     = Ok [(cp "JD", cp "John Doe")]
  /\ Forall2 same_but_list [signed_again_entry] [signed_unreadable_entry]
  /\ Cli.main ascii_upper ascii_decimal ascii_lower
              (Folder [signed_unreadable_entry])
     = ([], Some (Builtin CsvError), None)
  /\ Cli.main ascii_upper ascii_decimal ascii_lower
              (Folder [signed_entry; signed_again_entry])
     = ([signed_converted; signed_converted], None,
        Some [(cp "JD", cp "John Doe")])
  /\ Cli.main ascii_upper ascii_decimal ascii_lower
              (Folder [signed_entry; signed_unreadable_entry])
     = Cli.main ascii_upper ascii_decimal ascii_lower
                (Folder [signed_entry; signed_again_entry])
  /\ snd (Cli.main ascii_upper ascii_decimal ascii_lower
                   (Folder [signed_entry; signed_again_entry]))
     = Some [(cp "JD", cp "John Doe")].
Proof.
  assert (H1 : Cli.is_csv_name ascii_lower signed_entry = true)
    by reflexivity.
  assert (H2 : parse_rows (entry_file signed_entry)
               = Returned [parsed_of [("Doc #", "7"); ("SKU", "X1");
                                      ("Salesperson", "jd")]])
    by (vm_compute; reflexivity).
  assert (H3 : _load_salesperson_map
                 ascii_upper (directory_file (entry_env signed_entry))
               = Ok [(cp "JD", cp "John Doe")])
    by (vm_compute; reflexivity).
  assert (H4 : Forall2 same_but_list
                       [signed_again_entry] [signed_unreadable_entry])
    by (repeat constructor).
  split; [exact H1|]. split; [exact H2|]. split; [exact H3|].
  split; [exact H4|].
  split; [vm_compute; reflexivity|].
  split; [vm_compute; reflexivity|].
  exact (CliFacts.folder_run_reads_list_once
           ascii_upper ascii_decimal ascii_lower signed_entry
           [signed_again_entry] [signed_unreadable_entry] _ _ H1 H2 H3 H4).
Defined.

(** A folder of four names: a file that converts, a name that is no
    CSV file, a file that has vanished and a file after it. *)
Lemma folder_run_stops_at_first_failure_witness :
  Cli.main ascii_upper ascii_decimal ascii_lower
           (Folder [orders_entry; notes_entry])
  = ([ragged_converted], None, Some [])
  /\ Cli.is_csv_name ascii_lower gone_entry = true
  /\ Cli.process_one ascii_upper ascii_decimal (entry_env gone_entry)
                     (Some []) (entry_file gone_entry)
     = (None, Some (Builtin FileNotFoundError), Some [])
  /\ Cli.main ascii_upper ascii_decimal ascii_lower
              (Folder [orders_entry; notes_entry; gone_entry; later_entry])
     = ([ragged_converted], Some (Builtin FileNotFoundError), Some []).
Proof.
  assert (H1 : Cli.main ascii_upper ascii_decimal ascii_lower
                        (Folder [orders_entry; notes_entry])
               = ([ragged_converted], None, Some []))
    by (vm_compute; reflexivity).
  assert (H2 : Cli.is_csv_name ascii_lower gone_entry = true)
    by reflexivity.
  assert (H3 : Cli.process_one ascii_upper ascii_decimal
                 (entry_env gone_entry) (Some []) (entry_file gone_entry)
               = (None, Some (Builtin FileNotFoundError), Some []))
    by reflexivity.
  split; [exact H1|]. split; [exact H2|]. split; [exact H3|].
  exact (proj1 (CliFacts.folder_run_stops_at_first_failure
                  ascii_upper ascii_decimal ascii_lower
                  [orders_entry; notes_entry] gone_entry [later_entry]
                  [ragged_converted] (Some []) (Some []) None
                  (Builtin FileNotFoundError) H1 H2 H3)).
Defined.

(** The whole number 12,345,678. *)
Lemma whole_numbers_print_exactly_witness :
  (12345678 < 2 ^ 53)%N
  /\ remove_commas (cp "12,345,678") = decimal_of_N 12345678
  /\ format_2f (parse_number ascii_decimal (cp "12,345,678"))
     = cp "12345678.00".
Proof.
  split; [reflexivity|]. split; [reflexivity|].
  exact (NumberFacts.whole_numbers_print_exactly
           ascii_decimal 12345678%N (cp "12,345,678") eq_refl eq_refl).
Defined.

(** The amount 1,234.50. *)
Lemma decimal_amounts_print_exactly_witness :
  (1234 < 10 ^ 13)%N /\ (5 < 10)%N /\ (0 < 10)%N
  /\ remove_commas (cp "1,234.50")
     = decimal_of_N 1234 ++ [46; 48 + 5; 48 + 0]%N
  /\ format_2f (parse_number ascii_decimal (cp "1,234.50"))
     = cp "1234.50".
Proof.
  split; [reflexivity|]. split; [reflexivity|]. split; [reflexivity|].
  split; [reflexivity|].
  exact (proj1 (NumberFacts.decimal_amounts_print_exactly
                  ascii_decimal 1234%N 5%N 0%N (cp "1,234.50")
                  eq_refl eq_refl eq_refl) eq_refl).
Defined.
